(** * manage-bg-mcp: process supervision core

    A shallow embedding of the TypeScript sources

      - [src/services/ProcessLogBuffer.ts]   (class [ProcessLogBufferImpl])
      - [src/services/BgProcessManager.ts]   (class [BgProcessManagerImpl])
      - [src/services/ProcessController.ts]  (interface [ProcessController])
      - [test/mocks/MockProcessController.ts]
      - [src/services/tools/StopAllHandler.ts]
      - [src/services/ConfigProvider.ts], [src/models/*.ts]

    Conventions of the embedding.
      - JavaScript strings are [string]; a [number] that holds an integer
        (line counts, pids, exit codes, milliseconds) is a [Z].
      - [new Date()] reads a clock the environment supplies: every operation
        takes the current reading as an explicit argument.
      - Objects mutated in place ([buffer.logs.push], [record.managedProcess =])
        are written back into the map that holds them under the same key.
      - A method that may throw returns a [Completion]; an [async] method
        is the function from the state it starts in to its completion and
        the state it leaves. *)

From Stdlib Require Import ZArith Lia Ascii String DecimalString DecimalNat.
From stdpp Require Import base option list strings gmap.

Local Open Scope Z_scope.

(** ** JavaScript built-ins used by the sources *)

Module Js.

(** [Array.prototype.slice(start)] with an integer [start] and no [end]:
    a negative [start] counts from the end, and both are clamped. *)
Definition slice {A : Type} (start : Z) (l : list A) : list A :=
  let len := Z.of_nat (length l) in
  let k := if start <? 0 then Z.max (len + start) 0 else Z.min start len in
  drop (Z.to_nat k) l.

Definition LF : ascii := "010"%char.
Definition CR : ascii := "013"%char.

(** Prepend a character to the piece being scanned. *)
Definition extend (c : ascii) (pieces : list string) : list string :=
  match pieces with
  | [] => [String c EmptyString]
  | piece :: rest => String c piece :: rest
  end.

(** [data.split(/\r?\n/)]: the separators are the leftmost matches of
    the pattern, so a CR directly before an LF belongs to the separator
    and any other CR stays in its piece. *)
Fixpoint split (data : string) : list string :=
  match data with
  | EmptyString => [EmptyString]
  | String c rest =>
      if Ascii.eqb c LF then EmptyString :: split rest
      else
        match rest with
        | String c' rest' =>
            if Ascii.eqb c CR && Ascii.eqb c' LF
            then EmptyString :: split rest'
            else extend c (split rest)
        | EmptyString => extend c (split rest)
        end
  end.

(** [`${n}`] for a non-negative integer. *)
Definition showNat (n : nat) : string :=
  NilEmpty.string_of_uint (Nat.to_uint n).

(** [`${z}`] for an integer. *)
Definition showInt (z : Z) : string :=
  if z <? 0 then "-" +:+ showNat (Z.to_nat (- z)) else showNat (Z.to_nat z).

End Js.

(** ** [src/models/LogData.ts] *)

Module LogData.

Inductive LogType := stdout | stderr.

Record LogEntry := {
  type : LogType;
  line : string;
  timestamp : Z;
}.

Record LogData := {
  logs : list LogEntry;
  lastUpdated : Z;
}.

End LogData.

(** ** [src/services/ConfigProvider.ts] *)

Module ConfigProvider.

Record Config := {
  maxLogLinesPerProcesses : Z;
  maxConcurrentProcesses : Z;
  processTerminationTimeoutMs : Z;
  loggingEnabled : option bool;
}.

Definition getMaxLogLinesPerProcesses (config : Config) : Z :=
  maxLogLinesPerProcesses config.

Definition getMaxConcurrentProcesses (config : Config) : Z :=
  maxConcurrentProcesses config.

Definition getProcessTerminationTimeoutMs (config : Config) : Z :=
  processTerminationTimeoutMs config.

(** [loadConfig()] *)
Definition loadConfig : Config :=
  {| maxConcurrentProcesses := 20;
     maxLogLinesPerProcesses := 200;
     processTerminationTimeoutMs := 5000;
     loggingEnabled := None |}.

End ConfigProvider.

(** ** [src/services/ProcessLogBuffer.ts] *)

Module ProcessLogBuffer.
Import LogData.

Record LogBufferElement := {
  logs : list LogEntry;
  lastUpdated : Z;
}.

Record ProcessLogBufferImpl := {
  buffers : gmap string LogBufferElement;
  maxLines : Z;
}.

(** The constructor reads the ceiling from the configuration once. *)
Definition create (configService : ConfigProvider.Config) : ProcessLogBufferImpl :=
  {| buffers := ∅;
     maxLines := ConfigProvider.getMaxLogLinesPerProcesses configService |}.

Definition parseLines (data : string) : list string :=
  match data with
  | EmptyString => []
  | _ => filter (fun line => (0 < String.length line)%nat) (Js.split data)
  end.

Definition getOrCreateBuffer (now : Z) (processId : string)
    (this : ProcessLogBufferImpl) : LogBufferElement * ProcessLogBufferImpl :=
  match buffers this !! processId with
  | Some buffer => (buffer, this)
  | None =>
      let buffer := {| logs := []; lastUpdated := now |} in
      (buffer,
       {| buffers := <[processId := buffer]> (buffers this);
          maxLines := maxLines this |})
  end.

Definition enforceBufferLimits (this : ProcessLogBufferImpl)
    (buffer : LogBufferElement) : LogBufferElement :=
  if Z.of_nat (length (logs buffer)) >? maxLines this
  then {| logs := Js.slice (- maxLines this) (logs buffer);
          lastUpdated := lastUpdated buffer |}
  else buffer.

(** The bodies of [appendStdout] and [appendStderr] differ in the tag
    only; [append] is that body with the tag as a parameter. *)
Definition append (tag : LogType) (now : Z) (processId data : string)
    (this : ProcessLogBufferImpl) : ProcessLogBufferImpl :=
  let '(buffer, this) := getOrCreateBuffer now processId this in
  let lines := parseLines data in
  if decide (0 < length lines)%nat then
    let timestamp := now in
    let entries :=
      map (fun line => {| type := tag; line := line; timestamp := timestamp |}) lines in
    let buffer := {| logs := logs buffer ++ entries; lastUpdated := lastUpdated buffer |} in
    let buffer := enforceBufferLimits this buffer in
    let buffer := {| logs := logs buffer; lastUpdated := timestamp |} in
    {| buffers := <[processId := buffer]> (buffers this); maxLines := maxLines this |}
  else this.

Definition appendStdout : Z -> string -> string -> ProcessLogBufferImpl -> ProcessLogBufferImpl :=
  append stdout.

Definition appendStderr : Z -> string -> string -> ProcessLogBufferImpl -> ProcessLogBufferImpl :=
  append stderr.

Definition getLatestLogs (now : Z) (processId : string) (lines : option Z)
    (this : ProcessLogBufferImpl) : LogData :=
  match buffers this !! processId with
  | None => {| LogData.logs := []; LogData.lastUpdated := now |}
  | Some buffer =>
      let logs' :=
        match lines with
        | Some n => if 0 <? n then Js.slice (- n) (logs buffer) else logs buffer
        | None => logs buffer
        end in
      {| LogData.logs := logs'; LogData.lastUpdated := lastUpdated buffer |}
  end.

Definition clearLogs (processId : string) (this : ProcessLogBufferImpl)
    : ProcessLogBufferImpl :=
  {| buffers := delete processId (buffers this); maxLines := maxLines this |}.

End ProcessLogBuffer.

(** ** [src/models/errors.ts] and JavaScript exceptions *)

Module errors.

Inductive ErrorType :=
| INVALID_COMMAND
| DIRECTORY_NOT_FOUND
| PROCESS_NOT_FOUND
| SPAWN_FAILED
| TERMINATION_FAILED
| PERMISSION_DENIED
| VALIDATION_ERROR
| TIMEOUT_ERROR
| RESOURCE_EXHAUSTED
| INTERNAL_ERROR
| CONCURRENT_ACCESS.

(** The string value of each member of the enum. *)
Definition ErrorType_value (type : ErrorType) : string :=
  match type with
  | INVALID_COMMAND => "INVALID_COMMAND"
  | DIRECTORY_NOT_FOUND => "DIRECTORY_NOT_FOUND"
  | PROCESS_NOT_FOUND => "PROCESS_NOT_FOUND"
  | SPAWN_FAILED => "SPAWN_FAILED"
  | TERMINATION_FAILED => "TERMINATION_FAILED"
  | PERMISSION_DENIED => "PERMISSION_DENIED"
  | VALIDATION_ERROR => "VALIDATION_ERROR"
  | TIMEOUT_ERROR => "TIMEOUT_ERROR"
  | RESOURCE_EXHAUSTED => "RESOURCE_EXHAUSTED"
  | INTERNAL_ERROR => "INTERNAL_ERROR"
  | CONCURRENT_ACCESS => "CONCURRENT_ACCESS"
  end.

Record ProcessError := {
  type : ErrorType;
  details : string;
  processId : option string;
}.

(** [super(`${type}: ${details}`)] *)
Definition message (e : ProcessError) : string :=
  ErrorType_value (type e) +:+ ": " +:+ details e.

End errors.

(** A value that a [throw] carries: an [Error] with its message, a
    [ProcessError] (which is an [Error] too), or any other value, kept as
    the text [String(value)] gives. *)
Inductive Thrown :=
| JsError (message : string)
| ProcessErr (e : errors.ProcessError)
| NonError (text : string).

(** [error instanceof Error ? error.message : String(error)] *)
Definition errorText (err : Thrown) : string :=
  match err with
  | JsError message => message
  | ProcessErr e => errors.message e
  | NonError text => text
  end.

Inductive Completion (A : Type) :=
| Return (a : A)
| Throw (err : Thrown).
Arguments Return {A} a.
Arguments Throw {A} err.

(** ** [src/models/ManagedProcess.ts] *)

Inductive ProcessStatus := running | stopped | error.

#[global] Instance ProcessStatus_eq_dec : EqDecision ProcessStatus.
Proof. solve_decision. Defined.

Module ManagedProcess.

Record ManagedProcess := {
  id : string;
  pid : Z;
  command : string;
  args : list string;
  cwd : string;
  status : ProcessStatus;
  startTime : Z;
  endTime : option Z;
  exitCode : option Z;
}.

End ManagedProcess.

Abbreviation ManagedProcess := ManagedProcess.ManagedProcess.

(** ** [src/services/ProcessController.ts] *)

Module ProcessController.

Record ProcessSpawnConfig := {
  command : string;
  args : option (list string);
  cwd : option string;
  env : option (list (string * string));
}.

(** Of [ProcessSpawnResult] the data is the pid; its four registration
    functions are accounted for by the supervisor's handler table. *)
Record ProcessSpawnResult := {
  pid : Z;
}.

(** The interface [ProcessController], over the controller's own state.
    An omitted optional argument is [None]. *)
Class ProcessController (C : Type) := {
  spawn : ProcessSpawnConfig -> C -> Completion ProcessSpawnResult * C;
  kill : Z -> option bool -> C -> Completion bool * C;
  waitForExit : Z -> option Z -> C -> Completion unit * C;
}.

(** The default of the [timeoutMs] parameter of [waitForExit]. *)
Definition defaultTimeoutMs : Z := 5000.

(** The bound [waitForExit(pid, timeoutMs = 5000)] waits for. *)
Definition effectiveTimeoutMs (timeoutMs : option Z) : Z :=
  default defaultTimeoutMs timeoutMs.

(** The calls a client makes on a controller. *)
Inductive Call :=
| CallSpawn (config : ProcessSpawnConfig)
| CallKill (pid : Z) (force : option bool)
| CallWaitForExit (pid : Z) (timeoutMs : option Z).

End ProcessController.

(** [ProcessControllerImpl.kill], over the table of live handles.  Node's
    [childProcess.kill(signal)] is a parameter: it answers whether the
    signal was delivered, or throws. *)
Module ProcessControllerImpl.

Inductive Signal := SIGTERM | SIGKILL.

Section Kill.
Context {ChildProcess : Type}.
Variable childProcessKill :
  Signal -> ChildProcess -> Completion bool * ChildProcess.

Definition kill (pid : Z) (force : option bool)
    (processes : gmap Z ChildProcess) : Completion bool * gmap Z ChildProcess :=
  match processes !! pid with
  | None => (Return false, processes)
  | Some childProcess =>
      let signal := if default false force then SIGKILL else SIGTERM in
      let '(delivered, childProcess) := childProcessKill signal childProcess in
      (delivered, <[pid := childProcess]> processes)
  end.
End Kill.

End ProcessControllerImpl.

(** ** [test/mocks/MockProcessController.ts] *)

Module MockProcessController.
Import ProcessController.

Record MockProcess := {
  config : ProcessSpawnConfig;
  exitCode : option Z;
}.

Record MockProcessController := {
  processes : gmap Z MockProcess;
  nextPid : Z;
}.

Definition create : MockProcessController :=
  {| processes := ∅; nextPid := 1000 |}.

Definition spawn (config : ProcessSpawnConfig) (this : MockProcessController)
    : Completion ProcessSpawnResult * MockProcessController :=
  let pid := nextPid this in
  (Return {| pid := pid |},
   {| processes := <[pid := {| config := config; exitCode := None |}]> (processes this);
      nextPid := nextPid this + 1 |}).

Definition kill (pid : Z) (force : option bool) (this : MockProcessController)
    : Completion bool * MockProcessController :=
  match processes this !! pid with
  | None => (Return false, this)
  | Some process =>
      let process :=
        {| config := config process;
           exitCode := Some (if default false force then 9 else 0) |} in
      (Return true,
       {| processes := <[pid := process]> (processes this); nextPid := nextPid this |})
  end.

Definition waitForExit (pid : Z) (_timeoutMs : option Z) (this : MockProcessController)
    : Completion unit * MockProcessController :=
  match processes this !! pid with
  | None => (Throw (JsError ("Process " +:+ Js.showInt pid +:+ " not found")), this)
  | Some process =>
      let process := {| config := config process; exitCode := Some 0 |} in
      (Return tt,
       {| processes := <[pid := process]> (processes this); nextPid := nextPid this |})
  end.

(** The test helper [clear()]. *)
Definition clear (this : MockProcessController) : MockProcessController :=
  {| processes := ∅; nextPid := nextPid this |}.

#[global] Instance controller : ProcessController MockProcessController :=
  {| ProcessController.spawn := spawn;
     ProcessController.kill := kill;
     ProcessController.waitForExit := waitForExit |}.

End MockProcessController.

(** ** A JavaScript [Map] with string keys

    Entries are kept in insertion order, which is the order [values()]
    iterates in: [set] on a present key replaces the value in place, [set]
    on an absent key appends, [delete] leaves no entry for the key. *)

Module JsMap.

Section WithValue.
Context {V : Type}.

Fixpoint get (key : string) (m : list (string * V)) : option V :=
  match m with
  | [] => None
  | (k, v) :: m' => if decide (k = key) then Some v else get key m'
  end.

Fixpoint set (key : string) (value : V) (m : list (string * V)) : list (string * V) :=
  match m with
  | [] => [(key, value)]
  | (k, v) :: m' =>
      if decide (k = key) then (k, value) :: m' else (k, v) :: set key value m'
  end.

Fixpoint delete (key : string) (m : list (string * V)) : list (string * V) :=
  match m with
  | [] => []
  | (k, v) :: m' =>
      if decide (k = key) then delete key m' else (k, v) :: delete key m'
  end.

Definition keys (m : list (string * V)) : list string := map fst m.

Definition values (m : list (string * V)) : list V := map snd m.
End WithValue.

End JsMap.

(** ** What an operation reads from its surroundings

    [now] is the reading of the clock ([new Date()]), [processCwd] is
    [process.cwd()], and the two [fs] functions answer for the file
    system: [statSync] gives the [isDirectory()] flag of the result, or
    throws. *)

Record Env := {
  now : Z;
  processCwd : string;
  existsSync : string -> bool;
  statSync : string -> Completion bool;
}.

(** ** [src/services/BgProcessManager.ts] *)

Module BgProcessManager.
Import ProcessController.
Module MP := ManagedProcess.

(** The [config] argument of [startProcess]. *)
Record StartConfig := {
  command : string;
  args : option (list string);
  cwd : option string;
  env : option (list (string * string));
}.

Record ProcessRecord := {
  managedProcess : ManagedProcess;
  spawnResult : ProcessSpawnResult;
}.

(** The fields of the class, and three records of what happened so far:
    [calls] lists the calls made on the injected controller, oldest
    first; [uuids] counts the calls of [uuidv4()]; [handlers] lists the
    ids whose event handlers [setupEventHandlers] registered. *)
Record BgProcessManagerImpl (C : Type) := {
  processes : list (string * ProcessRecord);
  logBuffer : ProcessLogBuffer.ProcessLogBufferImpl;
  processController : C;
  calls : list Call;
  uuids : nat;
  handlers : list string;
}.
Arguments processes {C} _.
Arguments logBuffer {C} _.
Arguments processController {C} _.
Arguments calls {C} _.
Arguments uuids {C} _.
Arguments handlers {C} _.

(** The events a handle reports to the registered handlers. *)
Inductive Event :=
| Stdout (data : string)
| Stderr (data : string)
| Exit (code : option Z)
| Error (message : string).

Section Impl.
Context {C : Type} `{!ProcessController C}.

(** [uuidv4()]: the value the [n]-th call returns, counting from 0. *)
Variable uuidv4 : nat -> string.

(** Methods run in a state-and-exception monad over the object. *)
Definition M (A : Type) : Type :=
  BgProcessManagerImpl C -> Completion A * BgProcessManagerImpl C.

Definition ret {A} (a : A) : M A := fun this => (Return a, this).

Definition throw {A} (err : Thrown) : M A := fun this => (Throw err, this).

Definition bind {A B} (m : M A) (k : A -> M B) : M B :=
  fun this =>
    match m this with
    | (Return a, this') => k a this'
    | (Throw err, this') => (Throw err, this')
    end.

Definition tryCatch {A} (body : M A) (handler : Thrown -> M A) : M A :=
  fun this =>
    match body this with
    | (Return a, this') => (Return a, this')
    | (Throw err, this') => handler err this'
    end.

Notation "x <- m ;; k" := (bind m (fun x => k))
  (at level 100, m at next level, right associativity).
Notation "m ;;; k" := (bind m (fun _ => k))
  (at level 100, right associativity).

Definition setProcesses (processes' : list (string * ProcessRecord)) : M unit :=
  fun this =>
    (Return tt,
     {| processes := processes'; logBuffer := logBuffer this;
        processController := processController this; calls := calls this;
        uuids := uuids this; handlers := handlers this |}).

Definition setLogBuffer (logBuffer' : ProcessLogBuffer.ProcessLogBufferImpl) : M unit :=
  fun this =>
    (Return tt,
     {| processes := processes this; logBuffer := logBuffer';
        processController := processController this; calls := calls this;
        uuids := uuids this; handlers := handlers this |}).

(** A call on the controller: the controller answers and moves on, and
    the call is recorded. *)
Definition call {A} (what : Call) (method : C -> Completion A * C) : M A :=
  fun this =>
    let '(answer, controller) := method (processController this) in
    (answer,
     {| processes := processes this; logBuffer := logBuffer this;
        processController := controller; calls := calls this ++ [what];
        uuids := uuids this; handlers := handlers this |}).

Definition generateProcessId : M string :=
  fun this =>
    (Return (uuidv4 (uuids this)),
     {| processes := processes this; logBuffer := logBuffer this;
        processController := processController this; calls := calls this;
        uuids := S (uuids this); handlers := handlers this |}).

Definition validateDirectory (sys : Env) (dirPath : string) : bool :=
  if negb (existsSync sys dirPath) then false
  else
    match statSync sys dirPath with
    | Return isDirectory => isDirectory
    | Throw _ => false
    end.

Definition updateProcessStatus (sys : Env) (processId : string)
    (status : ProcessStatus) (exitCode : option Z) : M unit :=
  fun this =>
    match JsMap.get processId (processes this) with
    | None => (Return tt, this)
    | Some record =>
        let managedProcess :=
          {| MP.id := MP.id (managedProcess record);
             MP.pid := MP.pid (managedProcess record);
             MP.command := MP.command (managedProcess record);
             MP.args := MP.args (managedProcess record);
             MP.cwd := MP.cwd (managedProcess record);
             MP.startTime := MP.startTime (managedProcess record);
             MP.status := status;
             MP.exitCode := exitCode;
             MP.endTime :=
               if decide (status <> running) then Some (now sys) else None |} in
        setProcesses
          (JsMap.set processId
             {| managedProcess := managedProcess; spawnResult := spawnResult record |}
             (processes this))
          this
    end.

(** The four callbacks [setupEventHandlers] registers for [processId]. *)
Definition onStdout (sys : Env) (processId data : string) : M unit :=
  fun this =>
    setLogBuffer (ProcessLogBuffer.appendStdout (now sys) processId data (logBuffer this)) this.

Definition onStderr (sys : Env) (processId data : string) : M unit :=
  fun this =>
    setLogBuffer (ProcessLogBuffer.appendStderr (now sys) processId data (logBuffer this)) this.

Definition onExit (sys : Env) (processId : string) (code : option Z) : M unit :=
  let status := if decide (code = Some 0) then stopped else error in
  updateProcessStatus sys processId status code.

Definition onError (sys : Env) (processId : string) (message : string) : M unit :=
  onStderr sys processId ("Process error: " +:+ message +:+ String Js.LF "") ;;;
  updateProcessStatus sys processId error None.

(** [setupEventHandlers] hands the four callbacks above to the
    registration functions of the spawn result.  Registering stores the
    callback and does not throw; what it leaves behind is that [processId]
    now has handlers. *)
Definition setupEventHandlers (processId : string) (spawnResult : ProcessSpawnResult)
    : M unit :=
  fun this =>
    (Return tt,
     {| processes := processes this; logBuffer := logBuffer this;
        processController := processController this; calls := calls this;
        uuids := uuids this; handlers := handlers this ++ [processId] |}).

Definition startProcess (sys : Env) (config : StartConfig) : M ManagedProcess :=
  let args := default [] (args config) in
  let cwd := default (processCwd sys) (cwd config) in
  if negb (validateDirectory sys cwd) then
    throw (ProcessErr
             {| errors.type := errors.DIRECTORY_NOT_FOUND;
                errors.details := "Directory not found: " +:+ cwd;
                errors.processId := None |})
  else
    processId <- generateProcessId ;;
    tryCatch
      (let spawnConfig :=
         {| ProcessController.command := command config;
            ProcessController.args := Some args;
            ProcessController.cwd := Some cwd;
            ProcessController.env := env config |} in
       spawnResult <- call (CallSpawn spawnConfig) (spawn spawnConfig) ;;
       let managedProcess :=
         {| MP.id := processId;
            MP.pid := pid spawnResult;
            MP.command := command config;
            MP.args := args;
            MP.cwd := cwd;
            MP.status := running;
            MP.startTime := now sys;
            MP.endTime := None;
            MP.exitCode := None |} in
       (fun this =>
          setProcesses
            (JsMap.set processId
               {| managedProcess := managedProcess; spawnResult := spawnResult |}
               (processes this))
            this) ;;;
       setupEventHandlers processId spawnResult ;;;
       ret managedProcess)
      (fun err =>
         throw (ProcessErr
                  {| errors.type := errors.SPAWN_FAILED;
                     errors.details := "Failed to spawn process: " +:+ errorText err;
                     errors.processId := None |})).

Definition stopProcess (sys : Env) (processId : string) : M unit :=
  fun this =>
    match JsMap.get processId (processes this) with
    | None =>
        throw (ProcessErr
                 {| errors.type := errors.PROCESS_NOT_FOUND;
                    errors.details := "Process not found: " +:+ processId;
                    errors.processId := None |})
          this
    | Some record =>
        if decide (MP.status (managedProcess record) <> running) then ret tt this
        else
          let pid := MP.pid (managedProcess record) in
          tryCatch
            (killed <- call (CallKill pid None) (kill pid None) ;;
             (if negb killed
              then call (CallKill pid (Some true)) (kill pid (Some true)) ;;; ret tt
              else ret tt) ;;;
             call (CallWaitForExit pid None) (waitForExit pid None))
            (fun err =>
               updateProcessStatus sys processId error None ;;;
               throw (ProcessErr
                        {| errors.type := errors.TERMINATION_FAILED;
                           errors.details := "Failed to stop process: " +:+ errorText err;
                           errors.processId := Some processId |}))
            this
    end.

Definition restartProcess (sys : Env) (processId : string) : M string :=
  fun this =>
    match JsMap.get processId (processes this) with
    | None =>
        throw (ProcessErr
                 {| errors.type := errors.PROCESS_NOT_FOUND;
                    errors.details := "Process not found: " +:+ processId;
                    errors.processId := None |})
          this
    | Some record =>
        let config :=
          {| command := MP.command (managedProcess record);
             args := Some (MP.args (managedProcess record));
             cwd := Some (MP.cwd (managedProcess record));
             env := None |} in
        ((if decide (MP.status (managedProcess record) = running)
          then stopProcess sys processId
          else ret tt) ;;;
         (fun this => setProcesses (JsMap.delete processId (processes this)) this) ;;;
         (fun this =>
            setLogBuffer (ProcessLogBuffer.clearLogs processId (logBuffer this)) this) ;;;
         newProcess <- startProcess sys config ;;
         ret (MP.id newProcess))
          this
    end.

(** [Promise.allSettled] over the [stopProcess] calls: each one is run,
    and whether it returned or threw is dropped, never rethrown.  The
    stops are run one after the other in the order of the list, which is
    the order in which they make their first call on the controller; that
    their waits overlap in time is not part of the model. *)
Fixpoint allSettled (stops : list (M unit)) : M unit :=
  match stops with
  | [] => ret tt
  | stop :: rest => tryCatch stop (fun _ => ret tt) ;;; allSettled rest
  end.

Definition isRunning (managedProcess : ManagedProcess) : bool :=
  bool_decide (MP.status managedProcess = running).

Definition stopAllProcesses (sys : Env) : M unit :=
  fun this =>
    let runningProcesses :=
      map (fun r => MP.id (managedProcess r))
        (List.filter (fun r => isRunning (managedProcess r))
           (JsMap.values (processes this))) in
    let stopPromises := map (fun id => stopProcess sys id) runningProcesses in
    allSettled stopPromises this.

Definition listProcesses : M (list ManagedProcess) :=
  fun this => ret (map managedProcess (JsMap.values (processes this))) this.

Definition getProcessInfo (processId : string) : M (option ManagedProcess) :=
  fun this => ret (managedProcess <$> JsMap.get processId (processes this)) this.

Definition getProcessLogs (sys : Env) (processId : string) (lines : option Z)
    : M (option LogData.LogData) :=
  fun this =>
    match JsMap.get processId (processes this) with
    | None => ret None this
    | Some _ =>
        let logData :=
          ProcessLogBuffer.getLatestLogs (now sys) processId lines (logBuffer this) in
        ret (Some {| LogData.logs := LogData.logs logData;
                     LogData.lastUpdated := LogData.lastUpdated logData |}) this
    end.

End Impl.
Arguments M : clear implicits.

Notation "x <- m ;; k" := (bind m (fun x => k))
  (at level 100, m at next level, right associativity).
Notation "m ;;; k" := (bind m (fun _ => k))
  (at level 100, right associativity).

(** *** The supervisor as a transition system

    What can happen to a supervisor: a client calls one of its
    operations, or a handle reports an event to the handlers registered
    for an id.  Each step comes with the surroundings it runs in.  An
    operation is one step: events reach the handlers between operations,
    not while an operation awaits. *)

Inductive Action :=
| Start (config : StartConfig)
| Stop (processId : string)
| Restart (processId : string)
| StopAll
| Emit (processId : string) (event : Event).

Section Run.
Context {C : Type} `{!ProcessController C}.
Variable uuidv4 : nat -> string.

(** [new BgProcessManagerImpl(logBuffer, processController)] *)
Definition create (logBuffer : ProcessLogBuffer.ProcessLogBufferImpl)
    (processController : C) : BgProcessManagerImpl C :=
  {| processes := []; logBuffer := logBuffer;
     processController := processController;
     calls := []; uuids := 0%nat; handlers := [] |}.

Definition deliver (sys : Env) (processId : string) (event : Event) : M C unit :=
  match event with
  | Stdout data => onStdout sys processId data
  | Stderr data => onStderr sys processId data
  | Exit code => onExit sys processId code
  | Error message => onError sys processId message
  end.

Definition step (sys : Env) (action : Action) (this : BgProcessManagerImpl C)
    : BgProcessManagerImpl C :=
  match action with
  | Start config => snd (startProcess uuidv4 sys config this)
  | Stop processId => snd (stopProcess sys processId this)
  | Restart processId => snd (restartProcess uuidv4 sys processId this)
  | StopAll => snd (stopAllProcesses sys this)
  | Emit processId event =>
      if decide (processId ∈ handlers this)
      then snd (deliver sys processId event this)
      else this
  end.

Fixpoint run (trace : list (Env * Action)) (this : BgProcessManagerImpl C)
    : BgProcessManagerImpl C :=
  match trace with
  | [] => this
  | (sys, action) :: rest => run rest (step sys action this)
  end.

Definition reachable (this : BgProcessManagerImpl C) : Prop :=
  exists logBuffer processController trace,
    this = run trace (create logBuffer processController).
End Run.

End BgProcessManager.

(** ** [src/services/tools/StopAllHandler.ts] *)

Module StopAllHandler.
Import ProcessController BgProcessManager.

Record StoppedProcess := {
  id : string;
  command : string;
  args : list string;
}.

(** The object [handle] serialises as its reply. *)
Record Reply := {
  success : bool;
  message : option string;
  stoppedCount : option nat;
  stoppedProcesses : option (list StoppedProcess);
  error : option string;
}.

Section Handle.
Context {C : Type} `{!ProcessController C}.

Definition handle (sys : Env) (processManager : BgProcessManagerImpl C)
    : Reply * BgProcessManagerImpl C :=
  let body : M C Reply :=
    processes <- listProcesses ;;
    let runningProcesses := List.filter isRunning processes in
    let runningCount := length runningProcesses in
    if decide (runningCount = 0%nat) then
      ret {| success := true;
             message := Some "No running processes to stop";
             stoppedCount := Some 0%nat;
             stoppedProcesses := None;
             error := None |}
    else
      stopAllProcesses sys ;;;
      ret {| success := true;
             message :=
               Some ("Successfully stopped " +:+ Js.showNat runningCount
                     +:+ " process(es)");
             stoppedCount := Some runningCount;
             stoppedProcesses :=
               Some (map (fun p => {| id := ManagedProcess.id p;
                                      command := ManagedProcess.command p;
                                      args := ManagedProcess.args p |})
                         runningProcesses);
             error := None |} in
  match body processManager with
  | (Return reply, processManager') => (reply, processManager')
  | (Throw err, processManager') =>
      ({| success := false; message := None; stoppedCount := None;
          stoppedProcesses := None; error := Some (errorText err) |},
       processManager')
  end.
End Handle.

End StopAllHandler.

(** ** [src/models/errors.ts]: what a [ProcessError] tells the user *)

Module ProcessErrorMessages.
Import errors.

(** [getUserMessage()] *)
Definition getUserMessage (this : ProcessError) : string :=
  match type this with
  | INVALID_COMMAND => "Invalid command: " +:+ details this
  | DIRECTORY_NOT_FOUND => "Specified directory does not exist: " +:+ details this
  | PROCESS_NOT_FOUND => "Process not found: " +:+ details this
  | SPAWN_FAILED => "Failed to start process: " +:+ details this
  | TERMINATION_FAILED => "Failed to terminate process: " +:+ details this
  | PERMISSION_DENIED => "Insufficient permissions: " +:+ details this
  | VALIDATION_ERROR => "Invalid input value: " +:+ details this
  | TIMEOUT_ERROR => "Operation timed out: " +:+ details this
  | RESOURCE_EXHAUSTED => "Resources exhausted: " +:+ details this
  | INTERNAL_ERROR => "Internal error occurred: " +:+ details this
  | CONCURRENT_ACCESS => "Concurrent access error occurred: " +:+ details this
  end.

End ProcessErrorMessages.

(** ** [src/services/ConfigProvider.ts] and [src/services/Logging.ts] *)

Module Logging.

(** [ConfigProviderImpl.isLoggingEnabled()]; [nodeEnv] is
    [process.env.NODE_ENV], which may be unset. *)
Definition isLoggingEnabled (config : ConfigProvider.Config) (nodeEnv : option string)
    : bool :=
  match ConfigProvider.loggingEnabled config with
  | Some enabled => enabled
  | None => negb (bool_decide (nodeEnv = Some "test"))
  end.

(** A call on the console: the method and its arguments. *)
Inductive ConsoleCall (Unknown : Type) :=
| ConsoleLog (text : string) (args : list Unknown)
| ConsoleWarn (text : string)
| ConsoleError (text : string) (error : option Unknown).
Arguments ConsoleLog {Unknown} text args.
Arguments ConsoleWarn {Unknown} text.
Arguments ConsoleError {Unknown} text error.

Record LoggingImpl := {
  enabled : bool;
}.

(** The constructor asks the configuration once. *)
Definition create (configProvider : ConfigProvider.Config) (nodeEnv : option string)
    : LoggingImpl :=
  {| enabled := isLoggingEnabled configProvider nodeEnv |}.

Section Methods.
Context {Unknown : Type}.

(** Each method takes the calls made on the console so far, oldest
    first, and returns them with its own. *)
Definition debug (this : LoggingImpl) (message : string) (args : list Unknown)
    (console : list (ConsoleCall Unknown)) : list (ConsoleCall Unknown) :=
  if enabled this then console ++ [ConsoleLog ("[DEBUG] " +:+ message) args]
  else console.

Definition info (this : LoggingImpl) (message : string)
    (console : list (ConsoleCall Unknown)) : list (ConsoleCall Unknown) :=
  if enabled this then console ++ [ConsoleLog ("[INFO] " +:+ message) []]
  else console.

Definition warn (this : LoggingImpl) (message : string)
    (console : list (ConsoleCall Unknown)) : list (ConsoleCall Unknown) :=
  if enabled this then console ++ [ConsoleWarn ("[WARN] " +:+ message)]
  else console.

Definition error (this : LoggingImpl) (message : string) (error : option Unknown)
    (console : list (ConsoleCall Unknown)) : list (ConsoleCall Unknown) :=
  if enabled this then
    match error with
    | Some value => console ++ [ConsoleError ("[ERROR] " +:+ message) (Some value)]
    | None => console ++ [ConsoleError ("[ERROR] " +:+ message) None]
    end
  else console.
End Methods.

End Logging.

(** ** The tool handlers of [src/services/tools/]

    Each [handle] returns the object it serialises with [JSON.stringify];
    the object is the reply here, with its [Date]s as clock readings.  An
    object with [success: true] is [Succeeded] with the other fields, one
    with [success: false] is [Failed] with its [error]. *)

Inductive ToolReply (A : Type) :=
| Succeeded (data : A)
| Failed (error : string).
Arguments Succeeded {A} data.
Arguments Failed {A} error.

Module StartHandler.
Import ProcessController BgProcessManager.

Record StartToolArgs := {
  command : string;
  args : option (list string);
  cwd : option string;
  env : option (list (string * string));
}.

Record Started := {
  processId : string;
  pid : Z;
  startedCommand : string;
  startedArgs : list string;
  startedCwd : string;
  status : ProcessStatus;
  startTime : Z;
}.

Section Handle.
Context {C : Type} `{!ProcessController C}.
Variable uuidv4 : nat -> string.

Definition handle (sys : Env) (toolArgs : StartToolArgs)
    (processManager : BgProcessManagerImpl C)
    : ToolReply Started * BgProcessManagerImpl C :=
  let config :=
    {| BgProcessManager.command := command toolArgs;
       BgProcessManager.args := Some (default [] (args toolArgs));
       BgProcessManager.cwd := cwd toolArgs;
       BgProcessManager.env := env toolArgs |} in
  match startProcess uuidv4 sys config processManager with
  | (Return process, processManager') =>
      (Succeeded {| processId := ManagedProcess.id process;
                    pid := ManagedProcess.pid process;
                    startedCommand := ManagedProcess.command process;
                    startedArgs := ManagedProcess.args process;
                    startedCwd := ManagedProcess.cwd process;
                    status := ManagedProcess.status process;
                    startTime := ManagedProcess.startTime process |},
       processManager')
  | (Throw err, processManager') => (Failed (errorText err), processManager')
  end.
End Handle.

End StartHandler.

Module StopHandler.
Import ProcessController BgProcessManager.

Record Stopped := {
  processId : string;
  message : string;
}.

Section Handle.
Context {C : Type} `{!ProcessController C}.

Definition handle (sys : Env) (processId : string)
    (processManager : BgProcessManagerImpl C)
    : ToolReply Stopped * BgProcessManagerImpl C :=
  match stopProcess sys processId processManager with
  | (Return _, processManager') =>
      (Succeeded {| processId := processId;
                    message := "Process stopped successfully" |},
       processManager')
  | (Throw err, processManager') => (Failed (errorText err), processManager')
  end.
End Handle.

End StopHandler.

Module RestartHandler.
Import ProcessController BgProcessManager.

Record Restarted := {
  originalProcessId : string;
  newProcessId : string;
  message : string;
}.

Section Handle.
Context {C : Type} `{!ProcessController C}.
Variable uuidv4 : nat -> string.

Definition handle (sys : Env) (processId : string)
    (processManager : BgProcessManagerImpl C)
    : ToolReply Restarted * BgProcessManagerImpl C :=
  match restartProcess uuidv4 sys processId processManager with
  | (Return newProcessId, processManager') =>
      (Succeeded {| originalProcessId := processId;
                    newProcessId := newProcessId;
                    message := "Process restarted successfully" |},
       processManager')
  | (Throw err, processManager') => (Failed (errorText err), processManager')
  end.
End Handle.

End RestartHandler.

Module ListHandler.
Import ProcessController BgProcessManager.

Record Listed := {
  message : option string;
  processes : list ManagedProcess;
  count : nat;
}.

Section Handle.
Context {C : Type} `{!ProcessController C}.

Definition handle (processManager : BgProcessManagerImpl C)
    : ToolReply Listed * BgProcessManagerImpl C :=
  match listProcesses processManager with
  | (Return processes, processManager') =>
      if decide (length processes = 0%nat) then
        (Succeeded {| message := Some "No processes currently running";
                      processes := [];
                      count := 0 |},
         processManager')
      else
        (Succeeded {| message := None;
                      processes := processes;
                      count := length processes |},
         processManager')
  | (Throw err, processManager') => (Failed (errorText err), processManager')
  end.
End Handle.

End ListHandler.

Module GetInfoHandler.
Import ProcessController BgProcessManager.

Section Handle.
Context {C : Type} `{!ProcessController C}.

(** The [process] of the reply has every field of the record. *)
Definition handle (processId : string) (processManager : BgProcessManagerImpl C)
    : ToolReply ManagedProcess * BgProcessManagerImpl C :=
  match getProcessInfo processId processManager with
  | (Return None, processManager') =>
      (Failed ("Process not found: " +:+ processId), processManager')
  | (Return (Some processInfo), processManager') =>
      (Succeeded
         {| ManagedProcess.id := ManagedProcess.id processInfo;
            ManagedProcess.pid := ManagedProcess.pid processInfo;
            ManagedProcess.command := ManagedProcess.command processInfo;
            ManagedProcess.args := ManagedProcess.args processInfo;
            ManagedProcess.cwd := ManagedProcess.cwd processInfo;
            ManagedProcess.status := ManagedProcess.status processInfo;
            ManagedProcess.startTime := ManagedProcess.startTime processInfo;
            ManagedProcess.endTime := ManagedProcess.endTime processInfo;
            ManagedProcess.exitCode := ManagedProcess.exitCode processInfo |},
       processManager')
  | (Throw err, processManager') => (Failed (errorText err), processManager')
  end.
End Handle.

End GetInfoHandler.

Module GetLogsHandler.
Import ProcessController BgProcessManager.

(** [lines] is a whole number here, as it is for [getProcessLogs] and
    [getLatestLogs]; the schema of the tool admits any number, and what
    [slice] makes of one that is not whole is not part of the model. *)
Record GetLogsToolArgs := {
  processId : string;
  lines : option Z;
}.

Record Logs := {
  lastUpdated : Z;
  totalLines : nat;
  stdout : list string;
  stderr : list string;
}.

Record Got := {
  gotProcessId : string;
  logs : Logs;
}.

Definition isStdout (entry : LogData.LogEntry) : bool :=
  match LogData.type entry with
  | LogData.stdout => true
  | LogData.stderr => false
  end.

Definition isStderr (entry : LogData.LogEntry) : bool :=
  match LogData.type entry with
  | LogData.stdout => false
  | LogData.stderr => true
  end.

Section Handle.
Context {C : Type} `{!ProcessController C}.

Definition handle (sys : Env) (toolArgs : GetLogsToolArgs)
    (processManager : BgProcessManagerImpl C)
    : ToolReply Got * BgProcessManagerImpl C :=
  match getProcessLogs sys (processId toolArgs) (lines toolArgs) processManager with
  | (Return None, processManager') =>
      (Failed ("Process not found: " +:+ processId toolArgs), processManager')
  | (Return (Some logData), processManager') =>
      (Succeeded
         {| gotProcessId := processId toolArgs;
            logs :=
              {| lastUpdated := LogData.lastUpdated logData;
                 totalLines := length (LogData.logs logData);
                 stdout :=
                   map LogData.line (List.filter isStdout (LogData.logs logData));
                 stderr :=
                   map LogData.line (List.filter isStderr (LogData.logs logData)) |} |},
       processManager')
  | (Throw err, processManager') => (Failed (errorText err), processManager')
  end.
End Handle.

End GetLogsHandler.

(** ** [src/services/ManageBgServer.ts] *)

Module McpServer.
Import BgProcessManager.

(** What [BgManageServer] uses of the SDK's [McpServer], over the server's
    own state: [connect(transport)] and [close()], each of which may
    throw. *)
Class McpServer (S : Type) := {
  connect : S -> Completion unit * S;
  close : S -> Completion unit * S;
}.

End McpServer.

Module ManageBgServer.
Import ProcessController BgProcessManager.
Import McpServer(McpServer).


(** The fields of the class that [start], [close] and [isServerRunning]
    use, and [console], the calls made on the console so far.  The
    injected logger is a [LoggingImpl]; [NoOpLogging], whose methods are
    empty, is the one that is not enabled. *)
Record BgManageServer (S C : Type) := {
  server : S;
  processManager : BgProcessManagerImpl C;
  logging : Logging.LoggingImpl;
  isRunning : bool;
  isClosing : bool;
  console : list (Logging.ConsoleCall Thrown);
}.
Arguments server {S C} _.
Arguments processManager {S C} _.
Arguments logging {S C} _.
Arguments isRunning {S C} _.
Arguments isClosing {S C} _.
Arguments console {S C} _.

Section Methods.
Context {S C : Type} `{!McpServer S} `{!ProcessController C}.

Definition start (this : BgManageServer S C) : Completion unit * BgManageServer S C :=
  if isRunning this then (Throw (JsError "Server is already running"), this)
  else
    let '(connected, server') := McpServer.connect (server this) in
    match connected with
    | Throw err =>
        (Throw err,
         {| server := server'; processManager := processManager this;
            logging := logging this; isRunning := isRunning this;
            isClosing := isClosing this; console := console this |})
    | Return _ =>
        (Return tt,
         {| server := server'; processManager := processManager this;
            logging := logging this; isRunning := true;
            isClosing := isClosing this;
            console :=
              Logging.info (logging this) "Server running on stdio" (console this) |})
    end.

Definition close (sys : Env) (this : BgManageServer S C)
    : Completion unit * BgManageServer S C :=
  if negb (isRunning this) || isClosing this then (Return tt, this)
  else
    let '(stopAll, processManager') := stopAllProcesses sys (processManager this) in
    let console' :=
      match stopAll with
      | Return _ => console this
      | Throw err =>
          Logging.error (logging this)
            "Error stopping processes during server shutdown:" (Some err)
            (console this)
      end in
    let '(closed, server') := McpServer.close (server this) in
    match closed with
    | Throw err =>
        (Throw err,
         {| server := server'; processManager := processManager';
            logging := logging this; isRunning := isRunning this;
            isClosing := true; console := console' |})
    | Return _ =>
        (Return tt,
         {| server := server'; processManager := processManager';
            logging := logging this; isRunning := false;
            isClosing := true; console := console' |})
    end.

Definition isServerRunning (this : BgManageServer S C) : bool := isRunning this.
End Methods.

End ManageBgServer.

(** ** [src/services/ProcessController.ts]: [ProcessControllerImpl] as a controller

    Node's [child_process] comes with the object, as [node].  Its
    [childProcessSpawn] answers what happens to a launch while [spawn]
    runs, and moves the world on; its [childProcessKill] is the one
    [ProcessControllerImpl.kill] uses. *)

Module NodeController.
Import ProcessController.

(** [haystack.includes(needle)] *)
Fixpoint includes (needle haystack : string) : bool :=
  String.prefix needle haystack
  || match haystack with
     | EmptyString => false
     | String _ rest => includes needle rest
     end.

(** [getStartError(originalError)], on the message of the error. *)
Definition getStartError (originalError : string) : Thrown :=
  if includes "ENOENT" originalError then JsError "Command not found"
  else JsError originalError.

(** What a launch comes to while [spawn] runs.  [Refused]: Node's
    [spawn] throws.  [ErrorFirst]: the child emits [error] before
    [spawn].  [Spawned]: the child emits [spawn]; then [exitCode] and
    [pid] are what the child shows when they are read, and [early] is the
    message of an [error] the child emits within the 10 ms that [spawn]
    waits afterwards, if it emits one. *)
Inductive Launch (ChildProcess : Type) :=
| Refused (thrown : Thrown)
| ErrorFirst (message : string)
| Spawned (childProcess : ChildProcess) (exitCode : option Z) (pid : option Z)
    (early : option string).
Arguments Refused {ChildProcess} thrown.
Arguments ErrorFirst {ChildProcess} message.
Arguments Spawned {ChildProcess} childProcess exitCode pid early.

Record ChildProcessModule (ChildProcess World : Type) := {
  childProcessSpawn :
    string -> list string -> option string -> option (list (string * string)) ->
    World -> Launch ChildProcess * World;
  childProcessKill :
    ProcessControllerImpl.Signal -> ChildProcess -> Completion bool * ChildProcess;
}.
Arguments childProcessSpawn {ChildProcess World} _.
Arguments childProcessKill {ChildProcess World} _.

Record ProcessControllerImpl (ChildProcess World : Type) := {
  processes : gmap Z ChildProcess;
  world : World;
  node : ChildProcessModule ChildProcess World;
}.
Arguments processes {ChildProcess World} _.
Arguments world {ChildProcess World} _.
Arguments node {ChildProcess World} _.

Section Impl.
Context {ChildProcess World : Type}.

Definition spawn (config : ProcessSpawnConfig)
    (this : ProcessControllerImpl ChildProcess World)
    : Completion ProcessSpawnResult * ProcessControllerImpl ChildProcess World :=
  let '(launch, world') :=
    childProcessSpawn (node this) (command config) (default [] (args config))
      (cwd config) (env config) (world this) in
  let this := {| processes := processes this; world := world'; node := node this |} in
  match launch with
  | Refused thrown => (Throw thrown, this)
  | ErrorFirst message => (Throw (getStartError message), this)
  | Spawned childProcess exitCode pid early =>
      if decide (exitCode = Some (-2)) then (Throw (JsError "Command not found"), this)
      else
        match exitCode with
        | Some code => (Throw (JsError ("Process exited: " +:+ Js.showInt code)), this)
        | None =>
            match pid with
            | None => (Throw (JsError "Failed to get process PID"), this)
            | Some pid =>
                let processes' := <[pid := childProcess]> (processes this) in
                match early with
                | Some message =>
                    (Throw (getStartError message),
                     {| processes := delete pid processes'; world := world';
                        node := node this |})
                | None =>
                    (Return {| ProcessController.pid := pid |},
                     {| processes := processes'; world := world';
                        node := node this |})
                end
            end
        end
  end.

Definition kill (pid : Z) (force : option bool)
    (this : ProcessControllerImpl ChildProcess World)
    : Completion bool * ProcessControllerImpl ChildProcess World :=
  let '(delivered, processes') :=
    ProcessControllerImpl.kill (childProcessKill (node this)) pid force
      (processes this) in
  (delivered,
   {| processes := processes'; world := world this; node := node this |}).

(** Every path of [waitForExit] resolves: without a handle at once, and
    with one on the child's exit, on its having exited or been killed
    already, or when the time is up. *)
Definition waitForExit (pid : Z) (timeoutMs : option Z)
    (this : ProcessControllerImpl ChildProcess World)
    : Completion unit * ProcessControllerImpl ChildProcess World :=
  (Return tt, this).

(** The [exit] listener that a [spawn] that returned leaves on the child. *)
Definition onChildExit (pid : Z) (this : ProcessControllerImpl ChildProcess World)
    : ProcessControllerImpl ChildProcess World :=
  {| processes := delete pid (processes this); world := world this;
     node := node this |}.

#[global] Instance controller
    : ProcessController (ProcessControllerImpl ChildProcess World) :=
  {| ProcessController.spawn := spawn;
     ProcessController.kill := kill;
     ProcessController.waitForExit := waitForExit |}.
End Impl.

End NodeController.

(** * Vocabulary of the statements *)

(** The [n] most recent elements of a sequence, in their order. *)
Definition lastN {A : Type} (n : nat) (l : list A) : list A :=
  drop (length l - n) l.

(** No line feed occurs in the text. *)
Fixpoint noLF (s : string) : bool :=
  match s with
  | EmptyString => true
  | String c rest => negb (Ascii.eqb c Js.LF) && noLF rest
  end.

(** The text without the carriage return it ends with, if it ends with one. *)
Fixpoint chopCR (s : string) : string :=
  match s with
  | EmptyString => EmptyString
  | String c EmptyString => if Ascii.eqb c Js.CR then EmptyString else s
  | String c rest => String c (chopCR rest)
  end.

Module Appends.
Import LogData ProcessLogBuffer.

(** One call of [appendStdout] or [appendStderr]. *)
Record Append := {
  stream : LogType;
  clock : Z;
  processId : string;
  chunk : string;
}.

Definition apply (a : Append) : ProcessLogBufferImpl -> ProcessLogBufferImpl :=
  append (stream a) (clock a) (processId a) (chunk a).

Definition applyAll (calls : list Append) (this : ProcessLogBufferImpl)
    : ProcessLogBufferImpl :=
  fold_left (fun this a => apply a this) calls this.

(** The entries a call makes of its chunk. *)
Definition entries (tag : LogType) (now : Z) (data : string) : list LogEntry :=
  map (fun line => {| type := tag; line := line; timestamp := now |}) (parseLines data).

(** All entries ever made for [pid], oldest first. *)
Definition produced (pid : string) (calls : list Append) : list LogEntry :=
  flat_map
    (fun a => if decide (processId a = pid)
              then entries (stream a) (clock a) (chunk a) else [])
    calls.

(** What [read()] returns for [pid]: all the buffer holds. *)
Definition retained (pid : string) (this : ProcessLogBufferImpl) : list LogEntry :=
  LogData.logs (getLatestLogs 0 pid None this).

(** The single-line appends [Line 1] .. [Line n] of the test suite. *)
Definition lineAppends (pid : string) (n : nat) : list Append :=
  map (fun i => {| stream := stdout; clock := Z.of_nat i; processId := pid;
                   chunk := "Line " +:+ Js.showNat i |})
      (seq 1 n).

(** The configuration the test suite uses. *)
Definition testConfig : ConfigProvider.Config :=
  {| ConfigProvider.maxLogLinesPerProcesses := 1000;
     ConfigProvider.maxConcurrentProcesses := 10;
     ConfigProvider.processTerminationTimeoutMs := 5000;
     ConfigProvider.loggingEnabled := None |}.
End Appends.

(** A controller that answers from a script: each method hands out the
    next prepared answer of its list, and throws once the list is used up.
    It stands for any controller in examples where a call must fail. *)
Module ScriptedController.
Import ProcessController.

Record ScriptedController := {
  spawnAnswers : list (Completion ProcessSpawnResult);
  killAnswers : list (Completion bool);
  waitForExitAnswers : list (Completion unit);
}.

Definition exhausted {A : Type} : Completion A := Throw (NonError "no answer left").

Definition spawn (_ : ProcessSpawnConfig) (this : ScriptedController)
    : Completion ProcessSpawnResult * ScriptedController :=
  match spawnAnswers this with
  | [] => (exhausted, this)
  | answer :: rest =>
      (answer,
       {| spawnAnswers := rest; killAnswers := killAnswers this;
          waitForExitAnswers := waitForExitAnswers this |})
  end.

Definition kill (_ : Z) (_ : option bool) (this : ScriptedController)
    : Completion bool * ScriptedController :=
  match killAnswers this with
  | [] => (exhausted, this)
  | answer :: rest =>
      (answer,
       {| spawnAnswers := spawnAnswers this; killAnswers := rest;
          waitForExitAnswers := waitForExitAnswers this |})
  end.

Definition waitForExit (_ : Z) (_ : option Z) (this : ScriptedController)
    : Completion unit * ScriptedController :=
  match waitForExitAnswers this with
  | [] => (exhausted, this)
  | answer :: rest =>
      (answer,
       {| spawnAnswers := spawnAnswers this; killAnswers := killAnswers this;
          waitForExitAnswers := rest |})
  end.

#[global] Instance controller : ProcessController ScriptedController :=
  {| ProcessController.spawn := spawn;
     ProcessController.kill := kill;
     ProcessController.waitForExit := waitForExit |}.
End ScriptedController.

Module Supervisor.
Import ProcessController BgProcessManager.
Module MP := ManagedProcess.

(** The three errors the supervisor's operations fail with. *)
Definition DirectoryNotFound (cwd : string) : Thrown :=
  ProcessErr {| errors.type := errors.DIRECTORY_NOT_FOUND;
                errors.details := "Directory not found: " +:+ cwd;
                errors.processId := None |}.

Definition SpawnFailed (cause : Thrown) : Thrown :=
  ProcessErr {| errors.type := errors.SPAWN_FAILED;
                errors.details := "Failed to spawn process: " +:+ errorText cause;
                errors.processId := None |}.

Definition ProcessNotFound (processId : string) : Thrown :=
  ProcessErr {| errors.type := errors.PROCESS_NOT_FOUND;
                errors.details := "Process not found: " +:+ processId;
                errors.processId := None |}.

Definition TerminationFailed (processId : string) (cause : Thrown) : Thrown :=
  ProcessErr {| errors.type := errors.TERMINATION_FAILED;
                errors.details := "Failed to stop process: " +:+ errorText cause;
                errors.processId := Some processId |}.

(** A record with its status, exit code and end time replaced. *)
Definition settled (record : ProcessRecord) (status : ProcessStatus)
    (exitCode endTime : option Z) : ProcessRecord :=
  {| managedProcess :=
       {| MP.id := MP.id (managedProcess record);
          MP.pid := MP.pid (managedProcess record);
          MP.command := MP.command (managedProcess record);
          MP.args := MP.args (managedProcess record);
          MP.cwd := MP.cwd (managedProcess record);
          MP.startTime := MP.startTime (managedProcess record);
          MP.status := status;
          MP.exitCode := exitCode;
          MP.endTime := endTime |};
     spawnResult := spawnResult record |}.

(** What holds of the end time and exit code of a record, by status. *)
Definition consistent (p : ManagedProcess) : Prop :=
  match MP.status p with
  | running => MP.endTime p = None /\ MP.exitCode p = None
  | stopped => is_Some (MP.endTime p) /\ MP.exitCode p = Some 0
  | error => is_Some (MP.endTime p) /\ MP.exitCode p <> Some 0
  end.

Section WithController.
Context {C : Type} `{!ProcessController C}.

(** The record map is keyed by the ids of its records, once each. *)
Definition wellFormed (this : BgProcessManagerImpl C) : Prop :=
  NoDup (JsMap.keys (processes this))
  /\ forall key record,
       JsMap.get key (processes this) = Some record ->
       MP.id (managedProcess record) = key.

(** The ids [generateProcessId] has handed out so far. *)
Definition minted (uuidv4 : nat -> string) (this : BgProcessManagerImpl C)
    : list string :=
  map uuidv4 (seq 0 (uuids this)).

(** The calls made on the controller between two states. *)
Definition callsSince (before after : BgProcessManagerImpl C) : list Call :=
  drop (length (calls before)) (calls after).

Definition idOf (record : ProcessRecord) : string := MP.id (managedProcess record).

Definition pidOf (record : ProcessRecord) : Z := MP.pid (managedProcess record).

(** The records [stopAllProcesses] collects. *)
Definition runningRecords (this : BgProcessManagerImpl C) : list ProcessRecord :=
  List.filter (fun r => isRunning (managedProcess r)) (JsMap.values (processes this)).

(** The supervisor after calls on its controller: the controller has
    moved on and the calls [made] are recorded. *)
Definition advance (controller : C) (made : list Call)
    (this : BgProcessManagerImpl C) : BgProcessManagerImpl C :=
  {| processes := processes this; logBuffer := logBuffer this;
     processController := controller; calls := calls this ++ made;
     uuids := uuids this; handlers := handlers this |}.

Definition withProcesses (processes' : list (string * ProcessRecord))
    (this : BgProcessManagerImpl C) : BgProcessManagerImpl C :=
  {| processes := processes'; logBuffer := logBuffer this;
     processController := processController this; calls := calls this;
     uuids := uuids this; handlers := handlers this |}.

Definition withLogBuffer (logBuffer' : ProcessLogBuffer.ProcessLogBufferImpl)
    (this : BgProcessManagerImpl C) : BgProcessManagerImpl C :=
  {| processes := processes this; logBuffer := logBuffer';
     processController := processController this; calls := calls this;
     uuids := uuids this; handlers := handlers this |}.

(** The state a successful or failed spawn leaves behind, before any
    record is made: one more id drawn, one more call. *)
Definition spawned (controller : C) (config : ProcessSpawnConfig)
    (this : BgProcessManagerImpl C) : BgProcessManagerImpl C :=
  {| processes := processes this; logBuffer := logBuffer this;
     processController := controller;
     calls := calls this ++ [CallSpawn config];
     uuids := S (uuids this); handlers := handlers this |}.

(** The spawn configuration [startProcess] hands to the controller. *)
Definition spawnConfigOf (sys : Env) (config : StartConfig) : ProcessSpawnConfig :=
  {| ProcessController.command := command config;
     ProcessController.args := Some (default [] (args config));
     ProcessController.cwd := Some (default (processCwd sys) (cwd config));
     ProcessController.env := env config |}.

(** The record [startProcess] makes of a spawn result. *)
Definition startedProcess (sys : Env) (config : StartConfig) (processId : string)
    (spawnResult : ProcessSpawnResult) : ManagedProcess :=
  {| MP.id := processId;
     MP.pid := pid spawnResult;
     MP.command := command config;
     MP.args := default [] (args config);
     MP.cwd := default (processCwd sys) (cwd config);
     MP.status := running;
     MP.startTime := now sys;
     MP.endTime := None;
     MP.exitCode := None |}.

(** A failed stop: the record is settled as [error] and the operation
    fails with [TerminationFailed]. *)
Definition stopFailed (sys : Env) (processId : string) (record : ProcessRecord)
    (cause : Thrown) (this : BgProcessManagerImpl C) : Completion unit * BgProcessManagerImpl C :=
  (Throw (TerminationFailed processId cause),
   withProcesses
     (JsMap.set processId (settled record error None (Some (now sys)))
        (processes this))
     this).

(** The wait for exit that ends a stop, after the calls [made]. *)
Definition stopWaits (sys : Env) (processId : string) (record : ProcessRecord)
    (controller : C) (made : list Call) (this : BgProcessManagerImpl C)
    : Completion unit * BgProcessManagerImpl C :=
  let pid := MP.pid (managedProcess record) in
  match waitForExit pid None controller with
  | (Return _, controller') =>
      (Return tt, advance controller' (made ++ [CallWaitForExit pid None]) this)
  | (Throw cause, controller') =>
      stopFailed sys processId record cause
        (advance controller' (made ++ [CallWaitForExit pid None]) this)
  end.

(** The records are keyed by their ids, once each, every record is
    consistent, and every key was handed out by the id generator. *)
Definition invariant (uuidv4 : nat -> string) (this : BgProcessManagerImpl C)
    : Prop :=
  NoDup (JsMap.keys (processes this))
  /\ forall key record,
       JsMap.get key (processes this) = Some record ->
       MP.id (managedProcess record) = key
       /\ consistent (managedProcess record)
       /\ key ∈ minted uuidv4 this.

(** An operation keeps a property of the supervisor, however it ends. *)
Definition preserves {A : Type} (P : BgProcessManagerImpl C -> Prop)
    (operation : M C A) : Prop :=
  forall this, P this -> P (snd (operation this)).

(** An id the generator handed out that has no record (any more). *)
Definition retired (uuidv4 : nat -> string) (processId : string)
    (this : BgProcessManagerImpl C) : Prop :=
  processId ∈ minted uuidv4 this
  /\ JsMap.get processId (processes this) = None.

(** The configuration [restartProcess] captures from a record. *)
Definition restartConfig (record : ProcessRecord) : StartConfig :=
  {| command := MP.command (managedProcess record);
     args := Some (MP.args (managedProcess record));
     cwd := Some (MP.cwd (managedProcess record));
     env := None |}.

(** The supervisor once [restartProcess] has dropped the record and
    the buffer of [processId]. *)
Definition forgotten (processId : string) (this : BgProcessManagerImpl C)
    : BgProcessManagerImpl C :=
  withLogBuffer (ProcessLogBuffer.clearLogs processId (logBuffer this))
    (withProcesses (JsMap.delete processId (processes this)) this).

(** What [getProcessInfo] returns. *)
Definition info (processId : string) (this : BgProcessManagerImpl C)
    : option ManagedProcess :=
  managedProcess <$> JsMap.get processId (processes this).

(** A supervisor with its controller exchanged, as a test does when it
    reaches into the mock. *)
Definition withController (controller : C) (this : BgProcessManagerImpl C)
    : BgProcessManagerImpl C :=
  {| processes := processes this; logBuffer := logBuffer this;
     processController := controller; calls := calls this;
     uuids := uuids this; handlers := handlers this |}.
End WithController.

(** The pids the non-forceful signal was sent to, in the order of the calls. *)
Definition firstSignals (made : list Call) : list Z :=
  omap (fun c => match c with
                 | CallKill pid None => Some pid
                 | _ => None
                 end) made.

(** Status, exit code and end time of a record. *)
Definition outcome (p : ManagedProcess) : ProcessStatus * option Z * option Z :=
  (MP.status p, MP.exitCode p, MP.endTime p).

(** Surroundings in which every path is an existing directory. *)
Definition sysAt (now : Z) : Env :=
  {| now := now; processCwd := "/work";
     existsSync := fun _ => true; statSync := fun _ => Return true |}.

(** Surroundings in which no path exists. *)
Definition sysNowhere (now : Z) : Env :=
  {| now := now; processCwd := "/work";
     existsSync := fun _ => false; statSync := fun _ => Throw (JsError "ENOENT") |}.

(** An id generator for examples: the [n]-th id is [id-n]. *)
Definition countingIds (n : nat) : string := "id-" +:+ Js.showNat n.

Definition echo : StartConfig :=
  {| command := "echo"; args := Some ["hello"]; cwd := None; env := None |}.

(** The scenario of the specification: [echo hello] is started at time 1
    and exits with code 0 at time 5. *)
Definition echoThenExit : list (Env * Action) :=
  [(sysAt 1, Start echo); (sysAt 5, Emit "id-0" (Exit (Some 0)))].

(** [echo hello] is started at time 1 and its handle reports an error at
    time 9. *)
Definition echoThenError : list (Env * Action) :=
  [(sysAt 1, Start echo); (sysAt 9, Emit "id-0" (Error "write EPIPE"))].

(** A supervisor over the mock, as the test suite builds it. *)
Definition mockManager : BgProcessManagerImpl MockProcessController.MockProcessController :=
  create (ProcessLogBuffer.create Appends.testConfig) MockProcessController.create.
End Supervisor.

(** ** Vocabulary of the further properties *)

(** The lines written out one after the other, each followed by
    [terminator]. *)
Definition unlines (terminator : string) (lines : list string) : string :=
  fold_right (fun line rest => line +:+ terminator +:+ rest) EmptyString lines.

(** The text does not end with a carriage return. *)
Definition noFinalCR (s : string) : bool := bool_decide (chopCR s = s).

(** The clock readings never go back. *)
Fixpoint nondecreasing (readings : list Z) : bool :=
  match readings with
  | [] => true
  | reading :: later => forallb (Z.leb reading) later && nondecreasing later
  end.

(** A log buffer that has seen nothing, with the given ceiling. *)
Definition emptyBuffer (maxLines : Z) : ProcessLogBuffer.ProcessLogBufferImpl :=
  {| ProcessLogBuffer.buffers := ∅; ProcessLogBuffer.maxLines := maxLines |}.

(** Two log buffers that hold the same for [pid] and have the same ceiling. *)
Definition agreeAt (pid : string) (this that : ProcessLogBuffer.ProcessLogBufferImpl)
    : Prop :=
  ProcessLogBuffer.buffers this !! pid = ProcessLogBuffer.buffers that !! pid
  /\ ProcessLogBuffer.maxLines this = ProcessLogBuffer.maxLines that.

(** In every buffer that holds entries, the time of the last update is
    the time of the newest entry. *)
Definition stamped (this : ProcessLogBuffer.ProcessLogBufferImpl) : Prop :=
  forall pid buffer entry,
    ProcessLogBuffer.buffers this !! pid = Some buffer ->
    last (ProcessLogBuffer.logs buffer) = Some entry ->
    LogData.timestamp entry = ProcessLogBuffer.lastUpdated buffer.

(** What a client of the supervisor can tell about it. *)
Module Client.
Import ProcessController BgProcessManager.
Module MP := ManagedProcess.

(** What of a record no operation changes once it is made. *)
Definition identity (p : ManagedProcess)
    : string * Z * string * list string * string * Z :=
  (MP.id p, MP.pid p, MP.command p, MP.args p, MP.cwd p, MP.startTime p).

Section WithController.
Context {C : Type} `{!ProcessController C}.

(** The keys of the record map with what is fixed of each record, in the
    order of the map. *)
Definition identities (this : BgProcessManagerImpl C)
    : list (string * (string * Z * string * list string * string * Z)) :=
  map (fun entry => (entry.1, identity (managedProcess entry.2))) (processes this).

(** What [listProcesses] returns. *)
Definition listed (this : BgProcessManagerImpl C) : list ManagedProcess :=
  map managedProcess (JsMap.values (processes this)).

(** What [getProcessLogs] returns. *)
Definition logsOf (sys : Env) (processId : string) (lines : option Z)
    (this : BgProcessManagerImpl C) : Completion (option LogData.LogData) :=
  fst (getProcessLogs sys processId lines this).
End WithController.

End Client.

(** The two calls that drive the life of the server object. *)
Module ServerLife.
Import ManageBgServer.

Inductive Operation :=
| CallStart
| CallClose (sys : Env).

Section WithServer.
Context {S C : Type} `{!McpServer.McpServer S} `{!ProcessController.ProcessController C}.

Definition perform (operation : Operation) (this : BgManageServer S C)
    : BgManageServer S C :=
  match operation with
  | CallStart => snd (start this)
  | CallClose sys => snd (close sys this)
  end.

Definition performAll (operations : list Operation) (this : BgManageServer S C)
    : BgManageServer S C :=
  fold_left (fun this operation => perform operation this) operations this.
End WithServer.

(** An SDK server for examples: [connect] and [close] return, and the
    state counts the connections open. *)
#[global] Instance countingServer : McpServer.McpServer nat :=
  {| McpServer.connect := fun open => (Return tt, Datatypes.S open);
     McpServer.close := fun open => (Return tt, Nat.pred open) |}.

(** A server object as its constructor leaves it, over the mock. *)
Definition fresh (processManager : BgProcessManager.BgProcessManagerImpl
                                     MockProcessController.MockProcessController)
    : BgManageServer nat MockProcessController.MockProcessController :=
  {| server := 0%nat; processManager := processManager;
     logging := {| Logging.enabled := false |};
     isRunning := false; isClosing := false; console := [] |}.

End ServerLife.

(** Two texts differ at a position that both have. *)
Fixpoint diverge (a b : string) : bool :=
  match a, b with
  | String c a', String d b' => if Ascii.eqb c d then diverge a' b' else true
  | _, _ => false
  end.

(** What [getUserMessage] puts before the details, by error type. *)
Definition userMessageHead (type : errors.ErrorType) : string :=
  ProcessErrorMessages.getUserMessage
    {| errors.type := type; errors.details := EmptyString; errors.processId := None |}.

(** When a logger over the configuration writes nothing: logging is
    switched off, or it is not set and [NODE_ENV] is [test]. *)
Definition silent (config : ConfigProvider.Config) (nodeEnv : option string) : Prop :=
  ConfigProvider.loggingEnabled config = Some false
  \/ (ConfigProvider.loggingEnabled config = None /\ nodeEnv = Some "test").

(** The supervisor over the mock controller of the test suite. *)
Module OverTheMock.
Import ProcessController BgProcessManager.

(** The pids of the records, in the order of the map. *)
Definition pids {C : Type} (this : BgProcessManagerImpl C) : list Z :=
  map (fun entry => ManagedProcess.pid (managedProcess entry.2)) (processes this).

(** Every recorded pid is a process the mock holds and has handed out,
    and no two records share a pid. *)
Definition tracked
    (this : BgProcessManagerImpl MockProcessController.MockProcessController) : Prop :=
  Forall (fun pid =>
            is_Some (MockProcessController.processes (processController this) !! pid)
            /\ pid < MockProcessController.nextPid (processController this))
         (pids this)
  /\ NoDup (pids this).

(** The mock has lost no process and taken back no pid. *)
Definition extends (before after : MockProcessController.MockProcessController) : Prop :=
  MockProcessController.nextPid before <= MockProcessController.nextPid after
  /\ forall pid,
       is_Some (MockProcessController.processes before !! pid) ->
       is_Some (MockProcessController.processes after !! pid).

End OverTheMock.

(** The event with which a handle reports output on a stream. *)
Definition outputEvent (stream : LogData.LogType) (data : string)
    : BgProcessManager.Event :=
  match stream with
  | LogData.stdout => BgProcessManager.Stdout data
  | LogData.stderr => BgProcessManager.Stderr data
  end.

(** Every record's id has its event handlers registered. *)
Definition registered {C : Type} (this : BgProcessManager.BgProcessManagerImpl C)
    : Prop :=
  forall key,
    key ∈ JsMap.keys (BgProcessManager.processes this) ->
    key ∈ BgProcessManager.handlers this.

(** Examples over [ProcessControllerImpl]: a [child_process] whose world
    is the list of the launches to come, and whose children are the
    answers they will give to the signals sent to them. *)
Module NodeExamples.
Import NodeController.

Definition Child : Type := list (Completion bool).

Definition scripted : ChildProcessModule Child (list (Launch Child)) :=
  {| childProcessSpawn := fun _ _ _ _ launches =>
       match launches with
       | [] => (Refused (NonError "no launch left"), [])
       | launch :: rest => (launch, rest)
       end;
     childProcessKill := fun _ answers =>
       match answers with
       | [] => (Return false, [])
       | answer :: rest => (answer, rest)
       end |}.

(** A supervisor over [ProcessControllerImpl] with nothing started. *)
Definition manager (launches : list (Launch Child))
    : BgProcessManager.BgProcessManagerImpl
        (ProcessControllerImpl Child (list (Launch Child))) :=
  BgProcessManager.create (ProcessLogBuffer.create Appends.testConfig)
    {| processes := ∅; world := launches; node := scripted |}.

End NodeExamples.

(** * Properties *)

(** ** Sequences and [slice] *)

Lemma lastN_ge {A} (n : nat) (l : list A) : (length l <= n)%nat -> lastN n l = l.
Proof.
  intros H. unfold lastN.
  replace (length l - n)%nat with 0%nat by lia. apply drop_0.
Qed.

Lemma length_lastN {A} (n : nat) (l : list A) :
  length (lastN n l) = Nat.min n (length l).
Proof. unfold lastN. rewrite length_drop. lia. Qed.

Lemma lastN_suffix {A} (n : nat) (l : list A) : lastN n l `suffix_of` l.
Proof. apply suffix_drop. Qed.

Lemma lastN_app_lastN {A} (n : nat) (l k : list A) :
  lastN n (lastN n l ++ k) = lastN n (l ++ k).
Proof.
  destruct (decide (length l <= n)%nat) as [Hle|Hgt].
  - by rewrite (lastN_ge n l).
  - unfold lastN at 1 3. rewrite !length_app, length_lastN.
    unfold lastN.
    replace (n `min` length l + length k - n)%nat with (length k) by lia.
    replace (length l + length k - n)%nat
      with ((length l - n) + length k)%nat by lia.
    rewrite <- drop_drop. f_equal. rewrite drop_app_le by lia. done.
Qed.

Lemma slice_neg {A} (n : Z) (l : list A) :
  0 < n -> Js.slice (- n) l = lastN (Z.to_nat n) l.
Proof.
  intros Hn. unfold Js.slice, lastN.
  destruct (Z.ltb_spec (- n) 0); [|lia].
  f_equal. lia.
Qed.

(** [slice(-0)] is [slice(0)]: the whole array. *)
Lemma slice_zero {A} (l : list A) : Js.slice (- 0) l = l.
Proof. unfold Js.slice. simpl. destruct (length l); reflexivity. Qed.

(** ** [split] on line boundaries *)

Lemma split_noLF (s : string) : noLF s = true -> Js.split s = [s].
Proof.
  induction s as [|c rest IH]; [reflexivity|].
  simpl. intros [Hc Hrest]%andb_prop.
  destruct (Ascii.eqb c Js.LF); [discriminate|].
  rewrite (IH Hrest).
  destruct rest as [|c' rest']; [reflexivity|].
  simpl in Hrest. apply andb_prop in Hrest as [Hc' _].
  destruct (Ascii.eqb c' Js.LF); [discriminate|].
  rewrite andb_false_r. reflexivity.
Qed.

Lemma append_nil (s : string) : "" +:+ s = s.
Proof. reflexivity. Qed.

Lemma append_cons (c : ascii) (a b : string) : String c a +:+ b = String c (a +:+ b).
Proof. reflexivity. Qed.

Lemma split_app_LF (a b : string) :
  noLF a = true ->
  Js.split (a +:+ String Js.LF b) = chopCR a :: Js.split b.
Proof.
  induction a as [|c a' IH]; [reflexivity|].
  intros [Hc Ha']%andb_prop.
  rewrite append_cons.
  cbn [Js.split]. destruct (Ascii.eqb c Js.LF); [discriminate|].
  rewrite (IH Ha').
  destruct a' as [|c' a'']; [rewrite append_nil | rewrite append_cons].
  - rewrite Ascii.eqb_refl, andb_true_r. cbn [chopCR].
    destruct (Ascii.eqb c Js.CR); reflexivity.
  - simpl in Ha'. apply andb_prop in Ha' as [Hc' _].
    destruct (Ascii.eqb c' Js.LF); [discriminate|].
    rewrite andb_false_r. reflexivity.
Qed.

Lemma split_nonempty (s : string) : Js.split s <> [].
Proof.
  induction s as [|c rest IH]; [discriminate|].
  cbn [Js.split]. destruct (Ascii.eqb c Js.LF); [discriminate|].
  destruct rest as [|c' rest'].
  - discriminate.
  - destruct (Ascii.eqb c Js.CR && Ascii.eqb c' Js.LF); [discriminate|].
    destruct (Js.split (String c' rest')); [contradiction|discriminate].
Qed.

Lemma extend_app (c : ascii) (x y : list string) :
  x <> [] -> Js.extend c (x ++ y) = Js.extend c x ++ y.
Proof. destruct x; [contradiction|reflexivity]. Qed.

Lemma split_before_LF (body : string) :
  exists pieces, pieces <> [] /\
    forall rest, Js.split (body +:+ String Js.LF rest) = pieces ++ Js.split rest.
Proof.
  induction body as [|c body' (pieces' & Hne & IH)].
  - exists [EmptyString]. split; [discriminate|reflexivity].
  - destruct (Ascii.eqb c Js.LF) eqn:Hc.
    + exists (EmptyString :: pieces'). split; [discriminate|].
      intros rest. rewrite append_cons. cbn [Js.split]. rewrite Hc, IH. reflexivity.
    + destruct body' as [|c' body''].
      * destruct (Ascii.eqb c Js.CR) eqn:Hcr.
        -- exists [EmptyString]. split; [discriminate|].
           intros rest. rewrite append_cons, append_nil. cbn [Js.split].
           rewrite Hc, Hcr, Ascii.eqb_refl. reflexivity.
        -- exists [String c EmptyString]. split; [discriminate|].
           intros rest. rewrite append_cons, append_nil. cbn [Js.split].
           rewrite Hc, Hcr. cbn [andb]. rewrite Ascii.eqb_refl. reflexivity.
      * destruct (Ascii.eqb c Js.CR && Ascii.eqb c' Js.LF) eqn:Hsep.
        -- apply andb_prop in Hsep as [Hcr Hc'].
           destruct pieces' as [|p pieces'']; [contradiction|].
           exists (EmptyString :: pieces''). split; [discriminate|].
           intros rest. specialize (IH rest).
           rewrite append_cons in IH. cbn [Js.split] in IH.
           rewrite Hc' in IH.
           rewrite !append_cons. cbn [Js.split].
           rewrite Hc, Hc', Hcr.
           cbn [andb]. injection IH as _ IH. rewrite IH. reflexivity.
        -- exists (Js.extend c pieces'). split.
           { destruct pieces'; [contradiction|discriminate]. }
           intros rest. specialize (IH rest).
           rewrite append_cons. rewrite append_cons in IH |- *.
           cbn [Js.split]. rewrite Hc, Hsep.
           cbn [Js.split] in IH. rewrite IH. apply extend_app, Hne.
Qed.

(** ** [parseLines] *)

Lemma parseLines_filter (data : string) :
  ProcessLogBuffer.parseLines data
  = filter (fun line => (0 < String.length line)%nat) (Js.split data).
Proof. destruct data; reflexivity. Qed.

Lemma extend_noLF (c : ascii) (pieces : list string) :
  Ascii.eqb c Js.LF = false ->
  Forall (fun piece => noLF piece = true) pieces ->
  Forall (fun piece => noLF piece = true) (Js.extend c pieces).
Proof.
  intros Hc Hpieces. destruct Hpieces as [|piece rest Hpiece Hrest]; simpl.
  - repeat constructor. simpl. rewrite Hc. reflexivity.
  - constructor; [|assumption]. simpl. rewrite Hc, Hpiece. reflexivity.
Qed.

Lemma split_pieces_noLF (data : string) :
  Forall (fun piece => noLF piece = true) (Js.split data).
Proof.
  assert (Hboth : Forall (fun piece => noLF piece = true) (Js.split data) /\
                  forall c, Forall (fun piece => noLF piece = true)
                              (Js.split (String c data))).
  { induction data as [|c' rest [IH1 IH2]].
    - split; [repeat constructor|].
      intros c. cbn [Js.split].
      destruct (Ascii.eqb c Js.LF) eqn:Hc; [repeat constructor|].
      apply extend_noLF; [assumption|repeat constructor].
    - split; [apply IH2|].
      intros c. cbn [Js.split].
      destruct (Ascii.eqb c Js.LF) eqn:Hc.
      + constructor; [reflexivity|]. apply IH2.
      + destruct (Ascii.eqb c Js.CR && Ascii.eqb c' Js.LF).
        * constructor; [reflexivity|apply IH1].
        * apply extend_noLF; [assumption|]. apply IH2. }
  apply Hboth.
Qed.

Lemma parseLines_lines (data : string) :
  Forall (fun line => line <> EmptyString /\ noLF line = true)
         (ProcessLogBuffer.parseLines data).
Proof.
  rewrite parseLines_filter. apply Forall_forall. intros line Hin.
  apply list_elem_of_filter in Hin as [Hlen Hin].
  split.
  - intros ->. simpl in Hlen. lia.
  - pose proof (split_pieces_noLF data) as Hall.
    rewrite Forall_forall in Hall. by apply Hall.
Qed.

Lemma parseLines_fragment (body fragment : string) :
  fragment <> EmptyString -> noLF fragment = true ->
  ProcessLogBuffer.parseLines (body +:+ String Js.LF fragment)
  = ProcessLogBuffer.parseLines (body +:+ String Js.LF EmptyString) ++ [fragment].
Proof.
  intros Hne Hfrag. rewrite !parseLines_filter.
  destruct (split_before_LF body) as (pieces & _ & Hsplit).
  rewrite !Hsplit, !filter_app, (split_noLF fragment Hfrag).
  f_equal; [by rewrite app_nil_r|].
  rewrite filter_cons_True; [reflexivity|].
  destruct fragment; [contradiction|simpl; lia].
Qed.

(** ** The buffer of one process across an append *)

Section Buffer.
Import LogData ProcessLogBuffer Appends.

Lemma maxLines_append tag now p data this :
  maxLines (append tag now p data this) = maxLines this.
Proof.
  unfold append, getOrCreateBuffer.
  destruct (buffers this !! p); cbn; case_decide; reflexivity.
Qed.

Lemma maxLines_applyAll calls this :
  maxLines (applyAll calls this) = maxLines this.
Proof.
  revert this. induction calls as [|a calls IH]; intros this; [reflexivity|].
  cbn. rewrite IH. apply maxLines_append.
Qed.

Lemma length_entries tag now data :
  length (entries tag now data) = length (parseLines data).
Proof. apply length_map. Qed.

(** The content of a buffer after one append: untouched for another id
    or a chunk without lines; otherwise the new entries go behind the
    old ones and the limit is enforced on the whole. *)
Lemma retained_append tag now p data this pid :
  retained pid (append tag now p data this) =
    if decide (p = pid) then
      if decide (parseLines data = []) then retained pid this
      else logs (enforceBufferLimits this
                   {| logs := retained pid this ++ entries tag now data;
                      lastUpdated := now |})
    else retained pid this.
Proof.
  unfold retained, getLatestLogs, append, getOrCreateBuffer, entries,
    enforceBufferLimits.
  destruct (decide (p = pid)) as [->|Hne].
  - destruct (decide (parseLines data = [])) as [Hnil|Hlines].
    + rewrite Hnil.
      destruct (buffers this !! pid) eqn:Hb; (case_decide; [simpl in *; lia|]);
        cbn [buffers maxLines logs lastUpdated LogData.logs];
        rewrite ?Hb, ?lookup_insert_eq; reflexivity.
    + assert (0 < length (parseLines data))%nat
        by (destruct (parseLines data); [done|simpl; lia]).
      destruct (buffers this !! pid) eqn:Hb; (case_decide; [|lia]);
        cbn [buffers maxLines logs lastUpdated LogData.logs];
        rewrite lookup_insert_eq; cbn [buffers maxLines logs lastUpdated LogData.logs];
        case_match; reflexivity.
  - destruct (buffers this !! p) eqn:Hb; case_decide;
      cbn [buffers maxLines logs lastUpdated LogData.logs];
      rewrite ?lookup_insert_ne by done; reflexivity.
Qed.

(** With a positive ceiling, enforcing the limit keeps the most recent
    [maxLines] entries. *)
Lemma enforceBufferLimits_lastN this l t :
  0 < maxLines this ->
  logs (enforceBufferLimits this {| logs := l; lastUpdated := t |})
  = lastN (Z.to_nat (maxLines this)) l.
Proof.
  intros Hpos. unfold enforceBufferLimits. cbn [logs].
  destruct (Z.gtb_spec (Z.of_nat (length l)) (maxLines this)).
  - cbn [logs]. by apply slice_neg.
  - cbn [logs]. symmetry. apply lastN_ge. lia.
Qed.

Lemma produced_app pid calls1 calls2 :
  produced pid (calls1 ++ calls2) = produced pid calls1 ++ produced pid calls2.
Proof. apply flat_map_app. Qed.

Lemma maxLines_apply a this : maxLines (apply a this) = maxLines this.
Proof. apply maxLines_append. Qed.

Lemma retained_apply a this pid :
  0 < maxLines this ->
  (Z.of_nat (length (retained pid this)) <= maxLines this) ->
  retained pid (apply a this)
  = lastN (Z.to_nat (maxLines this)) (retained pid this ++ produced pid [a]).
Proof.
  intros Hpos Hlen. unfold apply. rewrite retained_append.
  cbn [produced flat_map]. rewrite app_nil_r.
  destruct (decide (processId a = pid)).
  - destruct (decide (parseLines (chunk a) = [])) as [Hnil|].
    + unfold entries. rewrite Hnil. cbn [map]. rewrite app_nil_r.
      symmetry. apply lastN_ge. lia.
    + by apply enforceBufferLimits_lastN.
  - rewrite app_nil_r. symmetry. apply lastN_ge. lia.
Qed.

(** The buffer of [pid] holds the most recent [maxLines] of the entries
    made for it since it was empty. *)
Lemma retained_applyAll calls this pid :
  0 < maxLines this ->
  (Z.of_nat (length (retained pid this)) <= maxLines this) ->
  retained pid (applyAll calls this)
  = lastN (Z.to_nat (maxLines this)) (retained pid this ++ produced pid calls).
Proof.
  revert this.
  induction calls as [|a calls IH]; intros this Hpos Hlen.
  - cbn. rewrite app_nil_r. symmetry. apply lastN_ge. lia.
  - change (applyAll (a :: calls) this) with (applyAll calls (apply a this)).
    change (a :: calls) with ([a] ++ calls).
    rewrite produced_app, app_assoc, <- lastN_app_lastN.
    rewrite <- (retained_apply a this pid Hpos Hlen).
    rewrite <- (maxLines_apply a this).
    apply IH.
    + by rewrite maxLines_apply.
    + rewrite maxLines_apply, (retained_apply a this pid Hpos Hlen), length_lastN. lia.
Qed.
End Buffer.

Section Reading.
Import LogData ProcessLogBuffer Appends.

Lemma read_all now pid this :
  LogData.logs (getLatestLogs now pid None this) = retained pid this.
Proof.
  unfold retained, getLatestLogs. destruct (buffers this !! pid); reflexivity.
Qed.

Lemma read_limit now pid n this :
  0 < n ->
  LogData.logs (getLatestLogs now pid (Some n) this)
  = lastN (Z.to_nat n) (retained pid this).
Proof.
  intros Hn. unfold retained, getLatestLogs.
  destruct (buffers this !! pid); cbn [LogData.logs].
  - destruct (Z.ltb_spec 0 n); [|lia]. by apply slice_neg.
  - reflexivity.
Qed.

Lemma read_limit_nonpositive now pid n this :
  n <= 0 ->
  LogData.logs (getLatestLogs now pid (Some n) this) = retained pid this.
Proof.
  intros Hn. unfold retained, getLatestLogs.
  destruct (buffers this !! pid); cbn [LogData.logs]; [|reflexivity].
  destruct (Z.ltb_spec 0 n); [lia|reflexivity].
Qed.

Lemma retained_create config pid : retained pid (create config) = [].
Proof. reflexivity. Qed.
End Reading.

(** With a ceiling of 0 the limit is never enforced: [slice(-0)] is the
    whole array. *)
Lemma enforceBufferLimits_zero (buffers : gmap string ProcessLogBuffer.LogBufferElement)
    (buffer : ProcessLogBuffer.LogBufferElement) :
  ProcessLogBuffer.logs
    (ProcessLogBuffer.enforceBufferLimits
       {| ProcessLogBuffer.buffers := buffers; ProcessLogBuffer.maxLines := 0 |} buffer)
  = ProcessLogBuffer.logs buffer.
Proof.
  unfold ProcessLogBuffer.enforceBufferLimits. cbn [ProcessLogBuffer.maxLines].
  destruct (_ >? 0); [apply slice_zero|reflexivity].
Qed.

(** ** C1: the ceiling of a buffer and reading it *)

(** C1, as amended.  With a positive ceiling, after any sequence of
    appends the buffer of a process holds exactly the most recent
    [ceiling] entries made for it, oldest dropped first and order kept,
    so never more than the ceiling.  A read without limit returns all of
    them; a read with a limit [n >= 1] returns the most recent
    [min n length] of them in order; a read with a limit [n <= 0]
    returns all of them, like a read without limit. *)
Theorem C1_buffer_ceiling_and_read
    (config : ConfigProvider.Config) (calls : list Appends.Append)
    (pid : string) (now : Z) :
  0 < ConfigProvider.maxLogLinesPerProcesses config ->
  let ceiling := Z.to_nat (ConfigProvider.maxLogLinesPerProcesses config) in
  let this := Appends.applyAll calls (ProcessLogBuffer.create config) in
  let read lines := LogData.logs (ProcessLogBuffer.getLatestLogs now pid lines this) in
  read None = lastN ceiling (Appends.produced pid calls)
  /\ (length (read None) <= ceiling)%nat
  /\ read None `suffix_of` Appends.produced pid calls
  /\ (forall n, 0 < n ->
        read (Some n) = lastN (Z.to_nat n) (read None)
        /\ length (read (Some n)) = Nat.min (Z.to_nat n) (length (read None)))
  /\ (forall n, n <= 0 -> read (Some n) = read None).
Proof.
  intros Hpos ceiling this read.
  assert (Hall : read None = lastN ceiling (Appends.produced pid calls)).
  { unfold read, this. rewrite read_all, retained_applyAll.
    - reflexivity.
    - exact Hpos.
    - rewrite retained_create. cbn. unfold ConfigProvider.getMaxLogLinesPerProcesses. lia. }
  split; [exact Hall|]. split; [|split; [|split]].
  - rewrite Hall, length_lastN. lia.
  - rewrite Hall. apply lastN_suffix.
  - intros n Hn. unfold read. rewrite read_all, (read_limit _ _ _ _ Hn).
    split; [reflexivity|apply length_lastN].
  - intros n Hn. unfold read. by rewrite read_all, read_limit_nonpositive.
Qed.

(** The test [should respect configuration limits], in full: ceiling
    1000, the 1500 appends [Line 1] .. [Line 1500], and a read that
    returns the 1000 lines [Line 501] .. [Line 1500]. *)
Lemma C1_buffer_ceiling_and_read_witness :
  map LogData.line
    (LogData.logs
       (ProcessLogBuffer.getLatestLogs 0 "test-process-1" None
          (Appends.applyAll (Appends.lineAppends "test-process-1" 1500)
             (ProcessLogBuffer.create Appends.testConfig))))
  = map (fun i => "Line " +:+ Js.showNat i) (seq 501 1000).
Proof.
  destruct (C1_buffer_ceiling_and_read Appends.testConfig
              (Appends.lineAppends "test-process-1" 1500) "test-process-1" 0
              eq_refl) as [Hall _].
  rewrite Hall. vm_compute. reflexivity.
Defined.

(** C1 as stated fails for the limit 0: the read returns every retained
    entry, not [min 0 length = 0] of them. *)
Lemma C1_counterexample_limit_zero :
  let this :=
    Appends.applyAll (Appends.lineAppends "p" 3)
      (ProcessLogBuffer.create Appends.testConfig) in
  let read := LogData.logs (ProcessLogBuffer.getLatestLogs 0 "p" (Some 0) this) in
  map LogData.line read = ["Line 1"; "Line 2"; "Line 3"]
  /\ length read <> Nat.min 0 (length (Appends.retained "p" this)).
Proof. vm_compute. split; [reflexivity|discriminate]. Qed.

(** ** C3: from a chunk to entries *)

Lemma nonempty_length (text : string) :
  (0 < String.length text)%nat <-> text <> EmptyString.
Proof. destruct text; cbn; split; (done || lia). Qed.

Lemma parseLines_single (text : string) :
  noLF text = true ->
  ProcessLogBuffer.parseLines text = if decide (text = EmptyString) then [] else [text].
Proof.
  intros Htext. rewrite parseLines_filter, (split_noLF text Htext).
  case_decide as Hempty.
  - subst text. reflexivity.
  - rewrite filter_cons_True by (by apply nonempty_length). reflexivity.
Qed.

Lemma parseLines_first (first rest : string) :
  noLF first = true ->
  ProcessLogBuffer.parseLines (first +:+ String Js.LF rest)
  = (if decide (chopCR first = EmptyString) then [] else [chopCR first])
    ++ ProcessLogBuffer.parseLines rest.
Proof.
  intros Hfirst. rewrite !parseLines_filter, (split_app_LF first rest Hfirst).
  case_decide as Hempty.
  - rewrite Hempty. reflexivity.
  - rewrite filter_cons_True by (by apply nonempty_length). reflexivity.
Qed.

(** C3, as amended.  An append that finds lines in its chunk puts one
    entry per line behind the old ones, each tagged with the stream and
    the current time, and then enforces the limit; a chunk without lines
    changes nothing.  The lines are the non-empty pieces between line
    boundaries, so none is empty and none holds a line feed: a text
    without line feed is one piece, and the text up to the first line
    feed, less a carriage return at its end, is the first piece of a
    longer one.  Text after the last line feed of a chunk is a line like
    the others: when not empty it becomes the last entry of this very
    call. *)
Theorem C3_chunk_becomes_entries
    (tag : LogData.LogType) (now : Z) (pid data : string)
    (this : ProcessLogBuffer.ProcessLogBufferImpl) :
  let lines := ProcessLogBuffer.parseLines data in
  let entries :=
    map (fun line => {| LogData.type := tag; LogData.line := line;
                        LogData.timestamp := now |}) lines in
  let before := Appends.retained pid this in
  let after := Appends.retained pid (ProcessLogBuffer.append tag now pid data this) in
  lines = filter (fun line => (0 < String.length line)%nat) (Js.split data)
  /\ Forall (fun line => line <> EmptyString /\ noLF line = true) lines
  /\ (lines = [] -> after = before)
  /\ (lines <> [] ->
      after =
        if Z.of_nat (length (before ++ entries)) >? ProcessLogBuffer.maxLines this
        then Js.slice (- ProcessLogBuffer.maxLines this) (before ++ entries)
        else before ++ entries)
  /\ (forall text,
        noLF text = true ->
        ProcessLogBuffer.parseLines text
        = if decide (text = EmptyString) then [] else [text])
  /\ (forall first rest,
        noLF first = true ->
        ProcessLogBuffer.parseLines (first +:+ String Js.LF rest)
        = (if decide (chopCR first = EmptyString) then [] else [chopCR first])
          ++ ProcessLogBuffer.parseLines rest)
  /\ (forall body fragment,
        fragment <> EmptyString -> noLF fragment = true ->
        ProcessLogBuffer.parseLines (body +:+ String Js.LF fragment)
        = ProcessLogBuffer.parseLines (body +:+ String Js.LF EmptyString)
          ++ [fragment]).
Proof.
  intros lines entries before after.
  split; [apply parseLines_filter|]. split; [apply parseLines_lines|].
  split; [|split; [|split; [apply parseLines_single|split; [apply parseLines_first|]]]].
  - intros Hnil. unfold after. rewrite retained_append.
    rewrite decide_True by reflexivity. by rewrite decide_True.
  - intros Hlines. unfold after. rewrite retained_append.
    rewrite decide_True by reflexivity. rewrite decide_False by exact Hlines.
    unfold ProcessLogBuffer.enforceBufferLimits, Appends.entries.
    cbn [ProcessLogBuffer.logs].
    subst before entries lines. destruct (_ >? _); reflexivity.
  - apply parseLines_fragment.
Qed.

(** The theorem at the chunk [done], line feed, [partial]. *)
Lemma C3_chunk_becomes_entries_witness :
  ProcessLogBuffer.parseLines ("done" +:+ String Js.LF "partial")
  = ProcessLogBuffer.parseLines ("done" +:+ String Js.LF EmptyString) ++ ["partial"].
Proof.
  apply (C3_chunk_becomes_entries LogData.stdout 0 "p" ""
           (ProcessLogBuffer.create Appends.testConfig)).
  - discriminate.
  - reflexivity.
Defined.

(** C3 as stated fails: the text after the last line feed of a chunk is
    buffered as an entry ([partial] below), as is a chunk without any
    line feed, which the test suite relies on. *)
Lemma C3_counterexample_fragment_is_buffered :
  map LogData.line
    (Appends.retained "p"
       (ProcessLogBuffer.appendStdout 1 "p" ("done" +:+ String Js.LF "partial")
          (ProcessLogBuffer.create Appends.testConfig)))
  = ["done"; "partial"]
  /\ map LogData.line
       (Appends.retained "test-process-1"
          (ProcessLogBuffer.appendStdout 1 "test-process-1" "Hello from stdout"
             (ProcessLogBuffer.create Appends.testConfig)))
     = ["Hello from stdout"].
Proof. vm_compute. split; reflexivity. Qed.

(** ** The record map *)

Section JsMapFacts.
Context {V : Type}.
Implicit Types (m : list (string * V)) (key : string) (value : V).

Lemma get_set_eq key value m : JsMap.get key (JsMap.set key value m) = Some value.
Proof.
  induction m as [|[k v] m IH]; cbn.
  - by rewrite decide_True.
  - destruct (decide (k = key)) as [->|Hne]; cbn.
    + by rewrite decide_True.
    + by rewrite decide_False.
Qed.

Lemma get_set_ne key key' value m :
  key <> key' -> JsMap.get key' (JsMap.set key value m) = JsMap.get key' m.
Proof.
  intros Hne. induction m as [|[k v] m IH]; cbn.
  - by rewrite decide_False.
  - destruct (decide (k = key)) as [->|Hk]; cbn.
    + by rewrite !decide_False.
    + by rewrite IH.
Qed.

Lemma get_set key key' value m :
  JsMap.get key' (JsMap.set key value m)
  = if decide (key = key') then Some value else JsMap.get key' m.
Proof.
  case_decide as Hk; [subst; apply get_set_eq | by apply get_set_ne].
Qed.

Lemma get_delete_eq key m : JsMap.get key (JsMap.delete key m) = None.
Proof.
  induction m as [|[k v] m IH]; [reflexivity|]. cbn.
  destruct (decide (k = key)); [exact IH|]. cbn. by rewrite decide_False.
Qed.

Lemma get_delete_ne key key' m :
  key <> key' -> JsMap.get key' (JsMap.delete key m) = JsMap.get key' m.
Proof.
  intros Hne. induction m as [|[k v] m IH]; [reflexivity|]. cbn.
  destruct (decide (k = key)) as [->|Hk]; cbn.
  - by rewrite decide_False.
  - by rewrite IH.
Qed.

Lemma get_Some_keys key value m : JsMap.get key m = Some value -> key ∈ JsMap.keys m.
Proof.
  induction m as [|[k v] m IH]; [discriminate|]. cbn.
  destruct (decide (k = key)) as [->|Hk]; intros Hget.
  - apply list_elem_of_here.
  - apply list_elem_of_further, IH, Hget.
Qed.

Lemma get_None_keys key m : JsMap.get key m = None <-> key ∉ JsMap.keys m.
Proof.
  induction m as [|[k v] m IH]; cbn.
  - split; [intros _; apply not_elem_of_nil|reflexivity].
  - rewrite not_elem_of_cons. destruct (decide (k = key)) as [->|Hk].
    + split; [discriminate|]. by intros [? _].
    + rewrite IH. split; [by split|]. by intros [_ ?].
Qed.

Lemma get_values key value m : JsMap.get key m = Some value -> value ∈ JsMap.values m.
Proof.
  induction m as [|[k v] m IH]; [discriminate|]. cbn.
  destruct (decide (k = key)); intros Hget.
  - injection Hget as ->. apply list_elem_of_here.
  - apply list_elem_of_further, IH, Hget.
Qed.

Lemma keys_set_present key value m :
  key ∈ JsMap.keys m -> JsMap.keys (JsMap.set key value m) = JsMap.keys m.
Proof.
  induction m as [|[k v] m IH]; cbn.
  - intros []%not_elem_of_nil.
  - intros Hin. destruct (decide (k = key)) as [->|Hk]; [reflexivity|].
    cbn. f_equal. apply IH. apply elem_of_cons in Hin as [?|?]; [congruence|done].
Qed.

Lemma keys_set_absent key value m :
  key ∉ JsMap.keys m -> JsMap.keys (JsMap.set key value m) = JsMap.keys m ++ [key].
Proof.
  induction m as [|[k v] m IH]; cbn; [reflexivity|].
  intros [Hk Hin]%not_elem_of_cons.
  rewrite decide_False by congruence. cbn. f_equal. by apply IH.
Qed.

Lemma NoDup_keys_set key value m :
  NoDup (JsMap.keys m) -> NoDup (JsMap.keys (JsMap.set key value m)).
Proof.
  intros Hm. destruct (decide (key ∈ JsMap.keys m)) as [Hin|Hin].
  - by rewrite keys_set_present.
  - rewrite keys_set_absent by done. apply NoDup_app. split; [done|].
    split; [|apply NoDup_singleton].
    intros k Hk ->%list_elem_of_singleton. contradiction.
Qed.

Lemma keys_delete_subseteq key m : JsMap.keys (JsMap.delete key m) ⊆ JsMap.keys m.
Proof.
  induction m as [|[k v] m IH]; [done|]. cbn.
  destruct (decide (k = key)); cbn.
  - by apply list_subseteq_cons.
  - intros x [->|Hx]%elem_of_cons; [apply list_elem_of_here|].
    apply list_elem_of_further, IH, Hx.
Qed.

Lemma NoDup_keys_delete key m :
  NoDup (JsMap.keys m) -> NoDup (JsMap.keys (JsMap.delete key m)).
Proof.
  induction m as [|[k v] m IH]; [done|]. cbn.
  intros [Hk Hm]%NoDup_cons. destruct (decide (k = key)); [by apply IH|].
  cbn. apply NoDup_cons. split; [|by apply IH].
  intros Hin. apply Hk. by apply (keys_delete_subseteq key m).
Qed.

Lemma values_get m value :
  value ∈ JsMap.values m -> NoDup (JsMap.keys m) ->
  exists key, JsMap.get key m = Some value.
Proof.
  induction m as [|[k v] m IH]; cbn.
  - intros []%not_elem_of_nil.
  - intros [->|Hin]%elem_of_cons [Hk Hm]%NoDup_cons.
    + exists k. by rewrite decide_True.
    + destruct (IH Hin Hm) as (key & Hget). exists key.
      rewrite decide_False; [done|].
      intros ->. apply Hk. by eapply get_Some_keys.
Qed.
End JsMapFacts.

(** ** The operations of the supervisor, step by step *)

Section Operations.
Import ProcessController BgProcessManager Supervisor.
Context {C : Type} `{!ProcessController C}.
Variable uuidv4 : nat -> string.
Implicit Types (this : BgProcessManagerImpl C) (sys : Env) (processId : string).

Lemma updateProcessStatus_unknown sys processId status exitCode this :
  JsMap.get processId (processes this) = None ->
  updateProcessStatus sys processId status exitCode this = (Return tt, this).
Proof. intros Hget. unfold updateProcessStatus. by rewrite Hget. Qed.

Lemma updateProcessStatus_known sys processId status exitCode this record :
  JsMap.get processId (processes this) = Some record ->
  updateProcessStatus sys processId status exitCode this
  = (Return tt,
     withProcesses
       (JsMap.set processId
          (settled record status exitCode
             (if decide (status <> running) then Some (now sys) else None))
          (processes this))
       this).
Proof. intros Hget. unfold updateProcessStatus. by rewrite Hget. Qed.

Lemma startProcess_unfold sys config this :
  startProcess uuidv4 sys config this =
    if negb (validateDirectory sys (default (processCwd sys) (cwd config)))
    then (Throw (DirectoryNotFound (default (processCwd sys) (cwd config))), this)
    else
      let processId := uuidv4 (uuids this) in
      match spawn (spawnConfigOf sys config) (processController this) with
      | (Throw cause, controller) =>
          (Throw (SpawnFailed cause),
           spawned controller (spawnConfigOf sys config) this)
      | (Return spawnResult, controller) =>
          let managedProcess := startedProcess sys config processId spawnResult in
          (Return managedProcess,
           {| processes :=
                JsMap.set processId
                  {| managedProcess := managedProcess; spawnResult := spawnResult |}
                  (processes this);
              logBuffer := logBuffer this;
              processController := controller;
              calls := calls this ++ [CallSpawn (spawnConfigOf sys config)];
              uuids := S (uuids this);
              handlers := handlers this ++ [processId] |})
      end.
Proof.
  unfold startProcess. case_match; [reflexivity|].
  unfold bind, tryCatch, generateProcessId, call, spawnConfigOf.
  cbn [processController calls processes logBuffer uuids handlers].
  destruct (spawn _ (processController this)) as [[spawnResult|cause] controller];
    reflexivity.
Qed.

Lemma stopProcess_unknown sys processId this :
  JsMap.get processId (processes this) = None ->
  stopProcess sys processId this = (Throw (ProcessNotFound processId), this).
Proof. intros Hget. unfold stopProcess. by rewrite Hget. Qed.

Lemma stopProcess_settled sys processId this record :
  JsMap.get processId (processes this) = Some record ->
  MP.status (managedProcess record) <> running ->
  stopProcess sys processId this = (Return tt, this).
Proof.
  intros Hget Hstatus. unfold stopProcess. rewrite Hget.
  by rewrite decide_True.
Qed.

Lemma advance_advance controller controller' made made' this :
  advance controller' made' (advance controller made this)
  = advance controller' (made ++ made') this.
Proof. unfold advance. cbn. by rewrite <- app_assoc. Qed.

Lemma stopProcess_running sys processId this record :
  JsMap.get processId (processes this) = Some record ->
  MP.status (managedProcess record) = running ->
  let pid := MP.pid (managedProcess record) in
  stopProcess sys processId this =
    match kill pid None (processController this) with
    | (Throw cause, c1) =>
        stopFailed sys processId record cause (advance c1 [CallKill pid None] this)
    | (Return true, c1) =>
        stopWaits sys processId record c1 [CallKill pid None] this
    | (Return false, c1) =>
        match kill pid (Some true) c1 with
        | (Throw cause, c2) =>
            stopFailed sys processId record cause
              (advance c2 [CallKill pid None; CallKill pid (Some true)] this)
        | (Return _, c2) =>
            stopWaits sys processId record c2
              [CallKill pid None; CallKill pid (Some true)] this
        end
    end.
Proof.
  intros Hget Hstatus pid. unfold stopProcess. rewrite Hget.
  rewrite decide_False by (rewrite Hstatus; auto).
  fold pid. unfold tryCatch, bind, call, stopWaits, stopFailed, ret, throw.
  fold pid.
  cbn [processController calls processes logBuffer uuids handlers].
  destruct (kill pid None (processController this)) as [[[]|cause] c1];
    cbn [negb processController calls processes logBuffer uuids handlers];
    [destruct (waitForExit pid None c1) as [[[]|cause] c2]
    |destruct (kill pid (Some true) c1) as [[killed|cause] c2];
     cbn [processController calls processes logBuffer uuids handlers];
     [destruct (waitForExit pid None c2) as [[[]|cause] c3]|]
    |];
    unfold updateProcessStatus, advance, withProcesses, setProcesses;
    cbn [processController calls processes logBuffer uuids handlers];
    rewrite ?Hget, ?decide_True by discriminate;
    cbn [processController calls processes logBuffer uuids handlers];
    rewrite <- ?app_assoc; reflexivity.
Qed.
End Operations.

(** ** C6: a failed start *)

Section Start.
Import ProcessController BgProcessManager Supervisor.
Context {C : Type} `{!ProcessController C}.
Variable uuidv4 : nat -> string.

Lemma validateDirectory_true sys dirPath :
  validateDirectory sys dirPath = true
  <-> existsSync sys dirPath = true /\ statSync sys dirPath = Return true.
Proof.
  unfold validateDirectory.
  destruct (existsSync sys dirPath); cbn [negb].
  - destruct (statSync sys dirPath) as [[]|]; split; intros H;
      try discriminate; try (destruct H; discriminate); auto.
  - split; [discriminate|]. intros [? _]. discriminate.
Qed.

(** C6.  A start whose working directory does not exist or is not a
    directory fails with [DirectoryNotFound] and leaves the supervisor as
    it was: no call reached the controller, so nothing was spawned.  A
    start whose spawn throws fails with [SpawnFailed], which carries the
    message of the cause.  Whenever a start fails, it is in one of these
    two ways and the record map is the one from before. *)
Theorem C6_failed_start_creates_no_record
    (sys : Env) (config : StartConfig) (this : BgProcessManagerImpl C) :
  let cwd := default (processCwd sys) (cwd config) in
  let spawnConfig := spawnConfigOf sys config in
  (validateDirectory sys cwd = true
     <-> existsSync sys cwd = true /\ statSync sys cwd = Return true)
  /\ (validateDirectory sys cwd = false ->
        startProcess uuidv4 sys config this = (Throw (DirectoryNotFound cwd), this))
  /\ (forall cause controller,
        validateDirectory sys cwd = true ->
        spawn spawnConfig (processController this) = (Throw cause, controller) ->
        startProcess uuidv4 sys config this
        = (Throw (SpawnFailed cause), spawned controller spawnConfig this)
        /\ processes (spawned controller spawnConfig this) = processes this)
  /\ (forall err this',
        startProcess uuidv4 sys config this = (Throw err, this') ->
        processes this' = processes this
        /\ ((err = DirectoryNotFound cwd /\ this' = this)
            \/ exists cause, err = SpawnFailed cause)).
Proof.
  intros cwd spawnConfig. split; [apply validateDirectory_true|].
  split; [|split].
  - intros Hdir. rewrite startProcess_unfold. fold cwd. by rewrite Hdir.
  - intros cause controller Hdir Hspawn. rewrite startProcess_unfold.
    fold cwd spawnConfig. rewrite Hdir, Hspawn. done.
  - intros err this'. rewrite startProcess_unfold. fold cwd spawnConfig.
    destruct (validateDirectory sys cwd); cbn [negb].
    + destruct (spawn spawnConfig (processController this))
        as [[spawnResult|cause] controller]; cbn zeta; [discriminate|].
      intros [= <- <-]. split; [reflexivity|]. right. by exists cause.
    + intros [= <- <-]. split; [reflexivity|]. by left.
Qed.
End Start.

(** The theorem where no path exists, and where the controller's spawn
    throws [Command not found]. *)
Lemma C6_failed_start_creates_no_record_witness :
  let failing : ScriptedController.ScriptedController :=
    {| ScriptedController.spawnAnswers := [Throw (JsError "Command not found")];
       ScriptedController.killAnswers := [];
       ScriptedController.waitForExitAnswers := [] |} in
  let this :=
    BgProcessManager.create (ProcessLogBuffer.create Appends.testConfig) failing in
  BgProcessManager.startProcess Supervisor.countingIds (Supervisor.sysNowhere 1)
    Supervisor.echo Supervisor.mockManager
  = (Throw (Supervisor.DirectoryNotFound "/work"), Supervisor.mockManager)
  /\ fst (BgProcessManager.startProcess Supervisor.countingIds (Supervisor.sysAt 1)
            Supervisor.echo this)
     = Throw (Supervisor.SpawnFailed (JsError "Command not found"))
  /\ BgProcessManager.processes
       (snd (BgProcessManager.startProcess Supervisor.countingIds (Supervisor.sysAt 1)
               Supervisor.echo this))
     = [].
Proof.
  intros failing this. split; [|split].
  - apply (C6_failed_start_creates_no_record Supervisor.countingIds
             (Supervisor.sysNowhere 1) Supervisor.echo Supervisor.mockManager).
    reflexivity.
  - destruct (C6_failed_start_creates_no_record Supervisor.countingIds
                (Supervisor.sysAt 1) Supervisor.echo this) as (_ & _ & Hspawn & _).
    destruct (Hspawn (JsError "Command not found")
                {| ScriptedController.spawnAnswers := [];
                   ScriptedController.killAnswers := [];
                   ScriptedController.waitForExitAnswers := [] |}
                eq_refl eq_refl) as [-> _].
    reflexivity.
  - destruct (C6_failed_start_creates_no_record Supervisor.countingIds
                (Supervisor.sysAt 1) Supervisor.echo this) as (_ & _ & _ & Hfail).
    eapply Hfail. reflexivity.
Defined.

(** ** C8: stopping or restarting what is not there, stopping what has ended *)

Section Unknown.
Import ProcessController BgProcessManager Supervisor.
Context {C : Type} `{!ProcessController C}.
Variable uuidv4 : nat -> string.

Lemma restartProcess_unknown sys processId (this : BgProcessManagerImpl C) :
  JsMap.get processId (processes this) = None ->
  restartProcess uuidv4 sys processId this = (Throw (ProcessNotFound processId), this).
Proof. intros Hget. unfold restartProcess. by rewrite Hget. Qed.

(** C8.  Without a record for the id, stop and restart fail with
    [ProcessNotFound] and leave the supervisor as it was.  With a record
    that is not running, stop returns and leaves the supervisor as it
    was: no call reached the controller and no record changed. *)
Theorem C8_unknown_id_and_settled_stop
    (sys : Env) (processId : string) (this : BgProcessManagerImpl C) :
  (JsMap.get processId (processes this) = None ->
     stopProcess sys processId this = (Throw (ProcessNotFound processId), this)
     /\ restartProcess uuidv4 sys processId this
        = (Throw (ProcessNotFound processId), this))
  /\ (forall record,
        JsMap.get processId (processes this) = Some record ->
        MP.status (managedProcess record) <> running ->
        stopProcess sys processId this = (Return tt, this)).
Proof.
  split.
  - intros Hget. split; [by apply stopProcess_unknown|by apply restartProcess_unknown].
  - intros record. apply stopProcess_settled.
Qed.

(** ** C10: events for an id without a record *)

Lemma onExit_unfold sys processId code (this : BgProcessManagerImpl C) :
  onExit sys processId code this
  = updateProcessStatus sys processId
      (if decide (code = Some 0) then stopped else error) code this.
Proof. reflexivity. Qed.

Lemma onError_unfold sys processId message (this : BgProcessManagerImpl C) :
  onError sys processId message this
  = updateProcessStatus sys processId error None
      (withLogBuffer
         (ProcessLogBuffer.appendStderr (now sys) processId
            ("Process error: " +:+ message +:+ String Js.LF "")
            (logBuffer this))
         this).
Proof. reflexivity. Qed.

(** C10.  For an id without a record the status update returns without
    any effect; so does the exit handler, and the error handler returns
    having changed the log buffer only: no error is raised, no record is
    made, the record map is the one from before. *)
Theorem C10_event_for_unknown_id_is_ignored
    (sys : Env) (processId : string) (this : BgProcessManagerImpl C) :
  JsMap.get processId (processes this) = None ->
  (forall status exitCode,
     updateProcessStatus sys processId status exitCode this = (Return tt, this))
  /\ (forall code, onExit sys processId code this = (Return tt, this))
  /\ (forall message,
        fst (onError sys processId message this) = Return tt
        /\ processes (snd (onError sys processId message this)) = processes this).
Proof.
  intros Hget. split; [|split].
  - intros status exitCode. by apply updateProcessStatus_unknown.
  - intros code. rewrite onExit_unfold. by apply updateProcessStatus_unknown.
  - intros message. rewrite onError_unfold.
    rewrite updateProcessStatus_unknown by exact Hget. done.
Qed.
End Unknown.

(** The theorem at the supervisor of the test suite, which has no record
    for [non-existent-id]; and at one with a record that has exited. *)
Lemma C8_unknown_id_and_settled_stop_witness :
  let exited :=
    BgProcessManager.step Supervisor.countingIds (Supervisor.sysAt 5)
      (BgProcessManager.Emit "id-0" (BgProcessManager.Exit (Some 0)))
      (BgProcessManager.step Supervisor.countingIds (Supervisor.sysAt 1)
         (BgProcessManager.Start Supervisor.echo) Supervisor.mockManager) in
  BgProcessManager.stopProcess (Supervisor.sysAt 1) "non-existent-id" Supervisor.mockManager
  = (Throw (Supervisor.ProcessNotFound "non-existent-id"), Supervisor.mockManager)
  /\ BgProcessManager.restartProcess Supervisor.countingIds (Supervisor.sysAt 1)
       "non-existent-id" Supervisor.mockManager
     = (Throw (Supervisor.ProcessNotFound "non-existent-id"), Supervisor.mockManager)
  /\ BgProcessManager.stopProcess (Supervisor.sysAt 6) "id-0" exited = (Return tt, exited).
Proof.
  intros exited.
  destruct (C8_unknown_id_and_settled_stop Supervisor.countingIds (Supervisor.sysAt 1)
              "non-existent-id" Supervisor.mockManager) as [Hunknown _].
  destruct (Hunknown eq_refl) as [Hstop Hrestart].
  split; [exact Hstop|]. split; [exact Hrestart|].
  destruct (C8_unknown_id_and_settled_stop Supervisor.countingIds (Supervisor.sysAt 6)
              "id-0" exited) as [_ Hsettled].
  eapply Hsettled; [reflexivity|discriminate].
Defined.

(** The theorem at an exit reported for an id the supervisor has no
    record of. *)
Lemma C10_event_for_unknown_id_is_ignored_witness :
  BgProcessManager.onExit (Supervisor.sysAt 7) "gone" (Some 0) Supervisor.mockManager
  = (Return tt, Supervisor.mockManager).
Proof.
  apply (C10_event_for_unknown_id_is_ignored (Supervisor.sysAt 7) "gone"
           Supervisor.mockManager eq_refl).
Defined.

(** ** C2: what the exit and error handlers do to a record *)

Section Handlers.
Import ProcessController BgProcessManager Supervisor.
Context {C : Type} `{!ProcessController C}.
Implicit Types (this : BgProcessManagerImpl C) (sys : Env) (processId : string).

Lemma info_withProcesses_set processId key record this :
  info key (withProcesses (JsMap.set processId record (processes this)) this)
  = if decide (processId = key) then Some (managedProcess record) else info key this.
Proof.
  unfold info, withProcesses. cbn [processes]. rewrite get_set.
  by case_decide.
Qed.

(** C2, as amended.  The exit and error handlers never set a status of
    [running]: an exit with code 0 sets [stopped], any other exit and
    every error set [error].  They apply to the record whatever its
    status is: status, exit code and end time are overwritten with those
    of the notification (the code of the exit or none, the time of the
    notification), the other fields are kept, and no other record
    changes. *)
Theorem C2_handlers_overwrite_the_record
    (sys : Env) (processId : string) (this : BgProcessManagerImpl C)
    (record : ProcessRecord) :
  JsMap.get processId (processes this) = Some record ->
  (forall code,
     let status := if decide (code = Some 0) then stopped else error in
     status <> running
     /\ onExit sys processId code this
        = (Return tt,
           withProcesses
             (JsMap.set processId (settled record status code (Some (now sys)))
                (processes this))
             this)
     /\ info processId (snd (onExit sys processId code this))
        = Some (managedProcess (settled record status code (Some (now sys))))
     /\ (forall key, key <> processId ->
           info key (snd (onExit sys processId code this)) = info key this))
  /\ (forall message,
        info processId (snd (onError sys processId message this))
        = Some (managedProcess (settled record error None (Some (now sys))))
        /\ (forall key, key <> processId ->
              info key (snd (onError sys processId message this)) = info key this)).
Proof.
  intros Hget. split.
  - intros code status.
    assert (Hstatus : status <> running) by (unfold status; case_decide; discriminate).
    split; [exact Hstatus|].
    rewrite onExit_unfold. fold status.
    rewrite (updateProcessStatus_known _ _ _ _ _ _ Hget).
    rewrite decide_True by exact Hstatus.
    split; [reflexivity|]. cbn [snd]. split.
    + rewrite info_withProcesses_set. by rewrite decide_True.
    + intros key Hkey. rewrite info_withProcesses_set.
      by rewrite decide_False by congruence.
  - intros message. rewrite onError_unfold.
    rewrite (updateProcessStatus_known _ _ _ _ _ record) by exact Hget.
    rewrite decide_True by discriminate. cbn [snd].
    unfold withLogBuffer at 2. cbn [processes].
    split.
    + unfold info, withProcesses. cbn [processes]. by rewrite get_set_eq.
    + intros key Hkey. unfold info, withProcesses. cbn [processes].
      by rewrite get_set_ne by congruence.
Qed.
End Handlers.

(** The theorem at the scenario of the specification: [echo hello] is
    started and exits with code 0 at time 5. *)
Lemma C2_handlers_overwrite_the_record_witness :
  let started :=
    BgProcessManager.step Supervisor.countingIds (Supervisor.sysAt 1)
      (BgProcessManager.Start Supervisor.echo) Supervisor.mockManager in
  Supervisor.outcome <$>
    Supervisor.info "id-0"
      (snd (BgProcessManager.onExit (Supervisor.sysAt 5) "id-0" (Some 0) started))
  = Some (stopped, Some 0, Some 5).
Proof.
  intros started.
  destruct (JsMap.get "id-0" (BgProcessManager.processes started)) as [record|] eqn:Hget;
    [|discriminate].
  destruct (C2_handlers_overwrite_the_record (Supervisor.sysAt 5) "id-0" started
              record Hget) as [Hexit _].
  destruct (Hexit (Some 0)) as (_ & _ & -> & _).
  reflexivity.
Defined.

(** C2 as stated fails: a notification for a record that has ended is not
    ignored.  Here a process exits with code 0 at time 5 and is [stopped];
    an error reported at time 9 turns the record into [error], without
    exit code, ended at 9; and a second exit reported at time 9 for the
    stopped record moves its end time. *)
Lemma C2_counterexample_second_notification :
  let started :=
    BgProcessManager.step Supervisor.countingIds (Supervisor.sysAt 1)
      (BgProcessManager.Start Supervisor.echo) Supervisor.mockManager in
  let exited := snd (BgProcessManager.onExit (Supervisor.sysAt 5) "id-0" (Some 0) started) in
  let errored := snd (BgProcessManager.onError (Supervisor.sysAt 9) "id-0" "boom" exited) in
  let exitedAgain := snd (BgProcessManager.onExit (Supervisor.sysAt 9) "id-0" (Some 0) exited) in
  Supervisor.outcome <$> Supervisor.info "id-0" exited = Some (stopped, Some 0, Some 5)
  /\ Supervisor.outcome <$> Supervisor.info "id-0" errored = Some (error, None, Some 9)
  /\ Supervisor.outcome <$> Supervisor.info "id-0" exitedAgain = Some (stopped, Some 0, Some 9)
  /\ Supervisor.info "id-0" errored <> Supervisor.info "id-0" exited
  /\ Supervisor.info "id-0" exitedAgain <> Supervisor.info "id-0" exited.
Proof. vm_compute. repeat split; discriminate. Qed.

(** ** C5: the signals and the wait of a stop *)

Section Stop.
Import ProcessController BgProcessManager Supervisor.
Context {C : Type} `{!ProcessController C}.
Implicit Types (this : BgProcessManagerImpl C) (sys : Env) (processId : string).

Lemma callsSince_advance controller made this :
  callsSince this (advance controller made this) = made.
Proof. unfold callsSince, advance. cbn [calls]. apply drop_app_length. Qed.

Lemma callsSince_stopFailed sys processId record cause controller made this :
  callsSince this (snd (stopFailed sys processId record cause (advance controller made this)))
  = made.
Proof. unfold stopFailed, withProcesses. cbn [snd]. apply callsSince_advance. Qed.

Lemma callsSince_stopWaits sys processId record controller made this :
  callsSince this (snd (stopWaits sys processId record controller made this))
  = made ++ [CallWaitForExit (MP.pid (managedProcess record)) None].
Proof.
  unfold stopWaits.
  destruct (waitForExit _ None controller) as [[[]|cause] controller'].
  - apply callsSince_advance.
  - apply callsSince_stopFailed.
Qed.

(** The calls a stop of a running process makes, by the answers of the
    first and of the forceful signal. *)
Lemma stopProcess_calls sys processId this record :
  JsMap.get processId (processes this) = Some record ->
  MP.status (managedProcess record) = running ->
  let pid := MP.pid (managedProcess record) in
  callsSince this (snd (stopProcess sys processId this)) =
    match fst (kill pid None (processController this)) with
    | Throw _ => [CallKill pid None]
    | Return true => [CallKill pid None; CallWaitForExit pid None]
    | Return false =>
        match fst (kill pid (Some true)
                     (snd (kill pid None (processController this)))) with
        | Throw _ => [CallKill pid None; CallKill pid (Some true)]
        | Return _ =>
            [CallKill pid None; CallKill pid (Some true); CallWaitForExit pid None]
        end
    end.
Proof.
  intros Hget Hstatus pid.
  rewrite (stopProcess_running sys processId this record Hget Hstatus). fold pid.
  destruct (kill pid None (processController this)) as [[[]|cause] c1]; cbn [fst snd].
  - apply callsSince_stopWaits.
  - destruct (kill pid (Some true) c1) as [[killed|cause] c2]; cbn [fst].
    + apply callsSince_stopWaits.
    + apply callsSince_stopFailed.
  - apply callsSince_stopFailed.
Qed.

(** C5, as amended.  A stop of a running process first sends the
    non-forceful signal, [kill(pid)].  It sends the forceful one,
    [kill(pid, true)], exactly when the first call answered that the
    signal was not delivered.  Unless one of these calls throws it then
    waits with [waitForExit(pid)]: no timeout is passed, so the bound of
    the wait is the default of the controller, 5000 ms, and no
    configuration enters.  When nothing throws, the stop returns and no
    record has changed.  When a call throws, the record is settled as
    [error], without exit code, ended now, and the stop fails with
    [TerminationFailed], which carries the message of the cause and the
    process id.  In [ProcessControllerImpl.kill] the non-forceful
    signal is SIGTERM and the forceful one SIGKILL, and a pid without a
    live handle is answered with [false], no signal sent. *)
Theorem C5_stop_signals_then_waits
    (sys : Env) (processId : string) (this : BgProcessManagerImpl C)
    (record : ProcessRecord) :
  JsMap.get processId (processes this) = Some record ->
  MP.status (managedProcess record) = running ->
  let pid := MP.pid (managedProcess record) in
  let first := kill pid None (processController this) in
  let made := callsSince this (snd (stopProcess sys processId this)) in
  stopProcess sys processId this =
    match first with
    | (Throw cause, c1) =>
        stopFailed sys processId record cause (advance c1 [CallKill pid None] this)
    | (Return true, c1) =>
        stopWaits sys processId record c1 [CallKill pid None] this
    | (Return false, c1) =>
        match kill pid (Some true) c1 with
        | (Throw cause, c2) =>
            stopFailed sys processId record cause
              (advance c2 [CallKill pid None; CallKill pid (Some true)] this)
        | (Return _, c2) =>
            stopWaits sys processId record c2
              [CallKill pid None; CallKill pid (Some true)] this
        end
    end
  /\ (exists rest, made = CallKill pid None :: rest)
  /\ (CallKill pid (Some true) ∈ made <-> fst first = Return false)
  /\ (forall timeoutMs, CallWaitForExit pid timeoutMs ∈ made ->
        timeoutMs = None /\ last made = Some (CallWaitForExit pid None)
        /\ effectiveTimeoutMs timeoutMs = 5000)
  /\ (forall cause this',
        stopProcess sys processId this = (Throw cause, this') ->
        (exists thrown, cause = TerminationFailed processId thrown)
        /\ info processId this'
           = Some (managedProcess (settled record error None (Some (now sys)))))
  /\ (forall this',
        stopProcess sys processId this = (Return tt, this') ->
        processes this' = processes this
        /\ last made = Some (CallWaitForExit pid None))
  /\ (forall (ChildProcess : Type) childProcessKill (handles : gmap Z ChildProcess),
        match handles !! pid with
        | None =>
            forall force,
              ProcessControllerImpl.kill childProcessKill pid force handles
              = (Return false, handles)
        | Some childProcess =>
            fst (ProcessControllerImpl.kill childProcessKill pid None handles)
            = fst (childProcessKill ProcessControllerImpl.SIGTERM childProcess)
            /\ fst (ProcessControllerImpl.kill childProcessKill pid (Some true) handles)
               = fst (childProcessKill ProcessControllerImpl.SIGKILL childProcess)
        end).
Proof.
  intros Hget Hstatus pid first made.
  pose proof (stopProcess_running sys processId this record Hget Hstatus) as Hrun.
  pose proof (stopProcess_calls sys processId this record Hget Hstatus) as Hcalls.
  cbv zeta in Hrun, Hcalls. fold pid in Hrun, Hcalls. fold made in Hcalls.
  fold first in Hrun, Hcalls.
  split; [exact Hrun|].
  assert (Hinfo : forall cause controller made',
            info processId
              (snd (stopFailed sys processId record cause (advance controller made' this)))
            = Some (managedProcess (settled record error None (Some (now sys))))).
  { intros. unfold stopFailed. cbn [snd]. unfold info, withProcesses.
    cbn [processes]. by rewrite get_set_eq. }
  split; [|split; [|split; [|split; [|split]]]].
  - rewrite Hcalls. destruct (fst first) as [[]|]; [eauto..|]; [|eauto].
    destruct (fst (kill pid (Some true) (snd first))); eauto.
  - rewrite Hcalls. destruct (fst first) as [[]|]; cbn.
    + split; [|discriminate].
      intros Hin. repeat (apply elem_of_cons in Hin as [[=]|Hin]).
      by apply not_elem_of_nil in Hin.
    + split; [reflexivity|]. intros _.
      destruct (fst (kill pid (Some true) (snd first)));
        apply list_elem_of_further, list_elem_of_here.
    + split; [|discriminate].
      intros Hin. repeat (apply elem_of_cons in Hin as [[=]|Hin]).
      by apply not_elem_of_nil in Hin.
  - intros timeoutMs. rewrite Hcalls.
    destruct (fst first) as [[]|]; [|destruct (fst (kill pid (Some true) (snd first)))|];
      intros Hin; repeat (apply elem_of_cons in Hin as [Heq|Hin]);
      try (by apply not_elem_of_nil in Hin); try discriminate;
      injection Heq as ->; done.
  - intros cause this'. rewrite Hrun. unfold stopWaits. fold pid.
    destruct first as [[[]|thrown] c1].
    + destruct (waitForExit pid None c1) as [[[]|thrown] c2]; [discriminate|].
      intros Heq. rewrite <- (f_equal snd Heq) at 1. rewrite Hinfo.
      split; [|reflexivity]. injection Heq as <- _. by exists thrown.
    + destruct (kill pid (Some true) c1) as [[killed|thrown] c2].
      * destruct (waitForExit pid None c2) as [[[]|thrown] c3]; [discriminate|].
        intros Heq. rewrite <- (f_equal snd Heq) at 1. rewrite Hinfo.
        split; [|reflexivity]. injection Heq as <- _. by exists thrown.
      * intros Heq. rewrite <- (f_equal snd Heq) at 1. rewrite Hinfo.
        split; [|reflexivity]. injection Heq as <- _. by exists thrown.
    + intros Heq. rewrite <- (f_equal snd Heq) at 1. rewrite Hinfo.
      split; [|reflexivity]. injection Heq as <- _. by exists thrown.
  - intros this' Hret. rewrite Hrun in Hret. rewrite Hcalls.
    unfold stopWaits, stopFailed in Hret. fold pid in Hret.
    destruct first as [[[]|thrown] c1]; cbn [fst snd] in *.
    + destruct (waitForExit pid None c1) as [[[]|thrown] c2]; [|discriminate].
      injection Hret as <-. split; reflexivity.
    + destruct (kill pid (Some true) c1) as [[killed|thrown] c2];
        cbn [fst]; [|discriminate].
      destruct (waitForExit pid None c2) as [[[]|thrown] c3]; [|discriminate].
      injection Hret as <-. split; reflexivity.
    + discriminate.
  - intros ChildProcess childProcessKill handles.
    unfold ProcessControllerImpl.kill.
    destruct (handles !! pid) as [childProcess|]; [|reflexivity].
    cbn [from_option id]. split.
    + destruct (childProcessKill ProcessControllerImpl.SIGTERM childProcess);
        reflexivity.
    + destruct (childProcessKill ProcessControllerImpl.SIGKILL childProcess);
        reflexivity.
Qed.
End Stop.

(** The theorem at the supervisor of the test suite with [echo hello]
    running as pid 1000. *)
Lemma C5_stop_signals_then_waits_witness :
  let started :=
    BgProcessManager.step Supervisor.countingIds (Supervisor.sysAt 1)
      (BgProcessManager.Start Supervisor.echo) Supervisor.mockManager in
  exists rest,
    Supervisor.callsSince started
      (snd (BgProcessManager.stopProcess (Supervisor.sysAt 2) "id-0" started))
    = ProcessController.CallKill 1000 None :: rest.
Proof.
  intros started.
  edestruct (C5_stop_signals_then_waits (Supervisor.sysAt 2) "id-0" started)
    as (_ & Hfirst & _); [reflexivity|reflexivity|].
  exact Hfirst.
Defined.

(** C5 as stated fails where it names the configured timeout: with a
    termination timeout of 100 ms configured, the stop calls
    [waitForExit(pid)] without a timeout, which waits up to 5000 ms. *)
Lemma C5_counterexample_configured_timeout :
  let config :=
    {| ConfigProvider.maxLogLinesPerProcesses := 1000;
       ConfigProvider.maxConcurrentProcesses := 10;
       ConfigProvider.processTerminationTimeoutMs := 100;
       ConfigProvider.loggingEnabled := None |} in
  let started :=
    BgProcessManager.step Supervisor.countingIds (Supervisor.sysAt 1)
      (BgProcessManager.Start Supervisor.echo)
      (BgProcessManager.create (ProcessLogBuffer.create config)
         MockProcessController.create) in
  Supervisor.callsSince started
    (snd (BgProcessManager.stopProcess (Supervisor.sysAt 2) "id-0" started))
  = [ProcessController.CallKill 1000 None; ProcessController.CallWaitForExit 1000 None]
  /\ ProcessController.effectiveTimeoutMs None = 5000
  /\ ConfigProvider.getProcessTerminationTimeoutMs config = 100
  /\ ProcessController.effectiveTimeoutMs None
     <> ConfigProvider.getProcessTerminationTimeoutMs config.
Proof. vm_compute. repeat split; discriminate. Qed.

(** ** The invariant of the supervisor *)

Section Preserves.
Import ProcessController BgProcessManager Supervisor.
Context {C : Type} `{!ProcessController C}.
Variable P : BgProcessManagerImpl C -> Prop.

Lemma preserves_ret {A} (a : A) : preserves P (ret a).
Proof. intros this Hthis. exact Hthis. Qed.

Lemma preserves_throw {A} (err : Thrown) : preserves P (@throw C A err).
Proof. intros this Hthis. exact Hthis. Qed.

Lemma preserves_bind {A B} (m : M C A) (k : A -> M C B) :
  preserves P m -> (forall a, preserves P (k a)) -> preserves P (bind m k).
Proof.
  intros Hm Hk this Hthis. unfold bind. specialize (Hm this Hthis).
  destruct (m this) as [[a|err] this']; cbn [snd] in *; [by apply Hk|done].
Qed.

Lemma preserves_tryCatch {A} (body : M C A) (handler : Thrown -> M C A) :
  preserves P body -> (forall err, preserves P (handler err)) ->
  preserves P (tryCatch body handler).
Proof.
  intros Hbody Hhandler this Hthis. unfold tryCatch.
  specialize (Hbody this Hthis).
  destruct (body this) as [[a|err] this']; cbn [snd] in *; [done|by apply Hhandler].
Qed.

Lemma preserves_allSettled (stops : list (M C unit)) :
  Forall (preserves P) stops -> preserves P (allSettled stops).
Proof.
  induction 1 as [|stop rest Hstop _ IH]; cbn [allSettled].
  - apply preserves_ret.
  - apply preserves_bind; [|intros _; exact IH].
    apply preserves_tryCatch; [exact Hstop|]. intros _. apply preserves_ret.
Qed.

(** However its parts end, [allSettled] returns. *)
Lemma allSettled_returns (stops : list (M C unit)) this :
  fst (allSettled stops this) = Return tt.
Proof.
  revert this. induction stops as [|stop rest IH]; intros this; [reflexivity|].
  cbn [allSettled]. unfold bind, tryCatch, ret.
  destruct (stop this) as [[[]|err] this']; apply IH.
Qed.
End Preserves.

Section Invariant.
Import ProcessController BgProcessManager Supervisor.
Context {C : Type} `{!ProcessController C}.
Variable uuidv4 : nat -> string.
Implicit Types (this : BgProcessManagerImpl C) (sys : Env) (processId : string).

Lemma elem_of_minted id this :
  id ∈ minted uuidv4 this <-> exists n, (n < uuids this)%nat /\ id = uuidv4 n.
Proof.
  unfold minted. rewrite list_elem_of_fmap. split.
  - intros (n & -> & Hn). apply elem_of_seq in Hn. exists n. split; [lia|done].
  - intros (n & Hn & ->). exists n. split; [done|]. apply elem_of_seq. lia.
Qed.

Lemma minted_mono this this' :
  (uuids this <= uuids this')%nat -> minted uuidv4 this ⊆ minted uuidv4 this'.
Proof.
  intros Hle id. rewrite !elem_of_minted. intros (n & Hn & ->).
  exists n. split; [lia|done].
Qed.

(** The invariant carries over to a state whose records are old ones or
    consistent ones under a key that was handed out. *)
Lemma invariant_carries this this' :
  invariant uuidv4 this ->
  (uuids this <= uuids this')%nat ->
  NoDup (JsMap.keys (processes this')) ->
  (forall key record,
     JsMap.get key (processes this') = Some record ->
     JsMap.get key (processes this) = Some record
     \/ (MP.id (managedProcess record) = key
         /\ consistent (managedProcess record)
         /\ key ∈ minted uuidv4 this')) ->
  invariant uuidv4 this'.
Proof.
  intros [_ Hold] Hle Hnodup Hrecords. split; [exact Hnodup|].
  intros key record Hget.
  destruct (Hrecords key record Hget) as [Hsame|Hnew]; [|exact Hnew].
  destruct (Hold key record Hsame) as (Hid & Hcons & Hminted).
  split; [exact Hid|]. split; [exact Hcons|]. by apply (minted_mono this).
Qed.

Lemma invariant_same_records this this' :
  invariant uuidv4 this ->
  processes this' = processes this -> (uuids this <= uuids this')%nat ->
  invariant uuidv4 this'.
Proof.
  intros Hinv Hprocs Hle. apply (invariant_carries this); [done..| |].
  - rewrite Hprocs. apply Hinv.
  - intros key record. rewrite Hprocs. by left.
Qed.

Lemma invariant_set this this' key record :
  invariant uuidv4 this ->
  processes this' = JsMap.set key record (processes this) ->
  (uuids this <= uuids this')%nat ->
  MP.id (managedProcess record) = key ->
  consistent (managedProcess record) ->
  key ∈ minted uuidv4 this' ->
  invariant uuidv4 this'.
Proof.
  intros Hinv Hprocs Hle Hid Hcons Hminted.
  apply (invariant_carries this); [done..| |].
  - rewrite Hprocs. apply NoDup_keys_set, Hinv.
  - intros key' record'. rewrite Hprocs, get_set.
    case_decide as Hkey; [|by left].
    intros [= <-]. subst key'. by right.
Qed.

Lemma invariant_delete this this' key :
  invariant uuidv4 this ->
  processes this' = JsMap.delete key (processes this) ->
  (uuids this <= uuids this')%nat ->
  invariant uuidv4 this'.
Proof.
  intros Hinv Hprocs Hle. apply (invariant_carries this); [done..| |].
  - rewrite Hprocs. apply NoDup_keys_delete, Hinv.
  - intros key' record'. rewrite Hprocs.
    destruct (decide (key = key')) as [->|Hne].
    + by rewrite get_delete_eq.
    + rewrite get_delete_ne by done. by left.
Qed.

Lemma invariant_create logBuffer (controller : C) :
  invariant uuidv4 (create logBuffer controller).
Proof. split; [apply NoDup_nil_2|]. intros key record [=]. Qed.

(** Settling a record keeps the invariant when the new status and exit
    code fit each other. *)
Lemma invariant_updateProcessStatus sys processId status exitCode :
  (status = stopped /\ exitCode = Some 0) \/ (status = error /\ exitCode <> Some 0) ->
  preserves (C:=C) (invariant uuidv4) (updateProcessStatus sys processId status exitCode).
Proof.
  intros Hfit this Hinv.
  destruct (JsMap.get processId (processes this)) as [record|] eqn:Hget.
  - rewrite (updateProcessStatus_known _ _ _ _ _ _ Hget). cbn [snd].
    destruct (proj2 Hinv _ _ Hget) as (Hid & _ & Hminted).
    eapply (invariant_set this); [exact Hinv|reflexivity|done|exact Hid| |exact Hminted].
    unfold consistent, settled. cbn.
    destruct Hfit as [[-> ->]|[-> Hcode]]; cbn; (split; [eauto|done]).
  - by rewrite updateProcessStatus_unknown.
Qed.

Lemma invariant_startProcess sys config :
  preserves (C:=C) (invariant uuidv4) (startProcess uuidv4 sys config).
Proof.
  intros this Hinv. rewrite startProcess_unfold.
  destruct (negb _); [exact Hinv|]. cbn zeta.
  destruct (spawn _ (processController this)) as [[spawnResult|cause] controller];
    cbn [snd].
  - eapply (invariant_set this); [exact Hinv|reflexivity|cbn; lia|reflexivity| |].
    + unfold consistent. cbn. done.
    + apply elem_of_minted. exists (uuids this). cbn. split; [lia|done].
  - apply (invariant_same_records this); [exact Hinv|reflexivity|cbn; lia].
Qed.

Lemma invariant_stopFailed sys processId record cause this controller made :
  invariant uuidv4 this ->
  JsMap.get processId (processes this) = Some record ->
  invariant uuidv4
    (snd (stopFailed sys processId record cause (advance controller made this))).
Proof.
  intros Hinv Hget. unfold stopFailed. cbn [snd].
  destruct (proj2 Hinv _ _ Hget) as (Hid & _ & Hminted).
  eapply (invariant_set this); [exact Hinv|reflexivity|done|exact Hid| |exact Hminted].
  unfold consistent. cbn. split; [eauto|done].
Qed.

Lemma invariant_stopWaits sys processId record this controller made :
  invariant uuidv4 this ->
  JsMap.get processId (processes this) = Some record ->
  invariant uuidv4 (snd (stopWaits sys processId record controller made this)).
Proof.
  intros Hinv Hget. unfold stopWaits.
  destruct (waitForExit _ None controller) as [[[]|cause] controller'].
  - by apply (invariant_same_records this).
  - by apply invariant_stopFailed.
Qed.

Lemma invariant_stopProcess sys processId :
  preserves (C:=C) (invariant uuidv4) (stopProcess sys processId).
Proof.
  intros this Hinv.
  destruct (JsMap.get processId (processes this)) as [record|] eqn:Hget;
    [|by rewrite stopProcess_unknown].
  destruct (decide (MP.status (managedProcess record) = running)) as [Hrun|Hrun];
    [|by rewrite (stopProcess_settled _ _ _ _ Hget)].
  rewrite (stopProcess_running _ _ _ _ Hget Hrun).
  destruct (kill _ None (processController this)) as [[[]|cause] c1].
  - by apply invariant_stopWaits.
  - destruct (kill _ (Some true) c1) as [[killed|cause] c2].
    + by apply invariant_stopWaits.
    + by apply invariant_stopFailed.
  - by apply invariant_stopFailed.
Qed.

Lemma invariant_restartProcess sys processId :
  preserves (C:=C) (invariant uuidv4) (restartProcess uuidv4 sys processId).
Proof.
  intros this Hinv. unfold restartProcess.
  destruct (JsMap.get processId (processes this)) as [record|]; [|exact Hinv].
  revert this Hinv. apply preserves_bind.
  { case_decide; [apply invariant_stopProcess|apply preserves_ret]. }
  intros _. apply preserves_bind.
  { intros this Hinv. by apply (invariant_delete this _ processId). }
  intros _. apply preserves_bind.
  { intros this Hinv. by apply (invariant_same_records this). }
  intros _. apply preserves_bind; [apply invariant_startProcess|].
  intros newProcess. apply preserves_ret.
Qed.

Lemma invariant_stopAllProcesses sys :
  preserves (C:=C) (invariant uuidv4) (stopAllProcesses sys).
Proof.
  intros this Hinv. unfold stopAllProcesses.
  apply preserves_allSettled; [|exact Hinv].
  apply Forall_forall. intros stop (id & -> & _)%list_elem_of_fmap.
  apply invariant_stopProcess.
Qed.

Lemma invariant_deliver sys processId event :
  preserves (C:=C) (invariant uuidv4) (deliver sys processId event).
Proof.
  destruct event as [data|data|code|message]; cbn [deliver].
  - intros this Hinv. by apply (invariant_same_records this).
  - intros this Hinv. by apply (invariant_same_records this).
  - unfold onExit. apply invariant_updateProcessStatus.
    case_decide as Hcode; [left|right]; done.
  - unfold onError. apply preserves_bind.
    + intros this Hinv. by apply (invariant_same_records this).
    + intros _. apply invariant_updateProcessStatus. right. done.
Qed.

Lemma invariant_step sys action this :
  invariant uuidv4 this -> invariant uuidv4 (step uuidv4 sys action this).
Proof.
  intros Hinv. destruct action as [config|processId|processId| |processId event];
    cbn [step].
  - by apply invariant_startProcess.
  - by apply invariant_stopProcess.
  - by apply invariant_restartProcess.
  - by apply invariant_stopAllProcesses.
  - case_decide; [by apply invariant_deliver|done].
Qed.

Lemma invariant_run trace this :
  invariant uuidv4 this -> invariant uuidv4 (run uuidv4 trace this).
Proof.
  revert this. induction trace as [|[sys action] trace IH]; intros this Hinv.
  - exact Hinv.
  - cbn [run]. apply IH. by apply invariant_step.
Qed.

Lemma reachable_invariant this : reachable uuidv4 this -> invariant uuidv4 this.
Proof.
  intros (logBuffer & controller & trace & ->).
  apply invariant_run, invariant_create.
Qed.

Lemma invariant_wellFormed this : invariant uuidv4 this -> wellFormed this.
Proof.
  intros [Hnodup Hrecords]. split; [exact Hnodup|].
  intros key record Hget. by destruct (Hrecords key record Hget).
Qed.
End Invariant.

(** ** C4: end time and exit code, by status *)

Section Consistency.
Import ProcessController BgProcessManager Supervisor.
Context {C : Type} `{!ProcessController C}.
Variable uuidv4 : nat -> string.

(** C4, as amended.  In every reachable state of the supervisor and for
    every record in it: the end time is present exactly when the status
    is not [running]; a running record has no exit code; a stopped
    record has the exit code 0; a record in [error] has an exit code
    other than 0 or no exit code at all. *)
Theorem C4_end_time_and_exit_code_by_status
    (this : BgProcessManagerImpl C) (processId : string) (p : ManagedProcess) :
  reachable uuidv4 this ->
  info processId this = Some p ->
  (is_Some (MP.endTime p) <-> MP.status p <> running)
  /\ (MP.status p = running -> MP.endTime p = None /\ MP.exitCode p = None)
  /\ (MP.status p = stopped -> MP.exitCode p = Some 0)
  /\ (MP.status p = error -> MP.exitCode p <> Some 0)
  /\ (is_Some (MP.exitCode p) -> MP.status p <> running).
Proof.
  intros Hreach Hinfo. apply reachable_invariant in Hreach as [_ Hrecords].
  unfold info in Hinfo.
  destruct (JsMap.get processId (processes this)) as [record|] eqn:Hget;
    [|discriminate].
  injection Hinfo as <-.
  destruct (Hrecords _ _ Hget) as (_ & Hcons & _).
  unfold consistent in Hcons.
  destruct (MP.status (managedProcess record)); destruct Hcons as [Hend Hcode];
    repeat split; intros; try done; try congruence;
    match goal with
    | H : is_Some _ |- _ => rewrite ?Hend, ?Hcode in H; by destruct H as [? [=]]
    end.
Qed.
End Consistency.

(** The theorem at the scenario of the specification: after the exit with
    code 0 the record is stopped, with exit code 0 and an end time. *)
Lemma C4_end_time_and_exit_code_by_status_witness :
  let this :=
    BgProcessManager.run Supervisor.countingIds Supervisor.echoThenExit
      Supervisor.mockManager in
  exists p,
    Supervisor.info "id-0" this = Some p
    /\ Supervisor.outcome p = (stopped, Some 0, Some 5)
    /\ (is_Some (ManagedProcess.endTime p) <-> ManagedProcess.status p <> running).
Proof.
  intros this.
  assert (Hreach : BgProcessManager.reachable Supervisor.countingIds this).
  { exists (ProcessLogBuffer.create Appends.testConfig), MockProcessController.create,
      Supervisor.echoThenExit. reflexivity. }
  eexists. split; [reflexivity|]. split; [reflexivity|].
  eapply (C4_end_time_and_exit_code_by_status Supervisor.countingIds this "id-0");
    [exact Hreach|reflexivity].
Defined.

(** C4 as stated fails for a record that is in [error] through an error
    event of its handle: it has an end time and no exit code.  The same
    holds after an exit without code (a process ended by a signal). *)
Lemma C4_counterexample_error_without_exit_code :
  let this :=
    BgProcessManager.run Supervisor.countingIds Supervisor.echoThenError
      Supervisor.mockManager in
  let signalled :=
    BgProcessManager.run Supervisor.countingIds
      [(Supervisor.sysAt 1, BgProcessManager.Start Supervisor.echo);
       (Supervisor.sysAt 4, BgProcessManager.Emit "id-0" (BgProcessManager.Exit None))]
      Supervisor.mockManager in
  BgProcessManager.reachable Supervisor.countingIds this
  /\ Supervisor.outcome <$> Supervisor.info "id-0" this = Some (error, None, Some 9)
  /\ BgProcessManager.reachable Supervisor.countingIds signalled
  /\ Supervisor.outcome <$> Supervisor.info "id-0" signalled = Some (error, None, Some 4).
Proof.
  intros this signalled. split; [|split; [|split]].
  - exists (ProcessLogBuffer.create Appends.testConfig), MockProcessController.create,
      Supervisor.echoThenError. reflexivity.
  - reflexivity.
  - by eexists _, _, _.
  - reflexivity.
Qed.

(** ** C7: restart *)

Section Restart.
Import ProcessController BgProcessManager Supervisor.
Context {C : Type} `{!ProcessController C}.
Variable uuidv4 : nat -> string.
Implicit Types (this : BgProcessManagerImpl C) (sys : Env) (processId : string).

(** A stop that returns has changed neither a record nor a buffer and
    has drawn no id. *)
Lemma stopProcess_returns sys processId this this' :
  stopProcess sys processId this = (Return tt, this') ->
  processes this' = processes this
  /\ logBuffer this' = logBuffer this
  /\ uuids this' = uuids this.
Proof.
  destruct (JsMap.get processId (processes this)) as [record|] eqn:Hget;
    [|by rewrite stopProcess_unknown].
  destruct (decide (MP.status (managedProcess record) = running)) as [Hrun|Hrun].
  - rewrite (stopProcess_running _ _ _ _ Hget Hrun).
    unfold stopWaits, stopFailed.
    destruct (kill _ None (processController this)) as [[[]|cause] c1].
    + destruct (waitForExit _ None c1) as [[[]|cause] c2]; [|discriminate].
      by intros [= <-].
    + destruct (kill _ (Some true) c1) as [[killed|cause] c2]; [|discriminate].
      destruct (waitForExit _ None c2) as [[[]|cause] c3]; [|discriminate].
      by intros [= <-].
    + discriminate.
  - rewrite (stopProcess_settled _ _ _ _ Hget Hrun). by intros [= <-].
Qed.

Lemma restartProcess_known sys processId this record :
  JsMap.get processId (processes this) = Some record ->
  restartProcess uuidv4 sys processId this =
    match (if decide (MP.status (managedProcess record) = running)
           then stopProcess sys processId this
           else (Return tt, this)) with
    | (Throw err, afterStop) => (Throw err, afterStop)
    | (Return _, afterStop) =>
        match startProcess uuidv4 sys (restartConfig record)
                (forgotten processId afterStop) with
        | (Return newProcess, started) => (Return (MP.id newProcess), started)
        | (Throw err, started) => (Throw err, started)
        end
    end.
Proof.
  intros Hget. unfold restartProcess. rewrite Hget. unfold bind at 1.
  case_decide.
  - destruct (stopProcess sys processId this) as [[[]|err] afterStop]; [|reflexivity].
    unfold bind, setProcesses, setLogBuffer, ret.
    cbn [processes logBuffer].
    change (startProcess uuidv4 sys _ _)
      with (startProcess uuidv4 sys (restartConfig record) (forgotten processId afterStop)).
    destruct (startProcess _ _ _ _) as [[newProcess|err] started]; reflexivity.
  - unfold ret at 1. unfold bind, setProcesses, setLogBuffer, ret.
    cbn [processes logBuffer].
    change (startProcess uuidv4 sys _ _)
      with (startProcess uuidv4 sys (restartConfig record) (forgotten processId this)).
    destruct (startProcess _ _ _ _) as [[newProcess|err] started]; reflexivity.
Qed.

Hypothesis uuidv4_inj : Inj (=) (=) uuidv4.

Lemma NoDup_minted this : NoDup (minted uuidv4 this).
Proof. unfold minted. apply NoDup_fmap_2; [exact uuidv4_inj|apply NoDup_seq]. Qed.

(** The next id is none of those handed out before. *)
Lemma next_id_fresh this : uuidv4 (uuids this) ∉ minted uuidv4 this.
Proof.
  rewrite elem_of_minted. intros (n & Hn & Heq).
  apply uuidv4_inj in Heq. lia.
Qed.

(** *** A retired id stays retired *)

Lemma retired_carries processId this this' :
  retired uuidv4 processId this ->
  (uuids this <= uuids this')%nat ->
  JsMap.get processId (processes this') = None ->
  retired uuidv4 processId this'.
Proof.
  intros [Hminted _] Hle Hget. split; [|exact Hget]. by apply (minted_mono _ this).
Qed.

Lemma retired_updateProcessStatus processId sys key status exitCode :
  preserves (C:=C) (retired uuidv4 processId)
    (updateProcessStatus sys key status exitCode).
Proof.
  intros this Hret.
  destruct (JsMap.get key (processes this)) as [record|] eqn:Hget.
  - rewrite (updateProcessStatus_known _ _ _ _ _ _ Hget). cbn [snd].
    apply (retired_carries _ this); [done..|]. cbn [withProcesses processes].
    rewrite get_set_ne; [apply Hret|]. intros ->. destruct Hret as [_ Hnone]. congruence.
  - by rewrite updateProcessStatus_unknown.
Qed.

Lemma retired_startProcess processId sys config :
  preserves (C:=C) (retired uuidv4 processId) (startProcess uuidv4 sys config).
Proof.
  intros this Hret. rewrite startProcess_unfold.
  destruct (negb _); [exact Hret|]. cbn zeta.
  destruct (spawn _ (processController this)) as [[spawnResult|cause] controller];
    cbn [snd]; (apply (retired_carries _ this); [exact Hret|cbn; lia|]); cbn [processes spawned].
  - rewrite get_set_ne; [apply Hret|].
    intros Heq. apply (next_id_fresh this). rewrite Heq. apply Hret.
  - apply Hret.
Qed.

Lemma retired_stopProcess processId sys key :
  preserves (C:=C) (retired uuidv4 processId) (stopProcess sys key).
Proof.
  intros this Hret.
  assert (Hfailed : forall record cause controller made,
            JsMap.get key (processes this) = Some record ->
            retired uuidv4 processId
              (snd (stopFailed sys key record cause (advance controller made this)))).
  { intros record cause controller made Hget. unfold stopFailed. cbn [snd].
    apply (retired_carries _ this); [done..|]. cbn [withProcesses processes advance].
    rewrite get_set_ne; [apply Hret|]. intros ->. destruct Hret as [_ Hnone]. congruence. }
  assert (Hwaits : forall record controller made,
            JsMap.get key (processes this) = Some record ->
            retired uuidv4 processId
              (snd (stopWaits sys key record controller made this))).
  { intros record controller made Hget. unfold stopWaits.
    destruct (waitForExit _ None controller) as [[[]|cause] controller'].
    - cbn [snd]. apply (retired_carries _ this); [done..|]. apply Hret.
    - by apply Hfailed. }
  destruct (JsMap.get key (processes this)) as [record|] eqn:Hget;
    [|by rewrite stopProcess_unknown].
  destruct (decide (MP.status (managedProcess record) = running)) as [Hrun|Hrun];
    [|by rewrite (stopProcess_settled _ _ _ _ Hget)].
  rewrite (stopProcess_running _ _ _ _ Hget Hrun).
  destruct (kill _ None (processController this)) as [[[]|cause] c1]; [by apply Hwaits| |by apply Hfailed].
  destruct (kill _ (Some true) c1) as [[killed|cause] c2]; [by apply Hwaits|by apply Hfailed].
Qed.

Lemma retired_forgotten processId key this :
  retired uuidv4 processId this -> retired uuidv4 processId (forgotten key this).
Proof.
  intros Hret. apply (retired_carries _ this); [done..|].
  cbn [forgotten withLogBuffer withProcesses processes].
  destruct (decide (key = processId)) as [->|Hne].
  - apply get_delete_eq.
  - rewrite get_delete_ne by done. apply Hret.
Qed.

Lemma retired_restartProcess processId sys key :
  preserves (C:=C) (retired uuidv4 processId) (restartProcess uuidv4 sys key).
Proof.
  intros this Hret.
  destruct (JsMap.get key (processes this)) as [record|] eqn:Hget.
  - rewrite (restartProcess_known _ _ _ _ Hget).
    assert (Hstop : retired uuidv4 processId
              (snd (if decide (MP.status (managedProcess record) = running)
                    then stopProcess sys key this else (Return tt, this)))).
    { case_decide; [by apply retired_stopProcess|exact Hret]. }
    destruct (if decide _ then _ else _) as [[[]|err] afterStop]; [|exact Hstop].
    cbn [snd] in Hstop. apply (retired_forgotten _ key) in Hstop.
    apply (retired_startProcess _ sys (restartConfig record)) in Hstop.
    destruct (startProcess _ _ _ _) as [[newProcess|err] started]; exact Hstop.
  - unfold restartProcess. by rewrite Hget.
Qed.

Lemma retired_deliver processId sys key event :
  preserves (C:=C) (retired uuidv4 processId) (deliver sys key event).
Proof.
  destruct event as [data|data|code|message]; cbn [deliver].
  - intros this Hret.
    apply (retired_carries _ this); [exact Hret|reflexivity|apply Hret].
  - intros this Hret.
    apply (retired_carries _ this); [exact Hret|reflexivity|apply Hret].
  - apply retired_updateProcessStatus.
  - unfold onError. apply preserves_bind.
    + intros this Hret.
      apply (retired_carries _ this); [exact Hret|reflexivity|apply Hret].
    + intros _. apply retired_updateProcessStatus.
Qed.

Lemma retired_step processId sys action this :
  retired uuidv4 processId this ->
  retired uuidv4 processId (step uuidv4 sys action this).
Proof.
  intros Hret. destruct action as [config|key|key| |key event]; cbn [step].
  - by apply retired_startProcess.
  - by apply retired_stopProcess.
  - by apply retired_restartProcess.
  - unfold stopAllProcesses. apply preserves_allSettled; [|exact Hret].
    apply Forall_forall. intros stop (id & -> & _)%list_elem_of_fmap.
    apply retired_stopProcess.
  - case_decide; [by apply retired_deliver|exact Hret].
Qed.

Lemma retired_run processId trace this :
  retired uuidv4 processId this ->
  retired uuidv4 processId (run uuidv4 trace this).
Proof.
  revert this. induction trace as [|[sys action] trace IH]; intros this Hret;
    [exact Hret|].
  cbn [run]. apply IH. by apply retired_step.
Qed.
End Restart.

Section RestartedId.
Import ProcessController BgProcessManager Supervisor.
Context {C : Type} `{!ProcessController C}.
Variable uuidv4 : nat -> string.
Hypothesis uuidv4_inj : Inj (=) (=) uuidv4.
Implicit Types (this : BgProcessManagerImpl C) (sys : Env) (processId : string).

(** An id without a record is unknown to every operation. *)
Lemma unknown_id_operations sys processId lines this :
  JsMap.get processId (processes this) = None ->
  stopProcess sys processId this = (Throw (ProcessNotFound processId), this)
  /\ restartProcess uuidv4 sys processId this
     = (Throw (ProcessNotFound processId), this)
  /\ getProcessInfo processId this = (Return None, this)
  /\ getProcessLogs sys processId lines this = (Return None, this).
Proof.
  intros Hget. split; [by apply stopProcess_unknown|].
  split; [by apply restartProcess_unknown|].
  unfold getProcessInfo, getProcessLogs. by rewrite Hget.
Qed.

(** C7, as amended.  Let the id generator never return a value twice.
    When a restart of an existing record returns, the id it returns is
    new: it differs from the old id and from every id handed out
    before, and the ids handed out so far are pairwise distinct.  The
    old record is gone from the map and the buffer of the old id is
    gone; under the new id there is a running process with the command,
    arguments and working directory of the old record, spawned with
    them.  From then on, whatever happens to the supervisor, the old id
    is unknown: stop and restart fail with [ProcessNotFound], getInfo
    and getLogs return nothing. *)
Theorem C7_restart_mints_a_new_id
    (sys : Env) (processId : string) (this : BgProcessManagerImpl C)
    (record : ProcessRecord) (newId : string) (this' : BgProcessManagerImpl C) :
  reachable uuidv4 this ->
  JsMap.get processId (processes this) = Some record ->
  restartProcess uuidv4 sys processId this = (Return newId, this') ->
  newId <> processId
  /\ (newId ∉ minted uuidv4 this)
  /\ NoDup (minted uuidv4 this')
  /\ JsMap.get processId (processes this') = None
  /\ ProcessLogBuffer.buffers (logBuffer this') !! processId = None
  /\ (exists p,
        info newId this' = Some p
        /\ MP.id p = newId
        /\ MP.command p = MP.command (managedProcess record)
        /\ MP.args p = MP.args (managedProcess record)
        /\ MP.cwd p = MP.cwd (managedProcess record)
        /\ MP.status p = running)
  /\ last (calls this')
     = Some (CallSpawn
               {| ProcessController.command := MP.command (managedProcess record);
                  ProcessController.args := Some (MP.args (managedProcess record));
                  ProcessController.cwd := Some (MP.cwd (managedProcess record));
                  ProcessController.env := None |})
  /\ (forall trace sys' lines,
        let later := run uuidv4 trace this' in
        stopProcess sys' processId later = (Throw (ProcessNotFound processId), later)
        /\ restartProcess uuidv4 sys' processId later
           = (Throw (ProcessNotFound processId), later)
        /\ getProcessInfo processId later = (Return None, later)
        /\ getProcessLogs sys' processId lines later = (Return None, later)).
Proof.
  intros Hreach Hget Hrestart.
  apply reachable_invariant in Hreach as Hinv.
  destruct (proj2 Hinv _ _ Hget) as (_ & _ & Hminted).
  rewrite (restartProcess_known _ _ _ _ _ Hget) in Hrestart.
  assert (Hstop : forall afterStop,
            (if decide (MP.status (managedProcess record) = running)
             then stopProcess sys processId this else (Return tt, this))
            = (Return tt, afterStop) ->
            processes afterStop = processes this /\ uuids afterStop = uuids this).
  { intros afterStop. case_decide.
    - intros (? & _ & ?)%stopProcess_returns. done.
    - by intros [= <-]. }
  destruct (if decide _ then _ else _) as [[[]|err] afterStop]; [|discriminate].
  destruct (Hstop afterStop eq_refl) as [Hprocs Huuids]. clear Hstop.
  rewrite startProcess_unfold in Hrestart.
  destruct (negb _); [discriminate|]. cbn zeta in Hrestart.
  destruct (spawn _ (processController (forgotten processId afterStop)))
    as [[spawnResult|cause] controller]; [|discriminate].
  injection Hrestart as <- <-.
  cbn [MP.id startedProcess forgotten withLogBuffer withProcesses uuids].
  rewrite Huuids.
  assert (Hfresh : uuidv4 (uuids this) ∉ minted uuidv4 this)
    by apply (next_id_fresh uuidv4 uuidv4_inj).
  assert (Hne : uuidv4 (uuids this) <> processId) by (intros Heq; by rewrite Heq in Hfresh).
  assert (Hgone : JsMap.get processId
                    (JsMap.set (uuidv4 (uuids this))
                       {| managedProcess :=
                            startedProcess sys (restartConfig record)
                              (uuidv4 (uuids this)) spawnResult;
                          spawnResult := spawnResult |}
                       (JsMap.delete processId (processes afterStop))) = None).
  { rewrite get_set_ne by exact Hne. apply get_delete_eq. }
  split; [exact Hne|]. split; [exact Hfresh|].
  split; [apply (NoDup_minted uuidv4 uuidv4_inj)|].
  split; [exact Hgone|].
  split; [cbn; apply lookup_delete_eq|].
  split.
  { eexists. unfold info. cbn [processes]. rewrite get_set_eq. cbn [fmap option_fmap option_map].
    split; [reflexivity|]. cbn. done. }
  split.
  { cbn [calls]. rewrite last_snoc. reflexivity. }
  intros trace sys' lines. apply unknown_id_operations.
  apply (retired_run uuidv4 uuidv4_inj). split; [|exact Hgone].
  apply elem_of_minted. apply elem_of_minted in Hminted as (n & Hn & ->).
  exists n. cbn [uuids]. split; [lia|done].
Qed.
End RestartedId.

Lemma countingIds_inj : Inj (=) (=) Supervisor.countingIds.
Proof.
  intros m n Heq. unfold Supervisor.countingIds in Heq.
  rewrite !append_cons, !append_nil in Heq. injection Heq as Heq.
  apply Unsigned.to_uint_inj.
  assert (Hparse : NilEmpty.uint_of_string (Js.showNat m)
                   = NilEmpty.uint_of_string (Js.showNat n)) by (by rewrite Heq).
  unfold Js.showNat in Hparse. rewrite !NilEmpty.usu in Hparse. congruence.
Qed.

(** The theorem at the test [should restart an existing process]: the
    restart of [id-0] returns [id-1], and [id-0] is unknown afterwards. *)
Lemma C7_restart_mints_a_new_id_witness :
  let started :=
    BgProcessManager.run Supervisor.countingIds
      [(Supervisor.sysAt 1, BgProcessManager.Start Supervisor.echo)]
      Supervisor.mockManager in
  let restarted :=
    BgProcessManager.restartProcess Supervisor.countingIds (Supervisor.sysAt 3)
      "id-0" started in
  fst restarted = Return "id-1"
  /\ "id-1" <> "id-0"
  /\ JsMap.get "id-0" (BgProcessManager.processes (snd restarted)) = None.
Proof.
  intros started restarted.
  assert (Hfst : fst restarted = Return "id-1") by (vm_compute; reflexivity).
  split; [exact Hfst|].
  assert (Hrestart : restarted = (Return "id-1", snd restarted))
    by (rewrite <- Hfst; apply surjective_pairing).
  assert (Hreach : BgProcessManager.reachable Supervisor.countingIds started)
    by (by eexists _, _, _).
  destruct (JsMap.get "id-0" (BgProcessManager.processes started)) as [record|] eqn:Hget;
    [|vm_compute in Hget; discriminate].
  destruct (C7_restart_mints_a_new_id Supervisor.countingIds countingIds_inj
              (Supervisor.sysAt 3) "id-0" started record "id-1" (snd restarted)
              Hreach Hget Hrestart)
    as (Hne & _ & _ & Hgone & _).
  split; [exact Hne|exact Hgone].
Defined.

(** C7 as stated fails for a restart that does not return.  When the
    stop inside the restart fails (here the mock has lost the process, so
    both signals go undelivered and [waitForExit] throws), the restart
    fails with [TerminationFailed] and the old record stays in the map,
    in [error].  When the start inside the restart fails (here the
    working directory is gone), the old record has been removed, no new
    process exists and no id is returned. *)
Lemma C7_counterexample_restart_that_fails :
  let started :=
    BgProcessManager.run Supervisor.countingIds
      [(Supervisor.sysAt 1, BgProcessManager.Start Supervisor.echo)]
      Supervisor.mockManager in
  let lost :=
    Supervisor.withController
      (MockProcessController.clear (BgProcessManager.processController started))
      started in
  let failedStop :=
    BgProcessManager.restartProcess Supervisor.countingIds (Supervisor.sysAt 3) "id-0" lost in
  let failedStart :=
    BgProcessManager.restartProcess Supervisor.countingIds (Supervisor.sysNowhere 3)
      "id-0" started in
  fst failedStop
  = Throw (Supervisor.TerminationFailed "id-0" (JsError "Process 1000 not found"))
  /\ Supervisor.outcome <$> Supervisor.info "id-0" (snd failedStop)
     = Some (error, None, Some 3)
  /\ fst failedStart = Throw (Supervisor.DirectoryNotFound "/work")
  /\ BgProcessManager.processes (snd failedStart) = [].
Proof. vm_compute. repeat split. Qed.

(** ** C9: stopping all *)

Section StopAll.
Import ProcessController BgProcessManager Supervisor.
Context {C : Type} `{!ProcessController C}.
Implicit Types (this : BgProcessManagerImpl C) (sys : Env) (processId : string).

Lemma firstSignals_app made made' :
  firstSignals (made ++ made') = firstSignals made ++ firstSignals made'.
Proof. apply omap_app. Qed.

(** One stop of a running process: its calls come behind the earlier
    ones, one of them is the non-forceful signal to its pid, and the
    other records are untouched. *)
Lemma stopProcess_attempt sys processId this record :
  JsMap.get processId (processes this) = Some record ->
  MP.status (managedProcess record) = running ->
  let this' := snd (stopProcess sys processId this) in
  (exists made,
     calls this' = calls this ++ made /\ firstSignals made = [pidOf record])
  /\ (forall key, key <> processId ->
        JsMap.get key (processes this') = JsMap.get key (processes this)).
Proof.
  intros Hget Hrun this'. unfold this'.
  rewrite (stopProcess_running _ _ _ _ Hget Hrun).
  assert (Hfailed : forall cause controller made,
            firstSignals made = [pidOf record] ->
            let this' := snd (stopFailed sys processId record cause
                                (advance controller made this)) in
            (exists made,
               calls this' = calls this ++ made /\ firstSignals made = [pidOf record])
            /\ (forall key, key <> processId ->
                  JsMap.get key (processes this') = JsMap.get key (processes this))).
  { intros cause controller made Hmade. cbn. split; [by exists made|].
    intros key Hkey. by rewrite get_set_ne. }
  assert (Hwaits : forall controller made,
            firstSignals made = [pidOf record] ->
            let this' := snd (stopWaits sys processId record controller made this) in
            (exists made,
               calls this' = calls this ++ made /\ firstSignals made = [pidOf record])
            /\ (forall key, key <> processId ->
                  JsMap.get key (processes this') = JsMap.get key (processes this))).
  { intros controller made Hmade. unfold stopWaits.
    destruct (waitForExit _ None controller) as [[[]|cause] controller'].
    - cbn. split; [|done]. eexists. split; [reflexivity|].
      by rewrite firstSignals_app, Hmade.
    - apply Hfailed. by rewrite firstSignals_app, Hmade. }
  destruct (kill _ None (processController this)) as [[[]|cause] c1];
    [by apply Hwaits| |by apply Hfailed].
  destruct (kill _ (Some true) c1) as [[killed|cause] c2];
    [by apply Hwaits|by apply Hfailed].
Qed.

(** All stops are attempted, one after the other, whatever their ends. *)
Lemma allSettled_stops sys (records : list ProcessRecord) this :
  NoDup (map idOf records) ->
  (forall record, record ∈ records ->
     JsMap.get (idOf record) (processes this) = Some record
     /\ MP.status (managedProcess record) = running) ->
  exists made,
    calls (snd (allSettled (map (stopProcess sys) (map idOf records)) this))
    = calls this ++ made
    /\ firstSignals made = map pidOf records.
Proof.
  revert this. induction records as [|record rest IH]; intros this Hnodup Hrecords.
  - exists []. cbn. by rewrite app_nil_r.
  - cbn [map] in Hnodup. apply NoDup_cons in Hnodup as [Hfirst Hnodup].
    destruct (Hrecords record (list_elem_of_here _ _)) as [Hget Hrun].
    destruct (stopProcess_attempt sys (idOf record) this record Hget Hrun)
      as [(made1 & Hcalls1 & Hsignals1) Hothers].
    cbn [map allSettled]. unfold bind at 1, tryCatch at 1, ret at 1.
    destruct (stopProcess sys (idOf record) this) as [[[]|err] this1];
      cbn [snd] in Hcalls1, Hothers.
    all: destruct (IH this1 Hnodup) as (made2 & Hcalls2 & Hsignals2);
      [ intros other Hother;
        destruct (Hrecords other (list_elem_of_further _ _ _ Hother)) as [Hget' Hrun'];
        split; [|exact Hrun'];
        rewrite Hothers; [exact Hget'|];
        intros Heq; apply Hfirst; rewrite <- Heq;
        apply list_elem_of_fmap; by exists other
      | exists (made1 ++ made2); split;
        [ by rewrite Hcalls2, Hcalls1, <- app_assoc
        | by rewrite firstSignals_app, Hsignals1, Hsignals2 ] ].
Qed.

(** In a well-formed map every entry is found under its key, and the
    ids of the records are the keys. *)
Lemma wellFormed_entries (m : list (string * ProcessRecord)) :
  NoDup (JsMap.keys m) ->
  (forall key record, JsMap.get key m = Some record -> idOf record = key) ->
  Forall (fun entry => idOf entry.2 = entry.1 /\ JsMap.get entry.1 m = Some entry.2) m.
Proof.
  induction m as [|[k r] m IH]; [constructor|].
  cbn [JsMap.keys map fst]. intros [Hk Hnodup]%NoDup_cons Hids.
  assert (Hhead : JsMap.get k ((k, r) :: m) = Some r)
    by (cbn; by rewrite decide_True).
  constructor; [split; [by apply Hids|exact Hhead]|].
  assert (Htail : forall key record,
            JsMap.get key m = Some record -> JsMap.get key ((k, r) :: m) = Some record).
  { intros key record Hget. cbn. rewrite decide_False; [done|].
    intros ->. apply Hk. by eapply get_Some_keys. }
  eapply Forall_impl; [apply IH; [exact Hnodup|]|].
  - intros key record Hget. by apply Hids, Htail.
  - intros [k' r'] [Hid Hget]. split; [exact Hid|by apply Htail].
Qed.

Lemma NoDup_filtered_ids (m : list (string * ProcessRecord))
    (keep : ProcessRecord -> bool) :
  NoDup (JsMap.keys m) ->
  Forall (fun entry => idOf entry.2 = entry.1) m ->
  NoDup (map idOf (List.filter keep (JsMap.values m))).
Proof.
  induction m as [|[k r] m IH]; [constructor|].
  cbn [JsMap.keys JsMap.values map fst snd List.filter].
  intros [Hk Hnodup]%NoDup_cons [Hid Hrest]%Forall_cons.
  specialize (IH Hnodup Hrest). cbn [fst snd] in Hid.
  destruct (keep r); [|exact IH].
  cbn [map]. apply NoDup_cons. split; [|exact IH].
  intros (other & Heq & Hin)%list_elem_of_fmap. apply Hk.
  apply list_elem_of_In, filter_In in Hin as [Hin _].
  apply list_elem_of_In, list_elem_of_fmap in Hin as ([k' r'] & -> & Hin).
  rewrite Forall_forall in Hrest. pose proof (Hrest _ Hin) as Hid'.
  cbn [fst snd] in Hid', Heq. apply list_elem_of_fmap. exists (k', r').
  split; [|exact Hin]. cbn [fst]. congruence.
Qed.

Lemma runningRecords_found this :
  wellFormed this ->
  NoDup (map idOf (runningRecords this))
  /\ forall record, record ∈ runningRecords this ->
       JsMap.get (idOf record) (processes this) = Some record
       /\ MP.status (managedProcess record) = running.
Proof.
  intros [Hnodup Hids]. unfold runningRecords.
  pose proof (wellFormed_entries _ Hnodup Hids) as Hentries.
  split.
  - apply NoDup_filtered_ids; [exact Hnodup|].
    eapply Forall_impl; [exact Hentries|]. by intros entry [Hid _].
  - intros record Hin.
    apply list_elem_of_In, filter_In in Hin as [Hin Hrun].
    apply list_elem_of_In, list_elem_of_fmap in Hin as ([k r] & -> & Hin).
    rewrite Forall_forall in Hentries. destruct (Hentries _ Hin) as [Hid Hget].
    cbn [fst snd] in *. rewrite Hid. split; [exact Hget|].
    unfold isRunning in Hrun. by apply bool_decide_eq_true in Hrun.
Qed.


End StopAll.


(** * Further properties *)

(** ** The log buffer: one buffer per id *)

Section BufferPerId.
Import LogData ProcessLogBuffer Appends.

Lemma getLatestLogs_agreeAt now pid lines this that :
  agreeAt pid this that ->
  getLatestLogs now pid lines this = getLatestLogs now pid lines that.
Proof. intros [Hb _]. unfold getLatestLogs. rewrite Hb. reflexivity. Qed.

Lemma append_other tag t p data this pid :
  p <> pid -> agreeAt pid (append tag t p data this) this.
Proof.
  intros Hne. unfold agreeAt, append, getOrCreateBuffer.
  destruct (buffers this !! p) eqn:Hp; case_decide;
    cbn [buffers maxLines]; rewrite ?lookup_insert_ne by exact Hne; auto.
Qed.

Lemma append_agreeAt tag t p data this that pid :
  agreeAt pid this that ->
  agreeAt pid (append tag t p data this) (append tag t p data that).
Proof.
  intros Hagree. destruct (decide (p = pid)) as [->|Hne].
  - destruct Hagree as [Hb Hm]. unfold agreeAt, append, getOrCreateBuffer, enforceBufferLimits.
    rewrite Hb. destruct (buffers that !! pid) eqn:Hp; case_decide;
      cbn [buffers maxLines logs lastUpdated]; rewrite ?Hm, ?lookup_insert_eq;
      split; congruence.
  - destruct (append_other tag t p data this pid Hne) as [Hb1 Hm1].
    destruct (append_other tag t p data that pid Hne) as [Hb2 Hm2].
    destruct Hagree as [Hb Hm]. split; congruence.
Qed.

Lemma applyAll_agreeAt calls this that pid :
  agreeAt pid this that ->
  agreeAt pid (applyAll calls this)
    (applyAll (filter (fun a => processId a = pid) calls) that).
Proof.
  revert this that. induction calls as [|a calls IH]; intros this that Hagree.
  - exact Hagree.
  - destruct (decide (processId a = pid)) as [Heq|Hne].
    + rewrite filter_cons_True by exact Heq. cbn [applyAll fold_left].
      apply IH, append_agreeAt, Hagree.
    + rewrite filter_cons_False by exact Hne. cbn [applyAll fold_left].
      apply IH.
      destruct (append_other (stream a) (clock a) (processId a) (chunk a) this pid Hne)
        as [Hb Hm].
      destruct Hagree as [Hb' Hm']. split; unfold apply; congruence.
Qed.

Lemma agreeAt_refl pid this : agreeAt pid this this.
Proof. split; reflexivity. Qed.

Lemma read_own_appends calls this now pid lines :
  getLatestLogs now pid lines (applyAll calls this)
  = getLatestLogs now pid lines
      (applyAll (filter (fun a => processId a = pid) calls) this).
Proof. apply getLatestLogs_agreeAt, applyAll_agreeAt, agreeAt_refl. Qed.

Lemma clearLogs_agreeAt pid this :
  agreeAt pid (clearLogs pid this) (emptyBuffer (maxLines this)).
Proof.
  split; [|reflexivity]. unfold clearLogs, emptyBuffer. cbn [buffers].
  rewrite lookup_delete_eq, lookup_empty. reflexivity.
Qed.

Lemma clearLogs_other pid other this :
  other <> pid -> agreeAt other (clearLogs pid this) this.
Proof.
  intros Hne. split; [|reflexivity]. unfold clearLogs. cbn [buffers].
  apply lookup_delete_ne. congruence.
Qed.

Lemma applyAll_agreeAt_same calls this that pid :
  agreeAt pid this that -> agreeAt pid (applyAll calls this) (applyAll calls that).
Proof.
  revert this that. induction calls as [|a calls IH]; intros this that Hagree.
  - exact Hagree.
  - cbn [applyAll fold_left]. apply IH, append_agreeAt, Hagree.
Qed.

(** X1: what is read for a process id depends on the appends made for
    that id only: the appends for other ids can be left out without
    changing the entries or the time of the last update. *)
Theorem read_depends_on_own_appends
    (calls : list Append) (this : ProcessLogBufferImpl)
    (now : Z) (pid : string) (lines : option Z) :
  getLatestLogs now pid lines (applyAll calls this)
  = getLatestLogs now pid lines
      (applyAll (filter (fun a => processId a = pid) calls) this).
Proof. apply read_own_appends. Qed.

(** X2: [clearLogs] makes the id read as empty, with the time of the
    read as the time of the last update; it changes nothing that is read
    for another id, now or after further appends; and after it the id is
    as good as never seen: further appends read as they do on a buffer
    that has seen nothing. *)
Theorem clearLogs_forgets_the_id
    (this : ProcessLogBufferImpl) (pid : string) (now : Z) (lines : option Z)
    (calls : list Append) :
  getLatestLogs now pid lines (clearLogs pid this)
  = {| LogData.logs := []; LogData.lastUpdated := now |}
  /\ (forall other, other <> pid ->
        getLatestLogs now other lines (applyAll calls (clearLogs pid this))
        = getLatestLogs now other lines (applyAll calls this))
  /\ getLatestLogs now pid lines (applyAll calls (clearLogs pid this))
     = getLatestLogs now pid lines (applyAll calls (emptyBuffer (maxLines this))).
Proof.
  split; [|split].
  - unfold getLatestLogs, clearLogs. cbn [buffers]. rewrite lookup_delete_eq. reflexivity.
  - intros other Hne.
    apply getLatestLogs_agreeAt, applyAll_agreeAt_same, clearLogs_other, Hne.
  - apply getLatestLogs_agreeAt, applyAll_agreeAt_same, clearLogs_agreeAt.
Qed.
End BufferPerId.

Lemma clearLogs_forgets_the_id_witness :
  let this :=
    Appends.applyAll
      [ {| Appends.stream := LogData.stdout; Appends.clock := 1;
           Appends.processId := "p"; Appends.chunk := "dropped" |};
        {| Appends.stream := LogData.stdout; Appends.clock := 2;
           Appends.processId := "q"; Appends.chunk := "kept" |} ]
      (ProcessLogBuffer.create Appends.testConfig) in
  map LogData.line
    (LogData.logs
       (ProcessLogBuffer.getLatestLogs 9 "q" None (ProcessLogBuffer.clearLogs "p" this)))
  = ["kept"].
Proof.
  intros this.
  destruct (clearLogs_forgets_the_id this "p" 9 None []) as (_ & Hother & _).
  etransitivity.
  - exact (f_equal (fun data => map LogData.line (LogData.logs data))
             (Hother "q" ltac:(discriminate))).
  - vm_compute. reflexivity.
Defined.

(** ** The log buffer: time *)

Lemma last_drop_Some {A} (k : nat) (l : list A) (x : A) :
  last (drop k l) = Some x -> last l = Some x.
Proof.
  intros H. rewrite <- (take_drop k l), last_app, H. reflexivity.
Qed.

Lemma last_slice_Some {A} (start : Z) (l : list A) (x : A) :
  last (Js.slice start l) = Some x -> last l = Some x.
Proof. apply last_drop_Some. Qed.

Lemma slice_suffix {A} (start : Z) (l : list A) : Js.slice start l `suffix_of` l.
Proof. apply suffix_drop. Qed.

Section BufferTime.
Import LogData ProcessLogBuffer Appends.

Lemma last_enforceBufferLimits this buffer entry :
  last (logs (enforceBufferLimits this buffer)) = Some entry ->
  last (logs buffer) = Some entry.
Proof.
  unfold enforceBufferLimits. destruct (_ >? _); cbn [logs]; [|auto].
  apply last_slice_Some.
Qed.

Lemma last_entries tag now data entry :
  last (entries tag now data) = Some entry -> timestamp entry = now.
Proof.
  intros [front Hlast]%last_Some.
  assert (In entry (entries tag now data)) as Hin
    by (rewrite Hlast; apply in_or_app; right; left; reflexivity).
  apply in_map_iff in Hin as (l & <- & _). reflexivity.
Qed.

Lemma stamped_create config : stamped (create config).
Proof. intros pid buffer entry H. cbn in H. rewrite lookup_empty in H. discriminate. Qed.

Lemma stamped_append tag t p data this :
  stamped this -> stamped (append tag t p data this).
Proof.
  intros Hs pid buffer entry. unfold append, getOrCreateBuffer.
  destruct (buffers this !! p) eqn:Hp; case_decide as Hlines; cbn [buffers maxLines].
  - destruct (decide (p = pid)) as [->|Hne].
    + rewrite lookup_insert_eq. intros [= <-]. cbn [logs lastUpdated].
      intros Hlast%last_enforceBufferLimits. cbn [logs] in Hlast.
      apply last_app_Some in Hlast as [Hlast|[Hnone _]].
      * exact (last_entries _ _ _ _ Hlast).
      * exfalso. apply last_None in Hnone. apply fmap_nil_inv in Hnone.
        rewrite Hnone in Hlines. cbn in Hlines. lia.
    + rewrite lookup_insert_ne by exact Hne. apply Hs.
  - apply Hs.
  - destruct (decide (p = pid)) as [->|Hne].
    + rewrite lookup_insert_eq. intros [= <-]. cbn [logs lastUpdated].
      intros Hlast%last_enforceBufferLimits. cbn [logs] in Hlast.
      exact (last_entries _ _ _ _ Hlast).
    + rewrite lookup_insert_ne by exact Hne.
      intros Hb. rewrite lookup_insert_ne in Hb by exact Hne. revert Hb. apply Hs.
  - destruct (decide (p = pid)) as [->|Hne].
    + rewrite lookup_insert_eq. intros [= <-]. cbn [logs]. discriminate.
    + rewrite lookup_insert_ne by exact Hne. apply Hs.
Qed.

Lemma stamped_applyAll calls this : stamped this -> stamped (applyAll calls this).
Proof.
  revert this. induction calls as [|a calls IH]; intros this Hs; [exact Hs|].
  cbn [applyAll fold_left]. apply IH, stamped_append, Hs.
Qed.

(** X3: whatever was appended since the buffer was made, a read that
    returns entries returns, as the time of the last update, the time of
    the newest entry it returns. *)
Theorem lastUpdated_is_time_of_newest_entry
    (config : ConfigProvider.Config) (calls : list Append)
    (now : Z) (pid : string) (lines : option Z) (entry : LogEntry) :
  let data := getLatestLogs now pid lines (applyAll calls (create config)) in
  last (LogData.logs data) = Some entry ->
  timestamp entry = LogData.lastUpdated data.
Proof.
  cbn zeta. pose proof (stamped_applyAll calls _ (stamped_create config)) as Hs.
  unfold getLatestLogs.
  destruct (buffers (applyAll calls (create config)) !! pid) as [buffer|] eqn:Hb;
    cbn [LogData.logs LogData.lastUpdated]; [|discriminate].
  intros Hlast. apply (Hs pid buffer entry Hb).
  destruct lines as [n|]; [|exact Hlast].
  destruct (0 <? n); [|exact Hlast]. exact (last_slice_Some _ _ _ Hlast).
Qed.

Lemma lastUpdated_is_time_of_newest_entry_witness :
  let calls :=
    [ {| stream := stdout; clock := 3; processId := "p"; chunk := "one" |};
      {| stream := stderr; clock := 7; processId := "p"; chunk := "two" |};
      {| stream := stdout; clock := 9; processId := "q"; chunk := "other" |} ] in
  let data := getLatestLogs 20 "p" (Some 1) (applyAll calls (create testConfig)) in
  map line (LogData.logs data) = ["two"] /\ LogData.lastUpdated data = 7.
Proof.
  split; [vm_compute; reflexivity|].
  rewrite <- (lastUpdated_is_time_of_newest_entry testConfig _ 20 "p" (Some 1)
                {| type := stderr; line := "two"; timestamp := 7 |});
    [reflexivity|vm_compute; reflexivity].
Defined.

(** *** Entries come in the order of the clock *)

Lemma retained_append_suffix tag t p data this pid :
  retained pid (append tag t p data this)
  `suffix_of` retained pid this
              ++ (if decide (p = pid) then entries tag t data else []).
Proof.
  rewrite retained_append. destruct (decide (p = pid)) as [->|Hne].
  - destruct (decide (parseLines data = [])) as [Hnil|Hlines].
    + unfold entries. rewrite Hnil. cbn [map]. rewrite app_nil_r. reflexivity.
    + unfold enforceBufferLimits. destruct (_ >? _); cbn [logs]; [|reflexivity].
      apply slice_suffix.
  - rewrite app_nil_r. reflexivity.
Qed.

Lemma produced_cons pid a calls :
  produced pid (a :: calls)
  = (if decide (processId a = pid) then entries (stream a) (clock a) (chunk a) else [])
    ++ produced pid calls.
Proof. reflexivity. Qed.

Lemma retained_suffix calls this pid :
  retained pid (applyAll calls this) `suffix_of` retained pid this ++ produced pid calls.
Proof.
  revert this. induction calls as [|a calls IH]; intros this.
  - cbn [applyAll fold_left produced flat_map]. rewrite app_nil_r. reflexivity.
  - cbn [applyAll fold_left]. rewrite produced_cons, app_assoc.
    etransitivity; [apply IH|]. apply suffix_app, retained_append_suffix.
Qed.

Lemma nondecreasing_cons reading later :
  nondecreasing (reading :: later) = true
  <-> Forall (Z.le reading) later /\ nondecreasing later = true.
Proof.
  cbn [nondecreasing]. rewrite andb_true_iff, forallb_forall, Forall_forall.
  setoid_rewrite <- list_elem_of_In. setoid_rewrite Z.leb_le. reflexivity.
Qed.

Lemma nondecreasing_app earlier later :
  nondecreasing (earlier ++ later) = true
  <-> nondecreasing earlier = true /\ nondecreasing later = true
      /\ forall x y, x ∈ earlier -> y ∈ later -> x <= y.
Proof.
  induction earlier as [|reading earlier IH].
  - cbn. split; [intros H; repeat split; [exact H|]|tauto].
    intros x y Hx. inversion Hx.
  - rewrite <- app_comm_cons, !nondecreasing_cons, IH, Forall_app, !Forall_forall.
    split.
    + intros ((He & Hl) & Hnd & Hnd' & Hle). repeat split; auto.
      intros x y [->|Hx]%elem_of_cons Hy; auto.
    + intros ((He & Hnd) & Hnd' & Hle). repeat split; auto.
      * intros y Hy. apply Hle; [left|exact Hy].
      * intros x y Hx Hy. apply Hle; [right; exact Hx|exact Hy].
Qed.

Lemma nondecreasing_suffix (l k : list Z) :
  l `suffix_of` k -> nondecreasing k = true -> nondecreasing l = true.
Proof. intros [front ->] H. apply nondecreasing_app in H. tauto. Qed.

Lemma timestamp_entries tag now data :
  map timestamp (entries tag now data) = replicate (length (parseLines data)) now.
Proof.
  unfold entries. induction (parseLines data) as [|l ls IH]; [reflexivity|].
  cbn. f_equal. exact IH.
Qed.

Lemma nondecreasing_replicate n (reading : Z) :
  nondecreasing (replicate n reading) = true.
Proof.
  induction n as [|n IH]; [reflexivity|].
  cbn [replicate]. apply nondecreasing_cons. split; [|exact IH].
  apply Forall_forall. intros x [-> _]%elem_of_replicate. lia.
Qed.

Lemma produced_clocks pid calls reading :
  reading ∈ map timestamp (produced pid calls) -> reading ∈ map clock calls.
Proof.
  induction calls as [|a calls IH]; [intros H; inversion H|].
  rewrite produced_cons, map_app, elem_of_app. cbn [map]. rewrite elem_of_cons.
  intros [H|H]; [left|right; auto].
  destruct (decide (processId a = pid)); [|inversion H].
  rewrite timestamp_entries in H. apply elem_of_replicate in H. tauto.
Qed.

Lemma nondecreasing_produced pid calls :
  nondecreasing (map clock calls) = true ->
  nondecreasing (map timestamp (produced pid calls)) = true.
Proof.
  induction calls as [|a calls IH]; [reflexivity|].
  cbn [map]. rewrite nondecreasing_cons, produced_cons, map_app. intros [Hle Hnd].
  apply nondecreasing_app. split; [|split; [auto|]].
  - destruct (decide (processId a = pid)); [|reflexivity].
    rewrite timestamp_entries. apply nondecreasing_replicate.
  - intros x y Hx Hy%produced_clocks.
    destruct (decide (processId a = pid)); [|inversion Hx].
    rewrite timestamp_entries in Hx. apply elem_of_replicate in Hx as [-> _].
    rewrite Forall_forall in Hle. auto.
Qed.

Lemma map_suffix {A B} (f : A -> B) (l k : list A) :
  l `suffix_of` k -> map f l `suffix_of` map f k.
Proof. intros [front ->]. rewrite map_app. eexists. reflexivity. Qed.

Lemma getLatestLogs_suffix now pid lines this :
  LogData.logs (getLatestLogs now pid lines this) `suffix_of` retained pid this.
Proof.
  unfold retained, getLatestLogs. destruct (buffers this !! pid); [|reflexivity].
  cbn [LogData.logs]. destruct lines as [n|]; [|reflexivity].
  destruct (0 <? n); [apply slice_suffix|reflexivity].
Qed.

(** X4: if the clock never went back between the appends made for a
    process id, every read for that id returns its entries in the order of
    their timestamps, whatever the ceiling and the limit of the read. *)
Theorem entries_are_read_in_the_order_of_time
    (config : ConfigProvider.Config) (calls : list Append)
    (now : Z) (pid : string) (lines : option Z) :
  nondecreasing (map clock (filter (fun a => processId a = pid) calls)) = true ->
  nondecreasing
    (map timestamp
       (LogData.logs (getLatestLogs now pid lines (applyAll calls (create config)))))
  = true.
Proof.
  intros Hclock. rewrite read_own_appends.
  eapply nondecreasing_suffix; [|apply (nondecreasing_produced pid), Hclock].
  apply map_suffix. etransitivity; [apply getLatestLogs_suffix|].
  etransitivity; [apply retained_suffix|].
  rewrite retained_create. reflexivity.
Qed.

Lemma entries_are_read_in_the_order_of_time_witness :
  let calls :=
    [ {| stream := stdout; clock := 5; processId := "p"; chunk := "one" |};
      {| stream := stdout; clock := 2; processId := "q"; chunk := "early" |};
      {| stream := stderr; clock := 5; processId := "p"; chunk := "two" |};
      {| stream := stdout; clock := 8; processId := "p"; chunk := "three" |} ] in
  nondecreasing
    (map timestamp
       (LogData.logs (getLatestLogs 9 "p" (Some 2) (applyAll calls (create testConfig)))))
  = true.
Proof.
  intros calls.
  apply (entries_are_read_in_the_order_of_time testConfig calls 9 "p" (Some 2)).
  vm_compute. reflexivity.
Defined.

(** *** A ceiling of zero *)

Lemma retained_applyAll_zero calls this pid :
  maxLines this = 0 ->
  retained pid (applyAll calls this) = retained pid this ++ produced pid calls.
Proof.
  revert this. induction calls as [|a calls IH]; intros this Hzero.
  - cbn [applyAll fold_left produced flat_map]. rewrite app_nil_r. reflexivity.
  - cbn [applyAll fold_left]. rewrite IH by (rewrite maxLines_apply; exact Hzero).
    rewrite produced_cons, app_assoc. f_equal.
    unfold apply. rewrite retained_append.
    destruct (decide (processId a = pid)) as [Heq|Hne]; [|rewrite app_nil_r; reflexivity].
    destruct (decide (parseLines (chunk a) = [])) as [Hnil|Hlines].
    + unfold entries. rewrite Hnil. cbn [map]. rewrite app_nil_r. reflexivity.
    + destruct this as [buffers maxLines]. cbn [ProcessLogBuffer.maxLines] in Hzero.
      subst maxLines. rewrite enforceBufferLimits_zero. reflexivity.
Qed.

(** X5: a configured ceiling of zero switches trimming off: the buffer
    keeps every entry ever made for an id. *)
Theorem ceiling_zero_keeps_every_entry
    (config : ConfigProvider.Config) (calls : list Append) (pid : string) :
  ConfigProvider.maxLogLinesPerProcesses config = 0 ->
  retained pid (applyAll calls (create config)) = produced pid calls.
Proof.
  intros Hzero. rewrite retained_applyAll_zero by exact Hzero.
  rewrite retained_create. reflexivity.
Qed.

Lemma ceiling_zero_keeps_every_entry_witness :
  let config :=
    {| ConfigProvider.maxLogLinesPerProcesses := 0;
       ConfigProvider.maxConcurrentProcesses := 10;
       ConfigProvider.processTerminationTimeoutMs := 5000;
       ConfigProvider.loggingEnabled := None |} in
  length (retained "p" (applyAll (lineAppends "p" 40) (create config))) = 40%nat.
Proof.
  intros config.
  rewrite (ceiling_zero_keeps_every_entry config (lineAppends "p" 40) "p");
    [vm_compute; reflexivity|reflexivity].
Defined.
End BufferTime.

(** ** Lines written out and parsed again *)

Lemma append_assoc (a b c : string) : (a +:+ b) +:+ c = a +:+ (b +:+ c).
Proof.
  induction a as [|ch a IH]; [rewrite !append_nil; reflexivity|].
  rewrite !append_cons, IH. reflexivity.
Qed.

Lemma noLF_app (a b : string) : noLF (a +:+ b) = noLF a && noLF b.
Proof.
  induction a as [|ch a IH]; [rewrite append_nil; reflexivity|].
  rewrite append_cons. cbn [noLF]. rewrite IH, andb_assoc. reflexivity.
Qed.

Lemma chopCR_app_CR (s : string) : chopCR (s +:+ String Js.CR EmptyString) = s.
Proof.
  induction s as [|ch s IH]; [reflexivity|].
  rewrite append_cons. cbn [chopCR].
  destruct (s +:+ String Js.CR EmptyString) eqn:Hs.
  - destruct s; rewrite ?append_nil, ?append_cons in Hs; discriminate.
  - rewrite IH. reflexivity.
Qed.

Lemma parseLines_unlines_LF (lines : list string) :
  Forall (fun line => line <> EmptyString /\ noLF line = true /\ noFinalCR line = true)
         lines ->
  ProcessLogBuffer.parseLines (unlines (String Js.LF EmptyString) lines) = lines.
Proof.
  induction 1 as [|line lines (Hne & Hlf & Hcr) _ IH]; [reflexivity|].
  cbn [unlines fold_right]. rewrite append_cons, append_nil.
  rewrite parseLines_first by exact Hlf. apply bool_decide_eq_true in Hcr.
  rewrite Hcr. destruct (decide (line = EmptyString)); [contradiction|].
  cbn [app]. f_equal. exact IH.
Qed.

Lemma parseLines_unlines_CRLF (lines : list string) :
  Forall (fun line => line <> EmptyString /\ noLF line = true) lines ->
  ProcessLogBuffer.parseLines
    (unlines (String Js.CR (String Js.LF EmptyString)) lines) = lines.
Proof.
  induction 1 as [|line lines (Hne & Hlf) _ IH]; [reflexivity|].
  cbn [unlines fold_right].
  replace (line +:+ String Js.CR (String Js.LF EmptyString) +:+ _)
    with ((line +:+ String Js.CR EmptyString)
          +:+ String Js.LF (unlines (String Js.CR (String Js.LF EmptyString)) lines)).
  2: { rewrite append_assoc, !append_cons, !append_nil. reflexivity. }
  rewrite parseLines_first by (rewrite noLF_app, Hlf; reflexivity).
  rewrite chopCR_app_CR. destruct (decide (line = EmptyString)); [contradiction|].
  cbn [app]. f_equal. exact IH.
Qed.

(** X6: lines that are not empty and hold no line feed, written out one
    after the other with CRLF after each, are parsed back into exactly
    these lines; with a bare LF after each the same holds if no line ends
    in a carriage return. *)
Theorem written_lines_are_parsed_back (lines : list string) :
  Forall (fun line => line <> EmptyString /\ noLF line = true) lines ->
  ProcessLogBuffer.parseLines
    (unlines (String Js.CR (String Js.LF EmptyString)) lines) = lines
  /\ (Forall (fun line => noFinalCR line = true) lines ->
      ProcessLogBuffer.parseLines (unlines (String Js.LF EmptyString) lines) = lines).
Proof.
  intros Hlines. split; [apply parseLines_unlines_CRLF, Hlines|].
  intros Hcr. apply parseLines_unlines_LF.
  rewrite Forall_forall in *. intros line Hin.
  destruct (Hlines line Hin). auto.
Qed.

Lemma written_lines_are_parsed_back_witness :
  ProcessLogBuffer.parseLines
    (unlines (String Js.LF EmptyString) ["Line 1"; "Line 2"; "Line 3"])
  = ["Line 1"; "Line 2"; "Line 3"].
Proof.
  apply (written_lines_are_parsed_back ["Line 1"; "Line 2"; "Line 3"]).
  - repeat constructor; discriminate.
  - repeat constructor.
Defined.

(** ** The supervisor: starting *)

Lemma Return_inj {A} (x y : A) : Return x = Return y -> x = y.
Proof. intros [= ->]. reflexivity. Qed.

Section JsMapMore.
Context {V : Type}.
Implicit Types (m : list (string * V)).

Lemma set_absent key value m :
  key ∉ JsMap.keys m -> JsMap.set key value m = m ++ [(key, value)].
Proof.
  induction m as [|[k v] m IH]; intros Hnotin; [reflexivity|].
  cbn [JsMap.set]. cbn in Hnotin. apply not_elem_of_cons in Hnotin as [Hne Hnotin].
  destruct (decide (k = key)); [congruence|]. rewrite IH by exact Hnotin. reflexivity.
Qed.

Lemma map_set_present {B} (f : string * V -> B) key value value' m :
  JsMap.get key m = Some value ->
  f (key, value') = f (key, value) ->
  map f (JsMap.set key value' m) = map f m.
Proof.
  intros Hget Hf. induction m as [|[k v] m IH]; [discriminate|].
  cbn [JsMap.get JsMap.set] in *. destruct (decide (k = key)) as [->|Hne].
  - injection Hget as ->. cbn [map]. rewrite Hf. reflexivity.
  - cbn [map]. rewrite IH by exact Hget. reflexivity.
Qed.
End JsMapMore.

Section Starting.
Import ProcessController BgProcessManager Supervisor Client.
Context {C : Type} `{!ProcessController C}.
Variable uuidv4 : nat -> string.
Implicit Types (this : BgProcessManagerImpl C) (sys : Env) (processId : string).

Lemma startProcess_returns sys config this p this' :
  startProcess uuidv4 sys config this = (Return p, this') ->
  exists spawnResult controller,
    validateDirectory sys (default (processCwd sys) (cwd config)) = true
    /\ spawn (spawnConfigOf sys config) (processController this)
       = (Return spawnResult, controller)
    /\ p = startedProcess sys config (uuidv4 (uuids this)) spawnResult
    /\ this'
       = {| processes :=
              JsMap.set (uuidv4 (uuids this))
                {| managedProcess := p; spawnResult := spawnResult |}
                (processes this);
            logBuffer := logBuffer this;
            processController := controller;
            calls := calls this ++ [CallSpawn (spawnConfigOf sys config)];
            uuids := S (uuids this);
            handlers := handlers this ++ [uuidv4 (uuids this)] |}.
Proof.
  rewrite startProcess_unfold.
  destruct (validateDirectory sys _) eqn:Hdir; cbn [negb]; [|discriminate].
  cbn zeta.
  destruct (spawn _ (processController this)) as [[spawnResult|cause] controller];
    [|discriminate].
  intros [= <- <-]. exists spawnResult, controller. repeat split.
Qed.

(** X7: a start that returns has found the working directory, has asked
    the controller for exactly one spawn, and returns a running record
    with the command as given, no arguments and the current directory
    where they were left out, the time of the call as start time and
    neither end time nor exit code; from then on [getProcessInfo] finds
    this record under its id, [listProcesses] lists it, its event handlers
    are registered, and the log buffer is as it was. *)
Theorem started_process_is_on_record
    (sys : Env) (config : StartConfig) (this : BgProcessManagerImpl C)
    (p : ManagedProcess) (this' : BgProcessManagerImpl C) :
  startProcess uuidv4 sys config this = (Return p, this') ->
  validateDirectory sys (MP.cwd p) = true
  /\ callsSince this this' = [CallSpawn (spawnConfigOf sys config)]
  /\ MP.command p = command config
  /\ MP.args p = default [] (args config)
  /\ MP.cwd p = default (processCwd sys) (cwd config)
  /\ outcome p = (running, None, None)
  /\ MP.startTime p = now sys
  /\ getProcessInfo (MP.id p) this' = (Return (Some p), this')
  /\ p ∈ listed this'
  /\ MP.id p ∈ handlers this'
  /\ logBuffer this' = logBuffer this.
Proof.
  intros (spawnResult & controller & Hdir & Hspawn & -> & ->)%startProcess_returns.
  cbn [startedProcess MP.cwd MP.command MP.args MP.startTime MP.id].
  split; [exact Hdir|]. split.
  { unfold callsSince. cbn [calls]. apply drop_app_length. }
  do 5 (split; [reflexivity|]). split; [|split; [|split; [|reflexivity]]].
  - unfold getProcessInfo, ret. cbn [processes]. rewrite get_set_eq. reflexivity.
  - unfold listed. cbn [processes]. apply list_elem_of_fmap.
    eexists. split; [|eapply get_values, get_set_eq]. reflexivity.
  - cbn [handlers]. apply elem_of_app. right. left.
Qed.

Hypothesis uuidv4_inj : Inj (=) (=) uuidv4.

Lemma next_id_unused this :
  invariant uuidv4 this -> uuidv4 (uuids this) ∉ JsMap.keys (processes this).
Proof.
  intros [_ Hrecords] Hin. apply (next_id_fresh uuidv4 uuidv4_inj this).
  destruct (JsMap.get (uuidv4 (uuids this)) (processes this)) as [record|] eqn:Hget.
  - by destruct (Hrecords _ _ Hget) as (_ & _ & Hminted).
  - by apply get_None_keys in Hget.
Qed.

(** X8: provided the id generator never returns the same value twice, a
    start that returns in a reachable state adds one entry behind the
    entries of the record map and touches no other: [listProcesses] lists
    the processes it listed before, in the same order and unchanged, and
    the new process last. *)
Theorem start_lists_the_new_process_last
    (sys : Env) (config : StartConfig) (this : BgProcessManagerImpl C)
    (p : ManagedProcess) (this' : BgProcessManagerImpl C) :
  reachable uuidv4 this ->
  startProcess uuidv4 sys config this = (Return p, this') ->
  listed this' = listed this ++ [p]
  /\ fst (listProcesses this') = Return (listed this ++ [p])
  /\ (MP.id p ∉ map MP.id (listed this))
  /\ (forall key, key <> MP.id p -> info key this' = info key this).
Proof.
  intros Hreach (spawnResult & controller & _ & _ & -> & ->)%startProcess_returns.
  pose proof (reachable_invariant uuidv4 _ Hreach) as Hinv.
  pose proof (next_id_unused _ Hinv) as Hnew.
  assert (Hlisted :
    listed {| processes :=
                JsMap.set (uuidv4 (uuids this))
                  {| managedProcess :=
                       startedProcess sys config (uuidv4 (uuids this)) spawnResult;
                     spawnResult := spawnResult |}
                  (processes this);
              logBuffer := logBuffer this; processController := controller;
              calls := calls this ++ [CallSpawn (spawnConfigOf sys config)];
              uuids := S (uuids this);
              handlers := handlers this ++ [uuidv4 (uuids this)] |}
    = listed this ++ [startedProcess sys config (uuidv4 (uuids this)) spawnResult]).
  { unfold listed, JsMap.values. cbn [processes]. rewrite set_absent by exact Hnew.
    rewrite !map_app. reflexivity. }
  split; [exact Hlisted|]. split; [|split].
  - unfold listProcesses, ret. cbn [fst]. f_equal. exact Hlisted.
  - cbn [startedProcess MP.id]. intros Hin. apply Hnew.
    apply list_elem_of_fmap in Hin as (q & Hid & Hq).
    apply list_elem_of_fmap in Hq as (record & -> & Hrecord).
    destruct (values_get _ _ Hrecord (proj1 Hinv)) as [key Hget].
    destruct (proj2 Hinv _ _ Hget) as (Hkey & _). rewrite Hid, Hkey.
    eapply get_Some_keys, Hget.
  - intros key Hne. unfold info. cbn [processes startedProcess MP.id] in *.
    rewrite get_set_ne by congruence. reflexivity.
Qed.

End Starting.

Lemma started_process_is_on_record_witness :
  let started :=
    BgProcessManager.startProcess Supervisor.countingIds (Supervisor.sysAt 1)
      Supervisor.echo Supervisor.mockManager in
  exists p, fst started = Return p
    /\ Supervisor.info "id-0" (snd started) = Some p
    /\ ManagedProcess.cwd p = "/work".
Proof.
  intros started.
  assert (Hfst : fst started
                 = Return (Supervisor.startedProcess (Supervisor.sysAt 1) Supervisor.echo "id-0"
                             {| ProcessController.pid := 1000 |}))
    by (vm_compute; reflexivity).
  eexists. split; [exact Hfst|].
  destruct (started_process_is_on_record Supervisor.countingIds (Supervisor.sysAt 1)
              Supervisor.echo Supervisor.mockManager
              (Supervisor.startedProcess (Supervisor.sysAt 1) Supervisor.echo "id-0"
                 {| ProcessController.pid := 1000 |})
              (snd started))
    as (_ & _ & _ & _ & Hcwd & _ & _ & Hinfo & _).
  { rewrite <- Hfst. apply surjective_pairing. }
  split; [|exact Hcwd].
  apply Return_inj. exact (f_equal fst Hinfo).
Defined.

Lemma start_lists_the_new_process_last_witness :
  let first :=
    BgProcessManager.run Supervisor.countingIds
      [(Supervisor.sysAt 1, BgProcessManager.Start Supervisor.echo)]
      Supervisor.mockManager in
  let second :=
    BgProcessManager.startProcess Supervisor.countingIds (Supervisor.sysAt 2)
      Supervisor.echo first in
  map ManagedProcess.id (Client.listed (snd second)) = ["id-0"; "id-1"].
Proof.
  intros first second.
  assert (Hfst : fst second
                 = Return (Supervisor.startedProcess (Supervisor.sysAt 2) Supervisor.echo "id-1"
                             {| ProcessController.pid := 1001 |}))
    by (vm_compute; reflexivity).
  destruct (start_lists_the_new_process_last Supervisor.countingIds countingIds_inj
              (Supervisor.sysAt 2) Supervisor.echo first
              (Supervisor.startedProcess (Supervisor.sysAt 2) Supervisor.echo "id-1"
                 {| ProcessController.pid := 1001 |})
              (snd second))
    as (Hlisted & _).
  - eexists _, _, _. reflexivity.
  - rewrite <- Hfst. apply surjective_pairing.
  - rewrite Hlisted. vm_compute. reflexivity.
Defined.

(** ** The supervisor: what stops and events leave alone *)

Section Frame.
Import ProcessController BgProcessManager Supervisor Client.
Context {C : Type} `{!ProcessController C}.
Variable uuidv4 : nat -> string.
Implicit Types (this : BgProcessManagerImpl C) (sys : Env) (processId : string).

Lemma identities_settled processId record status exitCode endTime this this' :
  JsMap.get processId (processes this) = Some record ->
  processes this'
  = JsMap.set processId (settled record status exitCode endTime) (processes this) ->
  identities this' = identities this.
Proof.
  intros Hget Hset. unfold identities. rewrite Hset.
  apply map_set_present with (value := record); [exact Hget|reflexivity].
Qed.

Lemma identities_same this this' :
  processes this' = processes this -> identities this' = identities this.
Proof. unfold identities. intros ->. reflexivity. Qed.

Lemma identities_updateProcessStatus L sys processId status exitCode :
  preserves (C:=C) (fun this => identities this = L)
    (updateProcessStatus sys processId status exitCode).
Proof.
  intros this <-.
  destruct (JsMap.get processId (processes this)) as [record|] eqn:Hget.
  - rewrite (updateProcessStatus_known _ _ _ _ _ _ Hget). cbn [snd].
    eapply identities_settled; [exact Hget|reflexivity].
  - by rewrite updateProcessStatus_unknown.
Qed.

Lemma identities_stopFailed sys processId record cause this controller made :
  JsMap.get processId (processes this) = Some record ->
  identities (snd (stopFailed sys processId record cause (advance controller made this)))
  = identities this.
Proof. intros Hget. eapply identities_settled; [exact Hget|reflexivity]. Qed.

Lemma identities_stopWaits sys processId record this controller made :
  JsMap.get processId (processes this) = Some record ->
  identities (snd (stopWaits sys processId record controller made this))
  = identities this.
Proof.
  intros Hget. unfold stopWaits.
  destruct (waitForExit _ None controller) as [[[]|cause] controller'].
  - reflexivity.
  - by apply identities_stopFailed.
Qed.

Lemma identities_stopProcess L sys processId :
  preserves (C:=C) (fun this => identities this = L) (stopProcess sys processId).
Proof.
  intros this <-.
  destruct (JsMap.get processId (processes this)) as [record|] eqn:Hget;
    [|by rewrite stopProcess_unknown].
  destruct (decide (MP.status (managedProcess record) = running)) as [Hrun|Hrun];
    [|by rewrite (stopProcess_settled _ _ _ _ Hget)].
  rewrite (stopProcess_running _ _ _ _ Hget Hrun).
  destruct (kill _ None (processController this)) as [[[]|cause] c1].
  - by apply identities_stopWaits.
  - destruct (kill _ (Some true) c1) as [[killed|cause] c2].
    + by apply identities_stopWaits.
    + by apply identities_stopFailed.
  - by apply identities_stopFailed.
Qed.

Lemma identities_stopAllProcesses L sys :
  preserves (C:=C) (fun this => identities this = L) (stopAllProcesses sys).
Proof.
  intros this HL. unfold stopAllProcesses.
  apply preserves_allSettled; [|exact HL].
  apply Forall_forall. intros stop (id & -> & _)%list_elem_of_fmap.
  apply identities_stopProcess.
Qed.

Lemma identities_deliver L sys processId event :
  preserves (C:=C) (fun this => identities this = L) (deliver sys processId event).
Proof.
  destruct event as [data|data|code|message]; cbn [deliver].
  - intros this HL. exact HL.
  - intros this HL. exact HL.
  - unfold onExit. apply identities_updateProcessStatus.
  - unfold onError. apply preserves_bind.
    + intros this HL. exact HL.
    + intros _. apply identities_updateProcessStatus.
Qed.

(** X9: stopping one process, stopping all and the events of a handle
    never add a record, never remove one and never reorder the map, and
    they leave id, pid, command, arguments, working directory and start
    time of every record as they are: only status, exit code and end time
    can change.  Records come and go by start and restart alone. *)
Theorem stops_and_events_keep_the_records
    (sys : Env) (this : BgProcessManagerImpl C) :
  (forall processId,
     identities (step uuidv4 sys (Stop processId) this) = identities this)
  /\ identities (step uuidv4 sys StopAll this) = identities this
  /\ (forall processId event,
        identities (step uuidv4 sys (Emit processId event) this) = identities this).
Proof.
  split; [|split].
  - intros processId. by apply identities_stopProcess.
  - by apply identities_stopAllProcesses.
  - intros processId event. cbn [step]. case_decide; [|reflexivity].
    by apply identities_deliver.
Qed.
End Frame.

(** ** The supervisor: restarts that fail, and restarts of settled records *)

Section Restarting.
Import ProcessController BgProcessManager Supervisor Client.
Context {C : Type} `{!ProcessController C}.
Variable uuidv4 : nat -> string.
Implicit Types (this : BgProcessManagerImpl C) (sys : Env) (processId : string).

Lemma stopWaits_throws sys processId record controller made this err this' :
  stopWaits sys processId record controller made this = (Throw err, this') ->
  (exists cause, err = TerminationFailed processId cause)
  /\ processes this'
     = JsMap.set processId (settled record error None (Some (now sys))) (processes this).
Proof.
  unfold stopWaits.
  destruct (waitForExit _ None controller) as [[[]|cause] controller']; [discriminate|].
  intros [= <- <-]. split; [eauto|reflexivity].
Qed.

Lemma stopFailed_throws sys processId record cause controller made this err this' :
  stopFailed sys processId record cause (advance controller made this) = (Throw err, this') ->
  (exists cause, err = TerminationFailed processId cause)
  /\ processes this'
     = JsMap.set processId (settled record error None (Some (now sys))) (processes this).
Proof. intros [= <- <-]. split; [eauto|reflexivity]. Qed.

Lemma stopProcess_throws sys processId this record err this' :
  JsMap.get processId (processes this) = Some record ->
  stopProcess sys processId this = (Throw err, this') ->
  MP.status (managedProcess record) = running
  /\ (exists cause, err = TerminationFailed processId cause)
  /\ processes this'
     = JsMap.set processId (settled record error None (Some (now sys))) (processes this).
Proof.
  intros Hget.
  destruct (decide (MP.status (managedProcess record) = running)) as [Hrun|Hrun];
    [|by rewrite (stopProcess_settled _ _ _ _ Hget)].
  rewrite (stopProcess_running _ _ _ _ Hget Hrun). intros Hstop. split; [exact Hrun|].
  destruct (kill _ None (processController this)) as [[[]|cause] c1].
  - by eapply stopWaits_throws.
  - destruct (kill _ (Some true) c1) as [[killed|cause] c2].
    + by eapply stopWaits_throws.
    + by eapply stopFailed_throws.
  - by eapply stopFailed_throws.
Qed.

Lemma startProcess_throws sys config this err this' :
  startProcess uuidv4 sys config this = (Throw err, this') ->
  processes this' = processes this
  /\ logBuffer this' = logBuffer this
  /\ (err = DirectoryNotFound (default (processCwd sys) (cwd config))
      \/ exists cause, err = SpawnFailed cause).
Proof.
  rewrite startProcess_unfold. destruct (negb _).
  - intros [= <- <-]. auto.
  - cbn zeta.
    destruct (spawn _ (processController this)) as [[spawnResult|cause] controller];
      [discriminate|].
    intros [= <- <-]. eauto.
Qed.

(** X10: a restart of a recorded process that fails has failed in one of
    two ways.  Either the process was running and could not be stopped:
    the error is [TerminationFailed] and the record is still there, in
    [error].  Or the start failed, with [DirectoryNotFound] or
    [SpawnFailed]: then the record and the log buffer of the id are
    already gone and nothing has taken their place, while every other
    record is as it was. *)
Theorem restart_that_fails
    (sys : Env) (processId : string) (this : BgProcessManagerImpl C)
    (record : ProcessRecord) (err : Thrown) (this' : BgProcessManagerImpl C) :
  JsMap.get processId (processes this) = Some record ->
  restartProcess uuidv4 sys processId this = (Throw err, this') ->
  (MP.status (managedProcess record) = running
   /\ (exists cause, err = TerminationFailed processId cause)
   /\ info processId this'
      = Some (managedProcess (settled record error None (Some (now sys)))))
  \/ ((err = DirectoryNotFound (MP.cwd (managedProcess record))
       \/ exists cause, err = SpawnFailed cause)
      /\ info processId this' = None
      /\ ProcessLogBuffer.buffers (logBuffer this') !! processId = None
      /\ processes this' = JsMap.delete processId (processes this)).
Proof.
  intros Hget. rewrite (restartProcess_known _ _ _ _ _ Hget).
  destruct (if decide (MP.status (managedProcess record) = running)
            then stopProcess sys processId this else (Return tt, this))
    as [[[]|stopErr] afterStop] eqn:Hstop.
  - assert (Hsame : processes afterStop = processes this).
    { case_decide; [apply stopProcess_returns in Hstop; tauto|congruence]. }
    destruct (startProcess uuidv4 sys (restartConfig record) (forgotten processId afterStop))
      as [[newProcess|startErr] started] eqn:Hstart; [discriminate|].
    intros [= <- <-]. right.
    apply startProcess_throws in Hstart as (Hprocesses & Hbuffer & Herr).
    split; [exact Herr|]. unfold info. rewrite Hprocesses, Hbuffer.
    cbn [forgotten withLogBuffer withProcesses processes logBuffer
         ProcessLogBuffer.clearLogs ProcessLogBuffer.buffers].
    rewrite Hsame, get_delete_eq, lookup_delete_eq. auto.
  - intros [= <- <-]. left. case_decide as Hrun; [|discriminate].
    destruct (stopProcess_throws _ _ _ _ _ _ Hget Hstop) as (_ & Hcause & Hprocesses).
    split; [exact Hrun|]. split; [exact Hcause|].
    unfold info. rewrite Hprocesses, get_set_eq. reflexivity.
Qed.

(** X11: restarting a record that is not running sends no signal and
    waits for nothing: if the recorded working directory is still a
    directory the controller is asked for one spawn, with the recorded
    command, arguments and working directory and no environment, and
    otherwise the controller is not called at all. *)
Theorem restart_of_settled_record_only_spawns
    (sys : Env) (processId : string) (this : BgProcessManagerImpl C)
    (record : ProcessRecord) :
  JsMap.get processId (processes this) = Some record ->
  MP.status (managedProcess record) <> running ->
  callsSince this (snd (restartProcess uuidv4 sys processId this))
  = if validateDirectory sys (MP.cwd (managedProcess record))
    then [CallSpawn
            {| ProcessController.command := MP.command (managedProcess record);
               ProcessController.args := Some (MP.args (managedProcess record));
               ProcessController.cwd := Some (MP.cwd (managedProcess record));
               ProcessController.env := None |}]
    else [].
Proof.
  intros Hget Hrun. rewrite (restartProcess_known _ _ _ _ _ Hget).
  destruct (decide (MP.status (managedProcess record) = running)); [contradiction|].
  rewrite startProcess_unfold. cbn [restartConfig cwd from_option id].
  destruct (validateDirectory sys _); cbn [negb snd].
  - cbn zeta.
    destruct (spawn _ _) as [[spawnResult|cause] controller]; cbn [snd];
      unfold callsSince; cbn [calls forgotten withLogBuffer withProcesses spawned];
      apply drop_app_length.
  - unfold callsSince. cbn [calls forgotten withLogBuffer withProcesses].
    apply drop_all.
Qed.
End Restarting.

Lemma restart_that_fails_witness :
  let started :=
    BgProcessManager.run Supervisor.countingIds
      [(Supervisor.sysAt 1, BgProcessManager.Start Supervisor.echo)]
      Supervisor.mockManager in
  let failed :=
    BgProcessManager.restartProcess Supervisor.countingIds (Supervisor.sysNowhere 3)
      "id-0" started in
  fst failed = Throw (Supervisor.DirectoryNotFound "/work")
  /\ Client.listed (snd failed) = [].
Proof.
  intros started failed.
  assert (Hfst : fst failed = Throw (Supervisor.DirectoryNotFound "/work"))
    by (vm_compute; reflexivity).
  split; [exact Hfst|].
  destruct (restart_that_fails Supervisor.countingIds (Supervisor.sysNowhere 3) "id-0"
              started
              {| BgProcessManager.managedProcess :=
                   Supervisor.startedProcess (Supervisor.sysAt 1) Supervisor.echo "id-0"
                     {| ProcessController.pid := 1000 |};
                 BgProcessManager.spawnResult := {| ProcessController.pid := 1000 |} |}
              (Supervisor.DirectoryNotFound "/work") (snd failed))
    as [(_ & [cause Hcause] & _)|(_ & _ & _ & Hprocesses)].
  - vm_compute. reflexivity.
  - rewrite <- Hfst. apply surjective_pairing.
  - discriminate Hcause.
  - unfold Client.listed. rewrite Hprocesses. vm_compute. reflexivity.
Defined.

Lemma restart_of_settled_record_only_spawns_witness :
  let exited :=
    BgProcessManager.run Supervisor.countingIds Supervisor.echoThenExit
      Supervisor.mockManager in
  Supervisor.callsSince exited
    (snd (BgProcessManager.restartProcess Supervisor.countingIds (Supervisor.sysAt 8)
            "id-0" exited))
  = [ProcessController.CallSpawn
       {| ProcessController.command := "echo";
          ProcessController.args := Some ["hello"];
          ProcessController.cwd := Some "/work";
          ProcessController.env := None |}].
Proof.
  intros exited.
  rewrite (restart_of_settled_record_only_spawns Supervisor.countingIds
             (Supervisor.sysAt 8) "id-0" exited
             (Supervisor.settled
                {| BgProcessManager.managedProcess :=
                     Supervisor.startedProcess (Supervisor.sysAt 1) Supervisor.echo "id-0"
                       {| ProcessController.pid := 1000 |};
                   BgProcessManager.spawnResult := {| ProcessController.pid := 1000 |} |}
                stopped (Some 0) (Some 5))).
  - reflexivity.
  - vm_compute. reflexivity.
  - discriminate.
Defined.

(** ** The supervisor: events for an id without record *)

Section Unrecorded.
Import ProcessController BgProcessManager Supervisor Client.
Context {C : Type} `{!ProcessController C}.
Implicit Types (this : BgProcessManagerImpl C) (sys : Env) (processId : string).

Lemma deliver_unrecorded sys processId event this :
  JsMap.get processId (processes this) = None ->
  processes (snd (deliver sys processId event this)) = processes this
  /\ forall key, key <> processId ->
       agreeAt key (logBuffer (snd (deliver sys processId event this))) (logBuffer this).
Proof.
  intros Hget. destruct event as [data|data|code|message]; cbn [deliver].
  - split; [reflexivity|]. intros key Hne. apply append_other. congruence.
  - split; [reflexivity|]. intros key Hne. apply append_other. congruence.
  - rewrite onExit_unfold, updateProcessStatus_unknown by exact Hget.
    split; [reflexivity|]. intros key _. apply agreeAt_refl.
  - rewrite onError_unfold, updateProcessStatus_unknown by exact Hget.
    split; [reflexivity|]. intros key Hne. apply append_other. congruence.
Qed.

(** X12: an event for an id that has no record (never had one, or lost
    it to a restart) changes nothing a client can ask for: the list of
    processes, the information on every id and the logs of every id are
    what they were, although the event's text may be buffered. *)
Theorem event_for_unrecorded_id_is_invisible
    (sys : Env) (processId : string) (event : Event) (this : BgProcessManagerImpl C) :
  JsMap.get processId (processes this) = None ->
  let this' := snd (deliver sys processId event this) in
  listed this' = listed this
  /\ (forall key, info key this' = info key this)
  /\ (forall sys' key lines, logsOf sys' key lines this' = logsOf sys' key lines this).
Proof.
  intros Hget this'. destruct (deliver_unrecorded sys processId event this Hget)
    as [Hprocesses Hbuffer].
  fold this' in Hprocesses, Hbuffer. split; [|split].
  - unfold listed. rewrite Hprocesses. reflexivity.
  - intros key. unfold info. rewrite Hprocesses. reflexivity.
  - intros sys' key lines. unfold logsOf, getProcessLogs. rewrite Hprocesses.
    destruct (JsMap.get key (processes this)) eqn:Hkey; [|reflexivity].
    unfold ret. cbn [fst]. do 2 f_equal.
    rewrite (getLatestLogs_agreeAt _ _ _ _ _ (Hbuffer key ltac:(congruence))).
    reflexivity.
Qed.
End Unrecorded.

Lemma event_for_unrecorded_id_is_invisible_witness :
  let restarted :=
    BgProcessManager.run Supervisor.countingIds
      [(Supervisor.sysAt 1, BgProcessManager.Start Supervisor.echo);
       (Supervisor.sysAt 2, BgProcessManager.Restart "id-0")]
      Supervisor.mockManager in
  let late :=
    snd (BgProcessManager.deliver (Supervisor.sysAt 3) "id-0"
           (BgProcessManager.Stdout "late output") restarted) in
  Client.logsOf (Supervisor.sysAt 4) "id-1" None late
  = Client.logsOf (Supervisor.sysAt 4) "id-1" None restarted
  /\ ProcessLogBuffer.buffers (BgProcessManager.logBuffer late) !! "id-0" <> None.
Proof.
  intros restarted late. split.
  - apply (event_for_unrecorded_id_is_invisible (Supervisor.sysAt 3) "id-0"
             (BgProcessManager.Stdout "late output") restarted).
    vm_compute. reflexivity.
  - vm_compute. discriminate.
Defined.

(** ** The tool handlers *)

Lemma errorText_ProcessNotFound processId :
  errorText (Supervisor.ProcessNotFound processId)
  = "PROCESS_NOT_FOUND: Process not found: " +:+ processId.
Proof.
  unfold Supervisor.ProcessNotFound, errorText, errors.message.
  cbn [errors.type errors.details errors.ErrorType_value].
  rewrite <- !append_assoc. reflexivity.
Qed.

Lemma errorText_DirectoryNotFound cwd :
  errorText (Supervisor.DirectoryNotFound cwd)
  = "DIRECTORY_NOT_FOUND: Directory not found: " +:+ cwd.
Proof.
  unfold Supervisor.DirectoryNotFound, errorText, errors.message.
  cbn [errors.type errors.details errors.ErrorType_value].
  rewrite <- !append_assoc. reflexivity.
Qed.

Lemma errorText_SpawnFailed cause :
  errorText (Supervisor.SpawnFailed cause)
  = "SPAWN_FAILED: Failed to spawn process: " +:+ errorText cause.
Proof.
  unfold Supervisor.SpawnFailed. cbn [errorText]. unfold errors.message.
  cbn [errors.type errors.details errors.ErrorType_value].
  rewrite <- !append_assoc. reflexivity.
Qed.

Lemma errorText_TerminationFailed processId cause :
  errorText (Supervisor.TerminationFailed processId cause)
  = "TERMINATION_FAILED: Failed to stop process: " +:+ errorText cause.
Proof.
  unfold Supervisor.TerminationFailed. cbn [errorText]. unfold errors.message.
  cbn [errors.type errors.details errors.ErrorType_value].
  rewrite <- !append_assoc. reflexivity.
Qed.

Lemma length_filter_streams (entries : list LogData.LogEntry) :
  (length (List.filter GetLogsHandler.isStdout entries)
   + length (List.filter GetLogsHandler.isStderr entries))%nat
  = length entries.
Proof.
  induction entries as [|entry entries IH]; [reflexivity|].
  cbn [List.filter]. unfold GetLogsHandler.isStdout at 1, GetLogsHandler.isStderr at 1.
  destruct (LogData.type entry); cbn [length]; lia.
Qed.

Section ToolHandlers.
Import ProcessController BgProcessManager Supervisor Client.
Context {C : Type} `{!ProcessController C}.
Variable uuidv4 : nat -> string.
Implicit Types (this : BgProcessManagerImpl C) (sys : Env) (processId : string).

(** X13: every handler that takes a process id answers an id without
    record with [success: false] and a text that names the id, and leaves
    the supervisor as it was.  The stop and restart handlers pass on the
    message of the supervisor's error, which starts with the error type;
    the info and logs handlers word it themselves, without a type. *)
Theorem handlers_answer_an_unknown_id
    (sys : Env) (processId : string) (lines : option Z) (this : BgProcessManagerImpl C) :
  JsMap.get processId (processes this) = None ->
  StopHandler.handle sys processId this
  = (Failed ("PROCESS_NOT_FOUND: Process not found: " +:+ processId), this)
  /\ RestartHandler.handle uuidv4 sys processId this
     = (Failed ("PROCESS_NOT_FOUND: Process not found: " +:+ processId), this)
  /\ GetInfoHandler.handle processId this
     = (Failed ("Process not found: " +:+ processId), this)
  /\ GetLogsHandler.handle sys
       {| GetLogsHandler.processId := processId; GetLogsHandler.lines := lines |} this
     = (Failed ("Process not found: " +:+ processId), this).
Proof.
  intros Hget.
  destruct (unknown_id_operations uuidv4 sys processId lines this Hget)
    as (Hstop & Hrestart & Hinfo & Hlogs).
  unfold StopHandler.handle, RestartHandler.handle, GetInfoHandler.handle,
    GetLogsHandler.handle. cbn [GetLogsHandler.processId GetLogsHandler.lines].
  rewrite Hstop, Hrestart, Hinfo, Hlogs, errorText_ProcessNotFound. auto.
Qed.

(** X14: for an id with a record the logs handler succeeds and changes
    nothing; the total it reports is the number of stdout lines plus the
    number of stderr lines it returns.  With [lines] a whole number: for a
    positive [n] the total is the smaller of [n] and the number of entries
    held for the id, so [n] limits both streams together and not each
    one; without [lines], or with one that is not positive, the total is
    the number of entries held. *)
Theorem GetLogsHandler_counts_both_streams
    (sys : Env) (toolArgs : GetLogsHandler.GetLogsToolArgs)
    (this : BgProcessManagerImpl C) (record : ProcessRecord) :
  JsMap.get (GetLogsHandler.processId toolArgs) (processes this) = Some record ->
  exists got,
    GetLogsHandler.handle sys toolArgs this = (Succeeded got, this)
    /\ GetLogsHandler.gotProcessId got = GetLogsHandler.processId toolArgs
    /\ GetLogsHandler.totalLines (GetLogsHandler.logs got)
       = (length (GetLogsHandler.stdout (GetLogsHandler.logs got))
          + length (GetLogsHandler.stderr (GetLogsHandler.logs got)))%nat
    /\ (GetLogsHandler.totalLines (GetLogsHandler.logs got)
        <= length (Appends.retained (GetLogsHandler.processId toolArgs) (logBuffer this)))%nat
    /\ (forall n, GetLogsHandler.lines toolArgs = Some n -> 0 < n ->
          (GetLogsHandler.totalLines (GetLogsHandler.logs got) <= Z.to_nat n)%nat)
    /\ GetLogsHandler.totalLines (GetLogsHandler.logs got)
       = match GetLogsHandler.lines toolArgs with
         | Some n =>
             if 0 <? n then
               Nat.min (Z.to_nat n)
                 (length (Appends.retained (GetLogsHandler.processId toolArgs)
                            (logBuffer this)))
             else
               length (Appends.retained (GetLogsHandler.processId toolArgs)
                         (logBuffer this))
         | None =>
             length (Appends.retained (GetLogsHandler.processId toolArgs)
                       (logBuffer this))
         end.
Proof.
  intros Hget. unfold GetLogsHandler.handle, getProcessLogs. rewrite Hget.
  unfold ret. eexists. split; [reflexivity|].
  cbn [GetLogsHandler.gotProcessId GetLogsHandler.logs GetLogsHandler.totalLines
       GetLogsHandler.stdout GetLogsHandler.stderr LogData.logs].
  split; [reflexivity|]. split; [|split; [|split]].
  - rewrite !length_map, length_filter_streams. reflexivity.
  - apply suffix_length, getLatestLogs_suffix.
  - intros n Hlines Hpos. rewrite Hlines, read_limit by exact Hpos.
    rewrite length_lastN. lia.
  - destruct (GetLogsHandler.lines toolArgs) as [n|]; [|rewrite read_all; reflexivity].
    destruct (0 <? n) eqn:Hpos.
    + apply Z.ltb_lt in Hpos. rewrite read_limit by exact Hpos. apply length_lastN.
    + apply Z.ltb_ge in Hpos. rewrite read_limit_nonpositive by exact Hpos. reflexivity.
Qed.

(** X15: when the start handler reports success, the process it names is
    on record: the info handler, asked for the reported id, succeeds and
    gives the same pid, command, arguments, working directory, status and
    start time, with neither end time nor exit code, and the list handler
    lists that very process.  What the reply echoes is the command as
    given, the arguments as given or none, and as working directory the
    one given or the supervisor's own. *)
Theorem StartHandler_success_is_on_record
    (sys : Env) (toolArgs : StartHandler.StartToolArgs)
    (this : BgProcessManagerImpl C)
    (started : StartHandler.Started) (this' : BgProcessManagerImpl C) :
  StartHandler.handle uuidv4 sys toolArgs this = (Succeeded started, this') ->
  exists p listing,
    GetInfoHandler.handle (StartHandler.processId started) this' = (Succeeded p, this')
    /\ Client.identity p
       = (StartHandler.processId started, StartHandler.pid started,
          StartHandler.startedCommand started, StartHandler.startedArgs started,
          StartHandler.startedCwd started, StartHandler.startTime started)
    /\ outcome p = (StartHandler.status started, None, None)
    /\ StartHandler.status started = running
    /\ StartHandler.startedCommand started = StartHandler.command toolArgs
    /\ StartHandler.startedArgs started = default [] (StartHandler.args toolArgs)
    /\ StartHandler.startedCwd started
       = default (processCwd sys) (StartHandler.cwd toolArgs)
    /\ StartHandler.startTime started = now sys
    /\ ListHandler.handle this' = (Succeeded listing, this')
    /\ p ∈ ListHandler.processes listing
    /\ ListHandler.count listing = length (processes this')
    /\ ListHandler.message listing = None.
Proof.
  unfold StartHandler.handle.
  destruct (startProcess uuidv4 sys _ this) as [[p|err] afterStart] eqn:Hstart;
    [|discriminate].
  intros [= <- <-].
  apply startProcess_returns in Hstart
    as (spawnResult & controller & _ & _ & -> & ->).
  cbn [StartHandler.processId StartHandler.pid StartHandler.startedCommand
       StartHandler.startedArgs StartHandler.startedCwd StartHandler.status
       StartHandler.startTime startedProcess
       MP.id MP.pid MP.command MP.args MP.cwd MP.status MP.startTime
       command args cwd].
  unfold GetInfoHandler.handle, getProcessInfo, ret. cbn [processes].
  rewrite get_set_eq. cbn [fmap option_fmap option_map managedProcess].
  eexists _, _. split; [reflexivity|].
  do 7 (split; [reflexivity|]).
  unfold ListHandler.handle, listProcesses, ret. cbn [processes].
  set (records := JsMap.set _ _ _).
  assert (Hin : {| managedProcess :=
                     startedProcess sys
                       {| command := StartHandler.command toolArgs;
                          args := Some (default [] (StartHandler.args toolArgs));
                          cwd := StartHandler.cwd toolArgs;
                          env := StartHandler.env toolArgs |}
                       (uuidv4 (uuids this)) spawnResult;
                   spawnResult := spawnResult |} ∈ JsMap.values records)
    by (eapply get_values, get_set_eq).
  destruct (decide (length (map managedProcess (JsMap.values records)) = 0%nat))
    as [Hempty|_].
  { exfalso. rewrite length_map in Hempty. apply nil_length_inv in Hempty.
    rewrite Hempty in Hin. inversion Hin. }
  split; [reflexivity|].
  cbn [ListHandler.processes ListHandler.count ListHandler.message].
  split; [|split; [|reflexivity]].
  - apply list_elem_of_fmap. eexists. split; [|exact Hin]. reflexivity.
  - unfold JsMap.values. rewrite !length_map. reflexivity.
Qed.

(** X16: when the start handler reports a failure, no record was made,
    and the text tells which step failed: the working directory is not a
    directory (then the controller was not called and nothing changed at
    all), or the controller's spawn threw, whose message the text ends
    with. *)
Theorem StartHandler_failure_makes_no_record
    (sys : Env) (toolArgs : StartHandler.StartToolArgs)
    (this : BgProcessManagerImpl C) (text : string) (this' : BgProcessManagerImpl C) :
  StartHandler.handle uuidv4 sys toolArgs this = (Failed text, this') ->
  let cwd := default (processCwd sys) (StartHandler.cwd toolArgs) in
  listed this' = listed this
  /\ logBuffer this' = logBuffer this
  /\ ((validateDirectory sys cwd = false
       /\ text = "DIRECTORY_NOT_FOUND: Directory not found: " +:+ cwd
       /\ this' = this)
      \/ (validateDirectory sys cwd = true
          /\ exists cause,
               text = "SPAWN_FAILED: Failed to spawn process: " +:+ errorText cause
               /\ callsSince this this'
                  = [CallSpawn
                       {| ProcessController.command := StartHandler.command toolArgs;
                          ProcessController.args :=
                            Some (default [] (StartHandler.args toolArgs));
                          ProcessController.cwd := Some cwd;
                          ProcessController.env := StartHandler.env toolArgs |}])).
Proof.
  unfold StartHandler.handle. rewrite startProcess_unfold.
  cbn [cwd args command env from_option].
  destruct (validateDirectory sys _) eqn:Hdir; cbn [negb].
  - cbn zeta.
    destruct (spawn _ (processController this)) as [[spawnResult|cause] controller];
      [discriminate|].
    intros [= <- <-]. cbn zeta. split; [reflexivity|]. split; [reflexivity|].
    right. split; [reflexivity|]. exists cause.
    split; [apply errorText_SpawnFailed|].
    unfold callsSince, spawned. cbn [calls]. apply drop_app_length.
  - intros [= <- <-]. cbn zeta. split; [reflexivity|]. split; [reflexivity|].
    left. split; [reflexivity|]. split; [apply errorText_DirectoryNotFound|reflexivity].
Qed.

(** X17: what the stop handler's reply means for a recorded process.
    Success means the stop returned, and leaves every record as it was:
    a process that was running is still recorded as running, until its
    exit event arrives.  Failure happens to a running process only; the
    text is the termination error with the cause's message, and the record
    is then in [error] with the time of the call as end time and no exit
    code. *)
Theorem StopHandler_reply_and_record
    (sys : Env) (processId : string) (this : BgProcessManagerImpl C)
    (record : ProcessRecord) :
  JsMap.get processId (processes this) = Some record ->
  match StopHandler.handle sys processId this with
  | (Succeeded reply, this') =>
      reply = {| StopHandler.processId := processId;
                 StopHandler.message := "Process stopped successfully" |}
      /\ listed this' = listed this
      /\ info processId this' = Some (managedProcess record)
  | (Failed text, this') =>
      MP.status (managedProcess record) = running
      /\ (exists cause,
            text = "TERMINATION_FAILED: Failed to stop process: " +:+ errorText cause)
      /\ info processId this'
         = Some (managedProcess (settled record error None (Some (now sys))))
  end.
Proof.
  intros Hget. unfold StopHandler.handle.
  destruct (stopProcess sys processId this) as [[[]|err] this'] eqn:Hstop.
  - apply stopProcess_returns in Hstop as (Hprocesses & _).
    unfold listed, info. rewrite Hprocesses, Hget. auto.
  - destruct (stopProcess_throws _ _ _ _ _ _ Hget Hstop)
      as (Hrun & [cause ->] & Hprocesses).
    split; [exact Hrun|]. split; [exists cause; apply errorText_TerminationFailed|].
    unfold info. rewrite Hprocesses, get_set_eq. reflexivity.
Qed.
End ToolHandlers.

Lemma handlers_answer_an_unknown_id_witness :
  GetInfoHandler.handle "non-existent-id" Supervisor.mockManager
  = (Failed "Process not found: non-existent-id", Supervisor.mockManager)
  /\ StopHandler.handle (Supervisor.sysAt 1) "non-existent-id" Supervisor.mockManager
     = (Failed "PROCESS_NOT_FOUND: Process not found: non-existent-id",
        Supervisor.mockManager).
Proof.
  destruct (handlers_answer_an_unknown_id Supervisor.countingIds (Supervisor.sysAt 1)
              "non-existent-id" None Supervisor.mockManager)
    as (Hstop & _ & Hinfo & _); [reflexivity|].
  split; [exact Hinfo|exact Hstop].
Defined.

Lemma GetLogsHandler_counts_both_streams_witness :
  let this :=
    BgProcessManager.run Supervisor.countingIds
      [(Supervisor.sysAt 1, BgProcessManager.Start Supervisor.echo);
       (Supervisor.sysAt 2, BgProcessManager.Emit "id-0" (BgProcessManager.Stdout "hello"));
       (Supervisor.sysAt 3, BgProcessManager.Emit "id-0" (BgProcessManager.Stderr "oops"))]
      Supervisor.mockManager in
  exists got,
    GetLogsHandler.handle (Supervisor.sysAt 4)
      {| GetLogsHandler.processId := "id-0"; GetLogsHandler.lines := Some 1 |} this
    = (Succeeded got, this)
    /\ (GetLogsHandler.totalLines (GetLogsHandler.logs got) <= 1)%nat.
Proof.
  intros this.
  destruct (GetLogsHandler_counts_both_streams (Supervisor.sysAt 4)
              {| GetLogsHandler.processId := "id-0"; GetLogsHandler.lines := Some 1 |}
              this
              {| BgProcessManager.managedProcess :=
                   Supervisor.startedProcess (Supervisor.sysAt 1) Supervisor.echo "id-0"
                     {| ProcessController.pid := 1000 |};
                 BgProcessManager.spawnResult := {| ProcessController.pid := 1000 |} |})
    as (got & Hhandle & _ & _ & _ & Hlimit & _); [vm_compute; reflexivity|].
  exists got. split; [exact Hhandle|]. apply (Hlimit 1); [reflexivity|lia].
Defined.

Lemma StartHandler_success_is_on_record_witness :
  let toolArgs :=
    {| StartHandler.command := "echo"; StartHandler.args := None;
       StartHandler.cwd := None; StartHandler.env := None |} in
  let reply :=
    StartHandler.handle Supervisor.countingIds (Supervisor.sysAt 1) toolArgs
      Supervisor.mockManager in
  exists p,
    GetInfoHandler.handle "id-0" (snd reply) = (Succeeded p, snd reply)
    /\ Supervisor.outcome p = (running, None, None).
Proof.
  intros toolArgs reply.
  destruct (StartHandler_success_is_on_record Supervisor.countingIds (Supervisor.sysAt 1)
              toolArgs Supervisor.mockManager
              {| StartHandler.processId := "id-0"; StartHandler.pid := 1000;
                 StartHandler.startedCommand := "echo"; StartHandler.startedArgs := [];
                 StartHandler.startedCwd := "/work"; StartHandler.status := running;
                 StartHandler.startTime := 1 |}
              (snd reply))
    as (p & listing & Hinfo & _ & Houtcome & _).
  - assert (Hfst : fst reply
                   = Succeeded
                       {| StartHandler.processId := "id-0"; StartHandler.pid := 1000;
                          StartHandler.startedCommand := "echo";
                          StartHandler.startedArgs := [];
                          StartHandler.startedCwd := "/work";
                          StartHandler.status := running;
                          StartHandler.startTime := 1 |})
      by (vm_compute; reflexivity).
    rewrite <- Hfst. apply surjective_pairing.
  - exists p. split; [exact Hinfo|exact Houtcome].
Defined.

Lemma StartHandler_failure_makes_no_record_witness :
  let toolArgs :=
    {| StartHandler.command := "echo"; StartHandler.args := None;
       StartHandler.cwd := Some "/nonexistent/directory"; StartHandler.env := None |} in
  let reply :=
    StartHandler.handle Supervisor.countingIds (Supervisor.sysNowhere 1) toolArgs
      Supervisor.mockManager in
  fst reply = Failed "DIRECTORY_NOT_FOUND: Directory not found: /nonexistent/directory"
  /\ Client.listed (snd reply) = [].
Proof.
  intros toolArgs reply.
  assert (Hfst : fst reply
                 = Failed "DIRECTORY_NOT_FOUND: Directory not found: /nonexistent/directory")
    by (vm_compute; reflexivity).
  split; [exact Hfst|].
  destruct (StartHandler_failure_makes_no_record Supervisor.countingIds
              (Supervisor.sysNowhere 1) toolArgs Supervisor.mockManager
              "DIRECTORY_NOT_FOUND: Directory not found: /nonexistent/directory"
              (snd reply))
    as (Hlisted & _).
  - rewrite <- Hfst. apply surjective_pairing.
  - exact Hlisted.
Defined.

Lemma StopHandler_reply_and_record_witness :
  let started :=
    BgProcessManager.run Supervisor.countingIds
      [(Supervisor.sysAt 1, BgProcessManager.Start Supervisor.echo)]
      Supervisor.mockManager in
  let reply := StopHandler.handle (Supervisor.sysAt 2) "id-0" started in
  fst reply
  = Succeeded {| StopHandler.processId := "id-0";
                 StopHandler.message := "Process stopped successfully" |}
  /\ Supervisor.outcome <$> Supervisor.info "id-0" (snd reply)
     = Some (running, None, None).
Proof.
  intros started reply.
  pose proof (StopHandler_reply_and_record (Supervisor.sysAt 2) "id-0" started
                {| BgProcessManager.managedProcess :=
                     Supervisor.startedProcess (Supervisor.sysAt 1) Supervisor.echo "id-0"
                       {| ProcessController.pid := 1000 |};
                   BgProcessManager.spawnResult := {| ProcessController.pid := 1000 |} |})
    as Hreply.
  fold reply in Hreply.
  assert (Hfst : fst reply
                 = Succeeded {| StopHandler.processId := "id-0";
                                StopHandler.message := "Process stopped successfully" |})
    by (vm_compute; reflexivity).
  split; [exact Hfst|].
  destruct reply as [[stopped'|text] this']; cbn [fst snd] in *; [|discriminate].
  destruct Hreply as (_ & _ & Hinfo); [vm_compute; reflexivity|].
  rewrite Hinfo. reflexivity.
Defined.

(** ** The server object *)

Section StopAllSignals.
Import ProcessController BgProcessManager Supervisor.
Context {C : Type} `{!ProcessController C}.

Lemma stopAllProcesses_signals sys (this : BgProcessManagerImpl C) :
  wellFormed this ->
  fst (stopAllProcesses sys this) = Return tt
  /\ firstSignals (callsSince this (snd (stopAllProcesses sys this)))
     = map pidOf (runningRecords this).
Proof.
  intros Hwf. split; [apply allSettled_returns|].
  destruct (runningRecords_found this Hwf) as [Hnodup Hfound].
  destruct (allSettled_stops sys (runningRecords this) this Hnodup Hfound)
    as (made & Hcalls & Hsignals).
  assert (Hsame : snd (stopAllProcesses sys this)
                  = snd (allSettled (map (stopProcess sys)
                                       (map idOf (runningRecords this))) this))
    by reflexivity.
  unfold callsSince. rewrite Hsame, Hcalls, drop_app_length. exact Hsignals.
Qed.
End StopAllSignals.

Section Server.
Import ProcessController BgProcessManager Supervisor ManageBgServer ServerLife.
Context {S C : Type} `{!McpServer.McpServer S} `{!ProcessController C}.
Implicit Types (this : BgManageServer S C) (sys : Env).


Lemma close_when_closing sys this :
  isClosing this = true -> close sys this = (Return tt, this).
Proof. intros Hclosing. unfold close. rewrite Hclosing, orb_true_r. reflexivity. Qed.

Lemma isClosing_start this :
  isClosing (snd (start this)) = isClosing this
  /\ processManager (snd (start this)) = processManager this.
Proof.
  unfold start. destruct (isRunning this); [auto|].
  destruct (McpServer.connect (server this)) as [[[]|err] server']; auto.
Qed.

Lemma closing_stays (operations : list Operation) this :
  isClosing this = true ->
  isClosing (performAll operations this) = true
  /\ processManager (performAll operations this) = processManager this.
Proof.
  revert this. induction operations as [|operation operations IH]; intros this Hclosing.
  - auto.
  - change (performAll (operation :: operations) this)
      with (performAll operations (perform operation this)).
    destruct operation as [|sys]; cbn [perform].
    + destruct (isClosing_start this) as [Hsame Hmanager].
      rewrite Hclosing in Hsame.
      destruct (IH (snd (start this)) Hsame) as [H1 H2].
      split; [exact H1|]. rewrite H2. exact Hmanager.
    + rewrite close_when_closing by exact Hclosing. apply IH, Hclosing.
Qed.

(** X19: a close that gets as far as stopping the processes is the only
    one the object ever performs.  It sets [isClosing], nothing resets
    it, and every close with [isClosing] set returns at once: whatever
    starts and closes follow, also a start that returns, the supervisor
    is never asked to stop anything again, and a server still or again
    running stays running through every later close. *)
Theorem server_closes_at_most_once
    (sys : Env) (this : BgManageServer S C) (operations : list Operation) :
  isRunning this = true -> isClosing this = false ->
  let closed := snd (close sys this) in
  let later := performAll operations closed in
  isClosing closed = true
  /\ isClosing later = true
  /\ processManager later = processManager closed
  /\ (forall sys', close sys' later = (Return tt, later)).
Proof.
  intros Hrunning Hclosing closed later.
  assert (Hclosed : isClosing closed = true).
  { unfold closed, close. rewrite Hrunning, Hclosing. cbn [negb orb].
    destruct (stopAllProcesses sys (processManager this)) as [stopAll manager'].
    destruct (McpServer.close (server this)) as [[[]|err] server']; reflexivity. }
  destruct (closing_stays operations closed Hclosed) as [Hlater Hmanager].
  repeat split; [exact Hclosed|exact Hlater|exact Hmanager|].
  intros sys'. apply close_when_closing, Hlater.
Qed.

(** X20: the close of a running server sends the non-forceful signal to
    every process the supervisor records as running, once each and in the
    order of the map, whatever the signals and waits answer; stopping the
    processes never throws, so nothing is written to the console; and the
    close returns, leaving the server not running, exactly when the
    SDK server's own close returns. *)
Theorem close_signals_every_running_process
    (sys : Env) (this : BgManageServer S C) :
  isRunning this = true -> isClosing this = false ->
  wellFormed (processManager this) ->
  let closed := snd (close sys this) in
  firstSignals (callsSince (processManager this) (processManager closed))
  = map pidOf (runningRecords (processManager this))
  /\ console closed = console this
  /\ fst (close sys this) = fst (McpServer.close (server this))
  /\ isServerRunning closed
     = match fst (McpServer.close (server this)) with
       | Return _ => false
       | Throw _ => true
       end.
Proof.
  intros Hrunning Hclosing Hwf. cbn zeta. unfold close.
  rewrite Hrunning, Hclosing. cbn [negb orb].
  destruct (stopAllProcesses_signals sys (processManager this) Hwf) as [Hreturns Hsignals].
  destruct (stopAllProcesses sys (processManager this)) as [stopAll manager'].
  cbn [fst snd] in Hreturns, Hsignals. subst stopAll.
  destruct (McpServer.close (server this)) as [[[]|err] server'];
    cbn [fst snd processManager console isServerRunning isRunning];
    rewrite ?Hrunning; auto.
Qed.
End Server.


Lemma server_closes_at_most_once_witness :
  let running := snd (ManageBgServer.start (ServerLife.fresh Supervisor.mockManager)) in
  let closed := snd (ManageBgServer.close (Supervisor.sysAt 5) running) in
  let again := ServerLife.performAll [ServerLife.CallStart] closed in
  ManageBgServer.isServerRunning again = true
  /\ ManageBgServer.close (Supervisor.sysAt 9) again = (Return tt, again).
Proof.
  intros running closed again. split; [vm_compute; reflexivity|].
  destruct (server_closes_at_most_once (Supervisor.sysAt 5) running
              [ServerLife.CallStart])
    as (_ & _ & _ & Hclose); [reflexivity|reflexivity|].
  apply Hclose.
Defined.

Lemma close_signals_every_running_process_witness :
  let started :=
    BgProcessManager.run Supervisor.countingIds
      [(Supervisor.sysAt 1, BgProcessManager.Start Supervisor.echo);
       (Supervisor.sysAt 2, BgProcessManager.Start Supervisor.echo);
       (Supervisor.sysAt 3, BgProcessManager.Emit "id-0" (BgProcessManager.Exit (Some 0)))]
      Supervisor.mockManager in
  let running := snd (ManageBgServer.start (ServerLife.fresh started)) in
  let closed := snd (ManageBgServer.close (Supervisor.sysAt 5) running) in
  Supervisor.firstSignals
    (Supervisor.callsSince started (ManageBgServer.processManager closed))
  = [1001].
Proof.
  intros started running closed.
  destruct (close_signals_every_running_process (Supervisor.sysAt 5) running)
    as (Hsignals & _); [reflexivity|reflexivity| |].
  - apply (invariant_wellFormed Supervisor.countingIds).
    apply reachable_invariant. eexists _, _, _. reflexivity.
  - etransitivity; [exact Hsignals|]. vm_compute. reflexivity.
Defined.

(** ** Error texts *)

Lemma append_nil_r (s : string) : s +:+ EmptyString = s.
Proof.
  induction s as [|c s IH]; [reflexivity|]. rewrite append_cons, IH. reflexivity.
Qed.

Lemma append_inv_head (a x y : string) : a +:+ x = a +:+ y -> x = y.
Proof.
  induction a as [|c a IH]; [rewrite !append_nil; auto|].
  rewrite !append_cons. intros [= H]. auto.
Qed.

Lemma diverge_append (a b x y : string) :
  diverge a b = true -> a +:+ x <> b +:+ y.
Proof.
  revert b. induction a as [|c a IH]; intros [|d b]; cbn [diverge]; try discriminate.
  rewrite !append_cons. destruct (Ascii.eqb c d) eqn:Hcd.
  - intros Hdiv [= _ Hrest]. exact (IH b Hdiv Hrest).
  - intros _ [= Hc _]. apply Ascii.eqb_neq in Hcd. contradiction.
Qed.

Lemma getUserMessage_head (e : errors.ProcessError) :
  ProcessErrorMessages.getUserMessage e
  = userMessageHead (errors.type e) +:+ errors.details e.
Proof.
  unfold userMessageHead, ProcessErrorMessages.getUserMessage.
  cbn [errors.type errors.details].
  destruct (errors.type e); rewrite append_nil_r; reflexivity.
Qed.

Lemma message_head (e : errors.ProcessError) :
  errors.message e
  = (errors.ErrorType_value (errors.type e) +:+ ": ") +:+ errors.details e.
Proof. unfold errors.message. rewrite append_assoc. reflexivity. Qed.

(** X21: the message of a [ProcessError] and its user message each tell
    the error type and the details apart from every other: two errors with
    the same message, or with the same user message, have the same type
    and the same details. *)
Theorem error_texts_determine_type_and_details (e1 e2 : errors.ProcessError) :
  (errors.message e1 = errors.message e2 ->
   errors.type e1 = errors.type e2 /\ errors.details e1 = errors.details e2)
  /\ (ProcessErrorMessages.getUserMessage e1 = ProcessErrorMessages.getUserMessage e2 ->
      errors.type e1 = errors.type e2 /\ errors.details e1 = errors.details e2).
Proof.
  split.
  - rewrite !message_head.
    destruct (errors.type e1), (errors.type e2); intros H;
      first [ split; [reflexivity|exact (append_inv_head _ _ _ H)]
            | exfalso; revert H; apply diverge_append; reflexivity ].
  - rewrite !getUserMessage_head.
    destruct (errors.type e1), (errors.type e2); intros H;
      first [ split; [reflexivity|exact (append_inv_head _ _ _ H)]
            | exfalso; revert H; apply diverge_append; reflexivity ].
Qed.

Lemma error_texts_determine_type_and_details_witness :
  let thrown :=
    {| errors.type := errors.TERMINATION_FAILED;
       errors.details := "Failed to stop process: Process 1000 not found";
       errors.processId := Some "id-0" |} in
  let reported :=
    {| errors.type := errors.TERMINATION_FAILED;
       errors.details := "Failed to stop process: Process 1000 not found";
       errors.processId := None |} in
  errors.type thrown = errors.type reported
  /\ errors.details thrown = errors.details reported.
Proof.
  intros thrown reported.
  destruct (error_texts_determine_type_and_details thrown reported) as [Hmessage _].
  apply Hmessage. reflexivity.
Defined.

(** ** Logging *)

Section LoggingFacts.
Import Logging.
Context {Unknown : Type}.

Lemma snoc_ne {A} (l : list A) (x : A) : l ++ [x] <> l.
Proof.
  intros H. apply (f_equal length) in H. rewrite length_app in H. cbn in H. lia.
Qed.

Lemma enabled_silent config nodeEnv :
  enabled (create config nodeEnv) = false <-> silent config nodeEnv.
Proof.
  unfold create, isLoggingEnabled, silent. cbn [enabled].
  destruct (ConfigProvider.loggingEnabled config) as [[]|].
  - split; [discriminate|]. intros [[=]|[[=] _]].
  - split; [auto|reflexivity].
  - rewrite negb_false_iff, bool_decide_eq_true. split; [auto|].
    intros [[=]|[_ H]]. exact H.
Qed.

(** X22: a logger writes nothing at all, through any of its four
    methods, exactly when logging is switched off in the configuration or
    is not set there while [NODE_ENV] is [test]; an explicit setting wins
    over [NODE_ENV].  Otherwise each call writes one line to the console,
    behind what is there. *)
Theorem logger_is_silent_by_setting_then_NODE_ENV
    (config : ConfigProvider.Config) (nodeEnv : option string)
    (message : string) (args : list Unknown) (error : option Unknown)
    (console : list (ConsoleCall Unknown)) :
  let logging := create config nodeEnv in
  (debug logging message args console = console <-> silent config nodeEnv)
  /\ (info logging message console = console <-> silent config nodeEnv)
  /\ (warn logging message console = console <-> silent config nodeEnv)
  /\ (Logging.error logging message error console = console <-> silent config nodeEnv)
  /\ (~ silent config nodeEnv ->
      debug logging message args console
      = console ++ [ConsoleLog ("[DEBUG] " +:+ message) args]
      /\ info logging message console = console ++ [ConsoleLog ("[INFO] " +:+ message) []]
      /\ warn logging message console = console ++ [ConsoleWarn ("[WARN] " +:+ message)]
      /\ Logging.error logging message error console
         = console ++ [ConsoleError ("[ERROR] " +:+ message) error]).
Proof.
  cbn zeta. rewrite <- (enabled_silent config nodeEnv).
  unfold debug, info, warn, Logging.error.
  assert (Hloud : forall (written : list (ConsoleCall Unknown)) call,
             written = console ++ [call] -> (written = console <-> true = false)).
  { intros written call ->. split; [|discriminate].
    intros Hsame. exfalso. exact (snoc_ne _ _ Hsame). }
  destruct (enabled (create config nodeEnv)).
  - split; [apply (Hloud _ _ eq_refl)|]. split; [apply (Hloud _ _ eq_refl)|].
    split; [apply (Hloud _ _ eq_refl)|]. split.
    + destruct error; apply (Hloud _ _ eq_refl).
    + intros _. destruct error; auto.
  - intuition congruence.
Qed.
End LoggingFacts.

Lemma logger_is_silent_by_setting_then_NODE_ENV_witness :
  Logging.info (Logging.create ConfigProvider.loadConfig (Some "production"))
    "Server running on stdio" ([] : list (Logging.ConsoleCall Thrown))
  = [Logging.ConsoleLog "[INFO] Server running on stdio" []].
Proof.
  destruct (logger_is_silent_by_setting_then_NODE_ENV ConfigProvider.loadConfig
              (Some "production") "Server running on stdio"
              ([] : list Thrown) None ([] : list (Logging.ConsoleCall Thrown)))
    as (_ & _ & _ & _ & Hloud).
  destruct Hloud as (_ & Hinfo & _); [|exact Hinfo].
  intros [[=]|[_ [=]]].
Defined.

(** ** The supervisor over the mock controller *)

Section JsMapPids.
Context {V B : Type} (f : string * V -> B).
Implicit Types (m : list (string * V)).

Lemma map_delete_sublist key m : map f (JsMap.delete key m) `sublist_of` map f m.
Proof.
  induction m as [|[k v] m IH]; [reflexivity|].
  cbn [JsMap.delete map]. destruct (decide (k = key)).
  - apply sublist_cons, IH.
  - apply sublist_skip, IH.
Qed.

Lemma map_set_elem key value m x :
  (forall k v, f (k, v) = f (key, v)) ->
  x ∈ map f (JsMap.set key value m) -> x ∈ map f m \/ x = f (key, value).
Proof.
  intros Hkey. induction m as [|[k v] m IH]; cbn [JsMap.set map].
  - intros [->|Hin%elem_of_nil]%elem_of_cons; [auto|contradiction].
  - destruct (decide (k = key)) as [->|Hne]; cbn [map];
      intros [->|Hin]%elem_of_cons.
    + auto.
    + left. right. exact Hin.
    + left. left.
    + destruct (IH Hin); [left; right; assumption|auto].
Qed.

Lemma NoDup_map_set key value m :
  (forall k v, f (k, v) = f (key, v)) ->
  NoDup (map f m) -> f (key, value) ∉ map f m ->
  NoDup (map f (JsMap.set key value m)).
Proof.
  intros Hkey. induction m as [|[k v] m IH]; cbn [JsMap.set map]; intros Hnodup Hnew.
  - apply NoDup_singleton.
  - apply NoDup_cons in Hnodup as [Hhead Htail].
    apply not_elem_of_cons in Hnew as [Hne Hnew].
    destruct (decide (k = key)) as [->|Hk]; cbn [map].
    + apply NoDup_cons. split; [exact Hnew|exact Htail].
    + apply NoDup_cons. split; [|apply IH; assumption].
      intros [Hin|Heq]%(map_set_elem _ _ _ _ Hkey); [contradiction|].
      apply Hne. symmetry. exact Heq.
Qed.
End JsMapPids.

Section MockSupervisor.
Import ProcessController BgProcessManager Supervisor OverTheMock.
Variable uuidv4 : nat -> string.
Implicit Types (this : BgProcessManagerImpl MockProcessController.MockProcessController).
Implicit Types (sys : Env) (processId : string).

Lemma extends_refl (c : MockProcessController.MockProcessController) : extends c c.
Proof. split; [lia|auto]. Qed.

Lemma extends_trans (c1 c2 c3 : MockProcessController.MockProcessController) :
  extends c1 c2 -> extends c2 c3 -> extends c1 c3.
Proof. intros [H1 H2] [H3 H4]. split; [lia|auto]. Qed.

Lemma kill_extends pid force (c : MockProcessController.MockProcessController) :
  extends c (snd (kill pid force c)).
Proof.
  cbn [kill MockProcessController.controller]. unfold MockProcessController.kill.
  destruct (MockProcessController.processes c !! pid) eqn:Hpid; cbn [snd];
    [|apply extends_refl].
  split; cbn; [lia|]. intros other Hother. apply lookup_insert_is_Some'. auto.
Qed.

Lemma waitForExit_extends pid timeoutMs (c : MockProcessController.MockProcessController) :
  extends c (snd (waitForExit pid timeoutMs c)).
Proof.
  cbn [waitForExit MockProcessController.controller].
  unfold MockProcessController.waitForExit.
  destruct (MockProcessController.processes c !! pid) eqn:Hpid; cbn [snd];
    [|apply extends_refl].
  split; cbn; [lia|]. intros other Hother. apply lookup_insert_is_Some'. auto.
Qed.

Lemma tracked_carries this this' :
  tracked this ->
  extends (processController this) (processController this') ->
  pids this' = pids this ->
  tracked this'.
Proof.
  intros [Hheld Hnodup] [Hnext Hkept] Hpids. unfold tracked. rewrite Hpids.
  split; [|exact Hnodup].
  eapply Forall_impl; [exact Hheld|]. cbn beta. intros pid [Hsome Hlt].
  split; [auto|lia].
Qed.

Lemma pids_settled processId record status exitCode endTime this this' :
  JsMap.get processId (processes this) = Some record ->
  processes this'
  = JsMap.set processId (settled record status exitCode endTime) (processes this) ->
  pids this' = pids this.
Proof.
  intros Hget Hset. unfold pids. rewrite Hset.
  apply map_set_present with (value := record); [exact Hget|reflexivity].
Qed.

Lemma tracked_updateProcessStatus sys processId status exitCode :
  preserves tracked (updateProcessStatus sys processId status exitCode).
Proof.
  intros this Ht.
  destruct (JsMap.get processId (processes this)) as [record|] eqn:Hget.
  - rewrite (updateProcessStatus_known _ _ _ _ _ _ Hget). cbn [snd].
    apply (tracked_carries this); [exact Ht|apply extends_refl|].
    eapply pids_settled; [exact Hget|reflexivity].
  - by rewrite updateProcessStatus_unknown.
Qed.

Lemma tracked_stopFailed sys processId record cause this controller made :
  tracked this -> extends (processController this) controller ->
  JsMap.get processId (processes this) = Some record ->
  tracked (snd (stopFailed sys processId record cause (advance controller made this))).
Proof.
  intros Ht Hext Hget. apply (tracked_carries this); [exact Ht|exact Hext|].
  eapply pids_settled; [exact Hget|reflexivity].
Qed.

Lemma tracked_stopWaits sys processId record this controller made :
  tracked this -> extends (processController this) controller ->
  JsMap.get processId (processes this) = Some record ->
  tracked (snd (stopWaits sys processId record controller made this)).
Proof.
  intros Ht Hext Hget. unfold stopWaits.
  pose proof (waitForExit_extends (MP.pid (managedProcess record)) None controller) as Hw.
  destruct (waitForExit _ None controller) as [[[]|cause] controller']; cbn [snd] in Hw.
  - apply (tracked_carries this); [exact Ht| |reflexivity].
    exact (extends_trans _ _ _ Hext Hw).
  - apply tracked_stopFailed; [exact Ht| |exact Hget].
    exact (extends_trans _ _ _ Hext Hw).
Qed.

Lemma tracked_stopProcess sys processId :
  preserves tracked (stopProcess sys processId).
Proof.
  intros this Ht.
  destruct (JsMap.get processId (processes this)) as [record|] eqn:Hget;
    [|by rewrite stopProcess_unknown].
  destruct (decide (MP.status (managedProcess record) = running)) as [Hrun|Hrun];
    [|by rewrite (stopProcess_settled _ _ _ _ Hget)].
  rewrite (stopProcess_running _ _ _ _ Hget Hrun).
  pose proof (kill_extends (MP.pid (managedProcess record)) None (processController this))
    as Hk1.
  destruct (kill _ None (processController this)) as [[[]|cause] c1]; cbn [snd] in Hk1.
  - by apply tracked_stopWaits.
  - pose proof (kill_extends (MP.pid (managedProcess record)) (Some true) c1) as Hk2.
    destruct (kill _ (Some true) c1) as [[killed|cause] c2]; cbn [snd] in Hk2.
    + apply tracked_stopWaits; [exact Ht|exact (extends_trans _ _ _ Hk1 Hk2)|exact Hget].
    + apply tracked_stopFailed; [exact Ht|exact (extends_trans _ _ _ Hk1 Hk2)|exact Hget].
  - by apply tracked_stopFailed.
Qed.

Lemma tracked_startProcess sys config :
  preserves tracked (startProcess uuidv4 sys config).
Proof.
  intros this Ht. rewrite startProcess_unfold.
  destruct (negb _); [exact Ht|]. cbn zeta.
  cbn [spawn MockProcessController.controller]. unfold MockProcessController.spawn.
  cbn [snd]. destruct Ht as [Hheld Hnodup].
  set (f := fun entry : string * ProcessRecord => MP.pid (managedProcess entry.2)).
  assert (Hkey : forall k v, f (k, v) = f (uuidv4 (uuids this), v)) by reflexivity.
  assert (Hnew : MockProcessController.nextPid (processController this) ∉ pids this).
  { intros Hin. rewrite Forall_forall in Hheld. destruct (Hheld _ Hin). lia. }
  split.
  - apply Forall_forall. intros pid Hin. unfold pids in Hin. cbn [processes] in Hin.
    apply (map_set_elem f _ _ _ _ Hkey) in Hin as [Hold| ->].
    + rewrite Forall_forall in Hheld. destruct (Hheld _ Hold) as [Hsome Hlt].
      cbn [processController MockProcessController.processes MockProcessController.nextPid].
      split; [apply lookup_insert_is_Some'; auto|lia].
    + cbn. split; [|lia]. apply lookup_insert_is_Some'. auto.
  - unfold pids. cbn [processes]. apply (NoDup_map_set f _ _ _ Hkey Hnodup). exact Hnew.
Qed.

Lemma tracked_forget processId this this' :
  tracked this ->
  processes this' = JsMap.delete processId (processes this) ->
  processController this' = processController this ->
  tracked this'.
Proof.
  intros [Hheld Hnodup] Hprocesses Hcontroller. unfold tracked, pids.
  rewrite Hprocesses, Hcontroller.
  pose proof (map_delete_sublist
                (fun entry : string * ProcessRecord => MP.pid (managedProcess entry.2))
                processId (processes this)) as Hsub.
  split; [|exact (sublist_NoDup _ _ Hnodup Hsub)].
  rewrite Forall_forall in *. intros pid Hin.
  apply Hheld. exact (elem_of_sublist _ _ _ Hin Hsub).
Qed.

Lemma tracked_restartProcess sys processId :
  preserves tracked (restartProcess uuidv4 sys processId).
Proof.
  intros this Ht. unfold restartProcess.
  destruct (JsMap.get processId (processes this)) as [record|]; [|exact Ht].
  revert this Ht. apply preserves_bind.
  { case_decide; [apply tracked_stopProcess|apply preserves_ret]. }
  intros _. apply preserves_bind.
  { intros this Ht. by apply (tracked_forget processId this). }
  intros _. apply preserves_bind.
  { intros this Ht. by apply (tracked_carries this); [|apply extends_refl|]. }
  intros _. apply preserves_bind; [apply tracked_startProcess|].
  intros newProcess. apply preserves_ret.
Qed.

Lemma tracked_stopAllProcesses sys : preserves tracked (stopAllProcesses sys).
Proof.
  intros this Ht. unfold stopAllProcesses.
  apply preserves_allSettled; [|exact Ht].
  apply Forall_forall. intros stop (id & -> & _)%list_elem_of_fmap.
  apply tracked_stopProcess.
Qed.

Lemma tracked_deliver sys processId event :
  preserves tracked (deliver sys processId event).
Proof.
  destruct event as [data|data|code|message]; cbn [deliver].
  - intros this Ht. exact Ht.
  - intros this Ht. exact Ht.
  - unfold onExit. apply tracked_updateProcessStatus.
  - unfold onError. apply preserves_bind.
    + intros this Ht. exact Ht.
    + intros _. apply tracked_updateProcessStatus.
Qed.

Lemma tracked_step sys action this :
  tracked this -> tracked (step uuidv4 sys action this).
Proof.
  intros Ht. destruct action as [config|processId|processId| |processId event];
    cbn [step].
  - by apply tracked_startProcess.
  - by apply tracked_stopProcess.
  - by apply tracked_restartProcess.
  - by apply tracked_stopAllProcesses.
  - case_decide; [by apply tracked_deliver|done].
Qed.

Lemma reachable_tracked this : reachable uuidv4 this -> tracked this.
Proof.
  intros (logBuffer & controller & trace & ->).
  assert (Hinit : tracked (create logBuffer controller))
    by (split; [apply Forall_nil_2|apply NoDup_nil_2]).
  revert Hinit. generalize (create logBuffer controller).
  induction trace as [|[sys action] trace IH]; intros this Ht; [exact Ht|].
  cbn [run]. apply IH, tracked_step, Ht.
Qed.

Lemma get_pids processId record this :
  JsMap.get processId (processes this) = Some record ->
  MP.pid (managedProcess record) ∈ pids this.
Proof.
  unfold pids. induction (processes this) as [|[k v] m IH]; [discriminate|].
  cbn [JsMap.get map]. destruct (decide (k = processId)).
  - intros [= ->]. left.
  - intros Hget. right. auto.
Qed.

(** X23: in every state a supervisor over the mock controller can
    reach, no two records share a pid, and every recorded pid is a process
    the mock holds. *)
Theorem mock_gives_every_record_its_own_pid
    (this : BgProcessManagerImpl MockProcessController.MockProcessController) :
  reachable uuidv4 this ->
  NoDup (pids this)
  /\ forall processId record,
       JsMap.get processId (processes this) = Some record ->
       is_Some (MockProcessController.processes (processController this)
                  !! MP.pid (managedProcess record)).
Proof.
  intros [Hheld Hnodup]%reachable_tracked. split; [exact Hnodup|].
  intros processId record Hget%get_pids.
  rewrite Forall_forall in Hheld. by destruct (Hheld _ Hget).
Qed.

(** X24: in every state a supervisor over the mock controller can
    reach, stopping a process recorded as running returns: the mock is
    sent the non-forceful signal and asked to wait, never the forceful
    signal; the mock then holds the process with exit code 0, and the
    record is as it was, still running. *)
Theorem stop_over_the_mock_returns
    (sys : Env) (processId : string)
    (this : BgProcessManagerImpl MockProcessController.MockProcessController)
    (record : ProcessRecord) :
  reachable uuidv4 this ->
  JsMap.get processId (processes this) = Some record ->
  MP.status (managedProcess record) = running ->
  let pid := MP.pid (managedProcess record) in
  let stopped := snd (stopProcess sys processId this) in
  fst (stopProcess sys processId this) = Return tt
  /\ callsSince this stopped = [CallKill pid None; CallWaitForExit pid None]
  /\ processes stopped = processes this
  /\ MockProcessController.exitCode
       <$> MockProcessController.processes (processController stopped) !! pid
     = Some (Some 0).
Proof.
  intros [Hheld _]%reachable_tracked Hget Hrun. cbn zeta.
  rewrite (stopProcess_running _ _ _ _ Hget Hrun).
  rewrite Forall_forall in Hheld.
  destruct (Hheld _ (get_pids _ _ _ Hget)) as [[process Hprocess] _].
  cbn [kill MockProcessController.controller]. unfold MockProcessController.kill.
  rewrite Hprocess. unfold stopWaits.
  cbn [waitForExit MockProcessController.controller].
  unfold MockProcessController.waitForExit.
  cbn [MockProcessController.processes]. rewrite lookup_insert_eq.
  cbn [fst snd]. split; [reflexivity|]. split; [apply callsSince_advance|].
  split; [reflexivity|].
  cbn [advance processController MockProcessController.processes].
  rewrite lookup_insert_eq. reflexivity.
Qed.
End MockSupervisor.

Lemma mock_gives_every_record_its_own_pid_witness :
  let this :=
    BgProcessManager.run Supervisor.countingIds
      [(Supervisor.sysAt 1, BgProcessManager.Start Supervisor.echo);
       (Supervisor.sysAt 2, BgProcessManager.Start Supervisor.echo);
       (Supervisor.sysAt 3, BgProcessManager.Restart "id-0")]
      Supervisor.mockManager in
  NoDup (OverTheMock.pids this) /\ OverTheMock.pids this = [1001; 1002].
Proof.
  intros this. split; [|vm_compute; reflexivity].
  apply (mock_gives_every_record_its_own_pid Supervisor.countingIds this).
  eexists _, _, _. reflexivity.
Defined.

Lemma stop_over_the_mock_returns_witness :
  let started :=
    BgProcessManager.run Supervisor.countingIds
      [(Supervisor.sysAt 1, BgProcessManager.Start Supervisor.echo)]
      Supervisor.mockManager in
  Supervisor.callsSince started
    (snd (BgProcessManager.stopProcess (Supervisor.sysAt 2) "id-0" started))
  = [ProcessController.CallKill 1000 None; ProcessController.CallWaitForExit 1000 None].
Proof.
  intros started.
  apply (stop_over_the_mock_returns Supervisor.countingIds (Supervisor.sysAt 2) "id-0"
           started
           {| BgProcessManager.managedProcess :=
                Supervisor.startedProcess (Supervisor.sysAt 1) Supervisor.echo "id-0"
                  {| ProcessController.pid := 1000 |};
              BgProcessManager.spawnResult := {| ProcessController.pid := 1000 |} |}).
  - eexists _, _, _. reflexivity.
  - vm_compute. reflexivity.
  - reflexivity.
Defined.

(** ** The supervisor: output is read back *)

Section Registered.
Import ProcessController BgProcessManager Supervisor Client.
Context {C : Type} `{!ProcessController C}.
Variable uuidv4 : nat -> string.
Implicit Types (this : BgProcessManagerImpl C) (sys : Env) (processId : string).

Lemma registered_carries this this' :
  registered this ->
  JsMap.keys (processes this') ⊆ JsMap.keys (processes this) ->
  handlers this' = handlers this ->
  registered this'.
Proof. intros Hr Hkeys Hhandlers key Hkey. rewrite Hhandlers. auto. Qed.

Lemma keys_settled processId record record' (m : list (string * ProcessRecord)) :
  JsMap.get processId m = Some record ->
  JsMap.keys (JsMap.set processId record' m) ⊆ JsMap.keys m.
Proof.
  intros Hget%get_Some_keys. rewrite keys_set_present by exact Hget. reflexivity.
Qed.

Lemma registered_updateProcessStatus sys processId status exitCode :
  preserves (C:=C) registered (updateProcessStatus sys processId status exitCode).
Proof.
  intros this Hr.
  destruct (JsMap.get processId (processes this)) as [record|] eqn:Hget.
  - rewrite (updateProcessStatus_known _ _ _ _ _ _ Hget). cbn [snd].
    apply (registered_carries this); [exact Hr| |reflexivity].
    eapply keys_settled, Hget.
  - by rewrite updateProcessStatus_unknown.
Qed.

Lemma registered_stopFailed sys processId record cause this controller made :
  registered this ->
  JsMap.get processId (processes this) = Some record ->
  registered (snd (stopFailed sys processId record cause (advance controller made this))).
Proof.
  intros Hr Hget. apply (registered_carries this); [exact Hr| |reflexivity].
  eapply keys_settled, Hget.
Qed.

Lemma registered_stopWaits sys processId record this controller made :
  registered this ->
  JsMap.get processId (processes this) = Some record ->
  registered (snd (stopWaits sys processId record controller made this)).
Proof.
  intros Hr Hget. unfold stopWaits.
  destruct (waitForExit _ None controller) as [[[]|cause] controller'].
  - exact Hr.
  - by apply registered_stopFailed.
Qed.

Lemma registered_stopProcess sys processId :
  preserves (C:=C) registered (stopProcess sys processId).
Proof.
  intros this Hr.
  destruct (JsMap.get processId (processes this)) as [record|] eqn:Hget;
    [|by rewrite stopProcess_unknown].
  destruct (decide (MP.status (managedProcess record) = running)) as [Hrun|Hrun];
    [|by rewrite (stopProcess_settled _ _ _ _ Hget)].
  rewrite (stopProcess_running _ _ _ _ Hget Hrun).
  destruct (kill _ None (processController this)) as [[[]|cause] c1].
  - by apply registered_stopWaits.
  - destruct (kill _ (Some true) c1) as [[killed|cause] c2].
    + by apply registered_stopWaits.
    + by apply registered_stopFailed.
  - by apply registered_stopFailed.
Qed.

Lemma registered_startProcess sys config :
  preserves (C:=C) registered (startProcess uuidv4 sys config).
Proof.
  intros this Hr. rewrite startProcess_unfold.
  destruct (negb _); [exact Hr|]. cbn zeta.
  destruct (spawn _ (processController this)) as [[spawnResult|cause] controller];
    cbn [snd]; [|exact Hr].
  intros key. cbn [processes handlers]. rewrite elem_of_app.
  destruct (decide (uuidv4 (uuids this) ∈ JsMap.keys (processes this))) as [Hin|Hnotin].
  - rewrite keys_set_present by exact Hin. auto.
  - rewrite keys_set_absent by exact Hnotin. rewrite elem_of_app. intros [Hkey|Hkey]; auto.
Qed.

Lemma registered_restartProcess sys processId :
  preserves (C:=C) registered (restartProcess uuidv4 sys processId).
Proof.
  intros this Hr. unfold restartProcess.
  destruct (JsMap.get processId (processes this)) as [record|]; [|exact Hr].
  revert this Hr. apply preserves_bind.
  { case_decide; [apply registered_stopProcess|apply preserves_ret]. }
  intros _. apply preserves_bind.
  { intros this Hr. apply (registered_carries this); [exact Hr| |reflexivity].
    apply keys_delete_subseteq. }
  intros _. apply preserves_bind.
  { intros this Hr. exact Hr. }
  intros _. apply preserves_bind; [apply registered_startProcess|].
  intros newProcess. apply preserves_ret.
Qed.

Lemma registered_step sys action this :
  registered this -> registered (step uuidv4 sys action this).
Proof.
  intros Hr. destruct action as [config|processId|processId| |processId event];
    cbn [step].
  - by apply registered_startProcess.
  - by apply registered_stopProcess.
  - by apply registered_restartProcess.
  - unfold stopAllProcesses. apply preserves_allSettled; [|exact Hr].
    apply Forall_forall. intros stop (id & -> & _)%list_elem_of_fmap.
    apply registered_stopProcess.
  - case_decide; [|exact Hr].
    destruct event as [data|data|code|message]; cbn [deliver].
    + exact Hr.
    + exact Hr.
    + by apply registered_updateProcessStatus.
    + unfold onError. revert this Hr H. intros this Hr _. revert this Hr.
      apply preserves_bind; [intros this Hr; exact Hr|].
      intros _. apply registered_updateProcessStatus.
Qed.

Lemma reachable_registered this : reachable uuidv4 this -> registered this.
Proof.
  intros (logBuffer & controller & trace & ->).
  assert (Hinit : registered (create logBuffer controller))
    by (intros key Hkey; inversion Hkey).
  revert Hinit. generalize (create logBuffer controller).
  induction trace as [|[sys action] trace IH]; intros this Hr; [exact Hr|].
  cbn [run]. apply IH, registered_step, Hr.
Qed.

Lemma lastN_app_suffix {A} (n : nat) (l k : list A) :
  (length k <= n)%nat -> k `suffix_of` lastN n (l ++ k).
Proof.
  intros Hlen. unfold lastN. rewrite length_app.
  destruct (decide (length l + length k - n <= length l)%nat) as [Hle|Hgt]; [|lia].
  rewrite drop_app_le by exact Hle. apply suffix_app_r. reflexivity.
Qed.

(** X25: output of a recorded process is read back.  In a reachable
    state, when the handle of a recorded process reports a chunk on one
    of its streams and the chunk holds at least one line and no more lines
    than the ceiling, the logs then read for the process end with the
    lines of the chunk, in order, tagged with the stream and stamped with
    the time of the event, which is also the time of the last update;
    the records are as they were. *)
Theorem output_of_a_recorded_process_is_read_back
    (sys sys' : Env) (processId : string) (stream : LogData.LogType) (data : string)
    (this : BgProcessManagerImpl C) (record : ProcessRecord) :
  reachable uuidv4 this ->
  JsMap.get processId (processes this) = Some record ->
  ProcessLogBuffer.parseLines data <> [] ->
  Z.of_nat (length (ProcessLogBuffer.parseLines data))
  <= ProcessLogBuffer.maxLines (logBuffer this) ->
  let this' := step uuidv4 sys (Emit processId (outputEvent stream data)) this in
  exists logData,
    logsOf sys' processId None this' = Return (Some logData)
    /\ Appends.entries stream (now sys) data `suffix_of` LogData.logs logData
    /\ LogData.lastUpdated logData = now sys
    /\ processes this' = processes this.
Proof.
  intros Hreach Hget Hlines Hfit. cbn zeta.
  pose proof (reachable_registered this Hreach processId (get_Some_keys _ _ _ Hget))
    as Hregistered.
  cbn [step]. destruct (decide (processId ∈ handlers this)); [|contradiction].
  assert (Hstate :
    snd (deliver sys processId (outputEvent stream data) this)
    = withLogBuffer
        (ProcessLogBuffer.append stream (now sys) processId data (logBuffer this)) this)
    by (destruct stream; reflexivity).
  rewrite Hstate. unfold logsOf, getProcessLogs.
  cbn [withLogBuffer processes logBuffer]. rewrite Hget. unfold ret. cbn [fst].
  eexists. split; [reflexivity|]. cbn [LogData.logs LogData.lastUpdated].
  split; [|split; [|reflexivity]].
  - rewrite read_all, retained_append.
    destruct (decide (processId = processId)); [|contradiction].
    destruct (decide (ProcessLogBuffer.parseLines data = [])); [contradiction|].
    unfold ProcessLogBuffer.enforceBufferLimits. cbn [ProcessLogBuffer.logs].
    destruct (_ >? _); [|apply suffix_app_r; reflexivity].
    assert (Hpos : 0 < ProcessLogBuffer.maxLines (logBuffer this)).
    { destruct (ProcessLogBuffer.parseLines data); [contradiction|].
      cbn [length] in Hfit. lia. }
    rewrite slice_neg by exact Hpos. apply lastN_app_suffix.
    rewrite length_entries. lia.
  - unfold ProcessLogBuffer.getLatestLogs, ProcessLogBuffer.append,
      ProcessLogBuffer.getOrCreateBuffer.
    destruct (ProcessLogBuffer.buffers (logBuffer this) !! processId);
      (case_decide as Hsome; [|exfalso; apply Hlines;
         destruct (ProcessLogBuffer.parseLines data); [reflexivity|cbn in Hsome; lia]]);
      cbn [ProcessLogBuffer.buffers]; rewrite lookup_insert_eq; reflexivity.
Qed.
End Registered.

Lemma output_of_a_recorded_process_is_read_back_witness :
  let started :=
    BgProcessManager.run Supervisor.countingIds
      [(Supervisor.sysAt 1, BgProcessManager.Start Supervisor.echo)]
      Supervisor.mockManager in
  let this' :=
    BgProcessManager.step Supervisor.countingIds (Supervisor.sysAt 4)
      (BgProcessManager.Emit "id-0" (BgProcessManager.Stdout "hello")) started in
  exists logData,
    Client.logsOf (Supervisor.sysAt 6) "id-0" None this' = Return (Some logData)
    /\ LogData.lastUpdated logData = 4.
Proof.
  intros started this'.
  destruct (output_of_a_recorded_process_is_read_back Supervisor.countingIds
              (Supervisor.sysAt 4) (Supervisor.sysAt 6) "id-0" LogData.stdout "hello"
              started
              {| BgProcessManager.managedProcess :=
                   Supervisor.startedProcess (Supervisor.sysAt 1) Supervisor.echo "id-0"
                     {| ProcessController.pid := 1000 |};
                 BgProcessManager.spawnResult := {| ProcessController.pid := 1000 |} |})
    as (logData & Hlogs & _ & Hupdated & _).
  - eexists _, _, _. reflexivity.
  - vm_compute. reflexivity.
  - vm_compute. discriminate.
  - vm_compute. discriminate.
  - exists logData. split; [exact Hlogs|exact Hupdated].
Defined.

(** ** The supervisor over [ProcessControllerImpl] *)

Lemma includes_ENOENT_getStartError (message : string) :
  NodeController.includes "ENOENT" message = true ->
  NodeController.getStartError message = JsError "Command not found".
Proof. intros H. unfold NodeController.getStartError. rewrite H. reflexivity. Qed.

Section Node.
Import ProcessController BgProcessManager Supervisor Client NodeController.
Context {ChildProcess World : Type}.
Variable uuidv4 : nat -> string.
Implicit Types (controller : ProcessControllerImpl ChildProcess World) (sys : Env).

Lemma spawn_handles
    (config : ProcessSpawnConfig) (controller : ProcessControllerImpl ChildProcess World) :
  match NodeController.spawn config controller with
  | (Return result, controller') =>
      is_Some (processes controller' !! pid result)
      /\ forall other, other <> pid result ->
           processes controller' !! other = processes controller !! other
  | (Throw _, controller') =>
      forall pid childProcess,
        processes controller' !! pid = Some childProcess ->
        processes controller !! pid = Some childProcess
  end.
Proof.
  unfold NodeController.spawn.
  destruct (childProcessSpawn _ _ _ _ _ _)
    as [[thrown|message|child exitCode pid early] world'];
    cbn [processes]; [auto|auto|].
  destruct (decide (exitCode = Some (-2))); [cbn [processes]; auto|].
  destruct exitCode as [code|]; [cbn [processes]; auto|].
  destruct pid as [pid|]; [|cbn [processes]; auto].
  destruct early as [message|]; cbn [processes ProcessController.pid].
  - intros other childProcess Hlookup.
    destruct (decide (pid = other)) as [->|Hne].
    + rewrite lookup_delete_eq in Hlookup. discriminate.
    + rewrite lookup_delete_ne, lookup_insert_ne in Hlookup by exact Hne. exact Hlookup.
  - split; [rewrite lookup_insert_eq; eauto|].
    intros other Hne. apply lookup_insert_ne. congruence.
Qed.


(** X26: [ProcessControllerImpl.spawn] keeps a handle exactly when it
    returns.  When it returns, the table holds a handle under the pid it
    returns and is otherwise as before; when it throws, for whichever
    reason and at whichever stage, the table holds no handle that it did
    not hold before. *)
Theorem spawn_keeps_a_handle_only_when_it_returns
    (config : ProcessSpawnConfig) (controller : ProcessControllerImpl ChildProcess World) :
  match NodeController.spawn config controller with
  | (Return result, controller') =>
      is_Some (processes controller' !! pid result)
      /\ forall other, other <> pid result ->
           processes controller' !! other = processes controller !! other
  | (Throw _, controller') =>
      forall pid childProcess,
        processes controller' !! pid = Some childProcess ->
        processes controller !! pid = Some childProcess
  end.
Proof. apply spawn_handles. Qed.

(** X27: a command that does not exist is reported as such.  When the
    working directory is fine and the launch fails with an error whose
    message mentions [ENOENT] (before the child has spawned, or within
    the wait after it), or the child shows exit code -2 once spawned, the
    start handler answers with [success: false] and the text
    [SPAWN_FAILED: Failed to spawn process: Command not found], no record
    is made and the controller keeps no handle it did not have. *)
Theorem missing_command_is_reported
    (sys : Env) (toolArgs : StartHandler.StartToolArgs)
    (this : BgProcessManagerImpl (ProcessControllerImpl ChildProcess World))
    (launch : Launch ChildProcess) (world' : World) :
  let cwd := default (processCwd sys) (StartHandler.cwd toolArgs) in
  let controller := processController this in
  validateDirectory sys cwd = true ->
  childProcessSpawn (node controller) (StartHandler.command toolArgs)
    (default [] (StartHandler.args toolArgs)) (Some cwd) (StartHandler.env toolArgs)
    (world controller)
  = (launch, world') ->
  match launch with
  | Refused _ => False
  | ErrorFirst message => includes "ENOENT" message = true
  | Spawned _ exitCode pid early =>
      exitCode = Some (-2)
      \/ (exitCode = None /\ is_Some pid
          /\ exists message, early = Some message /\ includes "ENOENT" message = true)
  end ->
  let reply := StartHandler.handle uuidv4 sys toolArgs this in
  fst reply = Failed "SPAWN_FAILED: Failed to spawn process: Command not found"
  /\ listed (snd reply) = listed this
  /\ forall pid childProcess,
       processes (processController (snd reply)) !! pid = Some childProcess ->
       processes controller !! pid = Some childProcess.
Proof.
  intros cwd controller Hdir Hlaunch Hmissing. cbn zeta.
  unfold StartHandler.handle. rewrite startProcess_unfold.
  cbn [BgProcessManager.cwd BgProcessManager.args BgProcessManager.command
       BgProcessManager.env from_option].
  fold cwd. rewrite Hdir. cbn [negb]. cbn zeta.
  pose proof (spawn_handles (spawnConfigOf sys
                 {| BgProcessManager.command := StartHandler.command toolArgs;
                    BgProcessManager.args := Some (default [] (StartHandler.args toolArgs));
                    BgProcessManager.cwd := StartHandler.cwd toolArgs;
                    BgProcessManager.env := StartHandler.env toolArgs |})
                controller) as Hhandles.
  assert (Herr : exists controller',
             NodeController.spawn
               (spawnConfigOf sys
                  {| BgProcessManager.command := StartHandler.command toolArgs;
                     BgProcessManager.args :=
                       Some (default [] (StartHandler.args toolArgs));
                     BgProcessManager.cwd := StartHandler.cwd toolArgs;
                     BgProcessManager.env := StartHandler.env toolArgs |})
               controller
             = (Throw (JsError "Command not found"), controller')).
  { unfold NodeController.spawn, spawnConfigOf.
    cbn [ProcessController.command ProcessController.args ProcessController.cwd
         ProcessController.env BgProcessManager.command BgProcessManager.args
         BgProcessManager.cwd BgProcessManager.env from_option id].
    fold cwd. fold controller. rewrite Hlaunch.
    destruct launch as [thrown|message|child exitCode pid early]; [contradiction| |].
    - rewrite (includes_ENOENT_getStartError _ Hmissing). eauto.
    - destruct Hmissing as [->|(-> & [p ->] & message & -> & Hmessage)].
      + destruct (decide (Some (-2) = Some (-2))); [eauto|contradiction].
      + destruct (decide (None = Some (-2))); [discriminate|].
        rewrite (includes_ENOENT_getStartError _ Hmessage). eauto. }
  destruct Herr as [controller' Herr].
  rewrite Herr in Hhandles.
  match goal with
  | |- context [ProcessController.spawn ?config (processController this)] =>
      replace (ProcessController.spawn config (processController this))
        with (@Throw ProcessSpawnResult (JsError "Command not found"), controller')
        by (symmetry; exact Herr)
  end.
  cbn [fst snd].
  split; [rewrite errorText_SpawnFailed; reflexivity|]. split; [reflexivity|].
  exact Hhandles.
Qed.

(** X28: over [ProcessControllerImpl] a stop of a process recorded as
    running fails only when sending a signal throws.  The wait never
    fails, also when its time runs out, so otherwise the stop returns:
    after the non-forceful signal alone if it was delivered, after both
    signals if it was not, and, when the controller holds no handle for
    the pid any more, after two signals that reached nothing. *)
Theorem stop_over_ProcessControllerImpl
    (sys : Env) (processId : string)
    (this : BgProcessManagerImpl (ProcessControllerImpl ChildProcess World))
    (record : ProcessRecord) :
  JsMap.get processId (BgProcessManager.processes this) = Some record ->
  MP.status (managedProcess record) = running ->
  let pid := MP.pid (managedProcess record) in
  let controller := processController this in
  let stop := stopProcess sys processId this in
  let made := callsSince this (snd stop) in
  match processes controller !! pid with
  | None =>
      fst stop = Return tt
      /\ made = [CallKill pid None; CallKill pid (Some true); CallWaitForExit pid None]
      /\ processController (snd stop) = controller
  | Some childProcess =>
      match childProcessKill (node controller) ProcessControllerImpl.SIGTERM childProcess
      with
      | (Throw cause, _) =>
          fst stop = Throw (TerminationFailed processId cause)
          /\ made = [CallKill pid None]
      | (Return true, _) =>
          fst stop = Return tt
          /\ made = [CallKill pid None; CallWaitForExit pid None]
      | (Return false, childProcess') =>
          match childProcessKill (node controller) ProcessControllerImpl.SIGKILL
                  childProcess'
          with
          | (Throw cause, _) =>
              fst stop = Throw (TerminationFailed processId cause)
              /\ made = [CallKill pid None; CallKill pid (Some true)]
          | (Return _, _) =>
              fst stop = Return tt
              /\ made = [CallKill pid None; CallKill pid (Some true);
                         CallWaitForExit pid None]
          end
      end
  end.
Proof.
  intros Hget Hrun. cbn zeta.
  rewrite (stopProcess_running _ _ _ _ Hget Hrun).
  cbn [ProcessController.kill NodeController.controller].
  unfold NodeController.kill, ProcessControllerImpl.kill.
  destruct (processes (processController this) !! MP.pid (managedProcess record))
    as [childProcess|] eqn:Hhandle.
  - destruct (childProcessKill _ ProcessControllerImpl.SIGTERM childProcess)
      as [[[]|cause] childProcess'] eqn:Hterm;
      cbn [from_option id]; rewrite ?Hterm.
    + unfold stopWaits. cbn [ProcessController.waitForExit NodeController.controller
           NodeController.waitForExit].
      split; [reflexivity|]. apply callsSince_advance.
    + cbn [processes]. rewrite lookup_insert_eq. cbn [from_option id].
      destruct (childProcessKill _ ProcessControllerImpl.SIGKILL childProcess')
        as [[killed|cause] childProcess''] eqn:Hkill.
      * unfold stopWaits.
        cbn [ProcessController.waitForExit NodeController.controller
           NodeController.waitForExit].
        split; [reflexivity|]. apply callsSince_advance.
      * split; [reflexivity|]. apply callsSince_stopFailed.
    + split; [reflexivity|]. apply callsSince_stopFailed.
  - cbn [processes]. rewrite Hhandle. unfold stopWaits.
    cbn [ProcessController.waitForExit NodeController.controller
           NodeController.waitForExit].
    split; [reflexivity|]. split; [apply callsSince_advance|].
    cbn [snd advance processController]. destruct (processController this). reflexivity.
Qed.
End Node.

Lemma spawn_keeps_a_handle_only_when_it_returns_witness :
  let controller :=
    {| NodeController.processes := ∅;
       NodeController.world :=
         [NodeController.Spawned ([] : NodeExamples.Child) None (Some 4242)
            (Some "spawn nonexistent-command-12345 ENOENT")];
       NodeController.node := NodeExamples.scripted |} in
  let config :=
    {| ProcessController.command := "nonexistent-command-12345";
       ProcessController.args := None; ProcessController.cwd := None;
       ProcessController.env := None |} in
  NodeController.processes (snd (NodeController.spawn config controller)) !! 4242 = None.
Proof.
  intros controller config.
  pose proof (spawn_keeps_a_handle_only_when_it_returns config controller) as Hspawn.
  destruct (NodeController.spawn config controller) as [[result|err] controller'] eqn:Hs.
  - vm_compute in Hs. discriminate.
  - cbn [snd].
    destruct (NodeController.processes controller' !! 4242) as [childProcess|] eqn:Hl;
      [|reflexivity].
    apply Hspawn in Hl. vm_compute in Hl. discriminate.
Defined.

Lemma missing_command_is_reported_witness :
  let toolArgs :=
    {| StartHandler.command := "nonexistent-command-12345";
       StartHandler.args := None; StartHandler.cwd := None;
       StartHandler.env := None |} in
  let this :=
    NodeExamples.manager
      [NodeController.ErrorFirst "spawn nonexistent-command-12345 ENOENT"] in
  fst (StartHandler.handle Supervisor.countingIds (Supervisor.sysAt 1) toolArgs this)
  = Failed "SPAWN_FAILED: Failed to spawn process: Command not found".
Proof.
  intros toolArgs this.
  apply (missing_command_is_reported Supervisor.countingIds (Supervisor.sysAt 1)
           toolArgs this
           (NodeController.ErrorFirst "spawn nonexistent-command-12345 ENOENT") []).
  - reflexivity.
  - reflexivity.
  - reflexivity.
Defined.

Lemma stop_over_ProcessControllerImpl_witness :
  let started :=
    BgProcessManager.run Supervisor.countingIds
      [(Supervisor.sysAt 1, BgProcessManager.Start Supervisor.echo)]
      (NodeExamples.manager
         [NodeController.Spawned [Return false; Return true] None (Some 4242) None]) in
  let stop := BgProcessManager.stopProcess (Supervisor.sysAt 2) "id-0" started in
  fst stop = Return tt
  /\ Supervisor.callsSince started (snd stop)
     = [ProcessController.CallKill 4242 None;
        ProcessController.CallKill 4242 (Some true);
        ProcessController.CallWaitForExit 4242 None].
Proof.
  intros started stop.
  pose proof (stop_over_ProcessControllerImpl (Supervisor.sysAt 2) "id-0" started
                {| BgProcessManager.managedProcess :=
                     Supervisor.startedProcess (Supervisor.sysAt 1) Supervisor.echo "id-0"
                       {| ProcessController.pid := 4242 |};
                   BgProcessManager.spawnResult := {| ProcessController.pid := 4242 |} |})
    as Hstop.
  cbv zeta in Hstop.
  change (NodeController.processes (BgProcessManager.processController started) !! _)
    with (Some [Return false; Return true]) in Hstop.
  cbv iota beta in Hstop.
  change (NodeController.childProcessKill _ ProcessControllerImpl.SIGTERM
            [Return false; Return true])
    with (@Return bool false, [@Return bool true]) in Hstop.
  cbv iota beta in Hstop.
  change (NodeController.childProcessKill _ ProcessControllerImpl.SIGKILL [Return true])
    with (@Return bool true, @nil (Completion bool)) in Hstop.
  cbv iota beta in Hstop.
  apply Hstop; [vm_compute; reflexivity|reflexivity].
Defined.

(** ** The supervisor: one record per id *)

Section OneRecordPerId.
Import ProcessController BgProcessManager Supervisor Client.
Context {C : Type} `{!ProcessController C}.
Variable uuidv4 : nat -> string.

Lemma listed_ids (this : BgProcessManagerImpl C) :
  wellFormed this -> map MP.id (listed this) = JsMap.keys (processes this).
Proof.
  intros [Hnodup Hids]. pose proof (wellFormed_entries _ Hnodup Hids) as Hentries.
  unfold listed, JsMap.values, JsMap.keys. rewrite !map_map.
  apply map_ext_Forall. eapply Forall_impl; [exact Hentries|].
  cbn beta. intros entry [Hid _]. exact Hid.
Qed.

(** X29: in every reachable state [listProcesses] lists no id twice,
    and the processes it lists are exactly those that [getProcessInfo]
    finds under their own id. *)
Theorem listed_processes_have_their_own_ids
    (this : BgProcessManagerImpl C) (p : ManagedProcess) :
  reachable uuidv4 this ->
  NoDup (map MP.id (listed this))
  /\ (p ∈ listed this <-> info (MP.id p) this = Some p).
Proof.
  intros Hreach.
  pose proof (invariant_wellFormed uuidv4 _ (reachable_invariant uuidv4 _ Hreach)) as Hwf.
  split; [rewrite (listed_ids this Hwf); exact (proj1 Hwf)|].
  destruct Hwf as [Hnodup Hids]. unfold listed, info. split.
  - intros (record & -> & Hrecord)%list_elem_of_fmap.
    destruct (values_get _ _ Hrecord Hnodup) as [key Hget].
    rewrite (Hids _ _ Hget), Hget. reflexivity.
  - destruct (JsMap.get (MP.id p) (processes this)) as [record|] eqn:Hget;
      [|discriminate].
    intros [= <-]. apply list_elem_of_fmap. exists record.
    split; [reflexivity|exact (get_values _ _ _ Hget)].
Qed.
End OneRecordPerId.

Lemma listed_processes_have_their_own_ids_witness :
  let this :=
    BgProcessManager.run Supervisor.countingIds
      [(Supervisor.sysAt 1, BgProcessManager.Start Supervisor.echo);
       (Supervisor.sysAt 2, BgProcessManager.Start Supervisor.echo);
       (Supervisor.sysAt 3, BgProcessManager.Stop "id-0")]
      Supervisor.mockManager in
  NoDup (map ManagedProcess.id (Client.listed this))
  /\ map ManagedProcess.id (Client.listed this) = ["id-0"; "id-1"].
Proof.
  intros this. split; [|vm_compute; reflexivity].
  apply (listed_processes_have_their_own_ids Supervisor.countingIds this
           (Supervisor.startedProcess (Supervisor.sysAt 1) Supervisor.echo "id-0"
              {| ProcessController.pid := 1000 |})).
  eexists _, _, _. reflexivity.
Defined.
